(** * AnchorPhase: the data service and the Epley estimate

    A shallow embedding of [constants.ts] and [services/dataService.ts],
    and of the functions of the components that compute on the data
    ([ExerciseSetup], [WeeklyLog], [MonthlyCalendarView], [ProgressChart]).

    Conventions of the embedding:
    - the numbers of the progress series (weights, repetitions, estimates)
      are IEEE 754 doubles, the [spec_float] of the standard library at
      precision 53 ([Double]); the Epley formula is also given over exact
      rationals ([Q]), as it is written;
    - the digits of a count denote an [N], which [parseInt] holds as a
      double: the number itself below [2^53], rounded to 53 bits from there
      on ([Js.toDouble]);
    - a target of the template is a whole number, a [Z]: the application
      itself writes positive targets only, and the template of an imported
      group is taken as it comes, so the sign of a target is not known;
    - indices, set numbers and weekday numbers are [nat]; an array is a
      [list], of any length;
    - a string is a [string] of 8-bit code units;
    - an optional field ([x?: T], [undefined], [null]) is an [option];
    - host functions whose result the repository does not define
      ([Date] parsing, [localeCompare], [parseFloat], [JSON.parse],
      [JSON.stringify]) are variables of the section that uses them;
    - a value produced from the clock or the random generator
      ([generateUniqueId]) is an explicit argument. *)

From Stdlib Require Import ZArith QArith Qround String Ascii List Sorted Permutation Lia Lqa.
From Stdlib Require Import SpecFloat.
From Stdlib Require OrderedTypeEx.
From stdpp Require Import base option list gmap strings.

Set Default Proof Using "Type".

Local Open Scope string_scope.
Local Open Scope nat_scope.
Local Open Scope list_scope.

(** ** Host string operations *)

Module Js.

(** White space as [String.prototype.trim] and the regular expression
    class [\s] see it, restricted to 8-bit code units. *)
Definition is_space (c : ascii) : bool :=
  let n := nat_of_ascii c in
  (Nat.leb 9 n && Nat.leb n 13) || Nat.eqb n 32 || Nat.eqb n 160.

(** The regular expression class [\d]. *)
Definition is_digit (c : ascii) : bool :=
  let n := nat_of_ascii c in Nat.leb 48 n && Nat.leb n 57.

Definition lower_char (c : ascii) : ascii :=
  let n := nat_of_ascii c in
  if (Nat.leb 65 n && Nat.leb n 90)
     || (Nat.leb 192 n && Nat.leb n 222 && negb (Nat.eqb n 215))
  then ascii_of_nat (n + 32) else c.

Fixpoint toLowerCase (s : string) : string :=
  match s with
  | EmptyString => EmptyString
  | String c r => String (lower_char c) (toLowerCase r)
  end.

Fixpoint trimStart (s : string) : string :=
  match s with
  | EmptyString => EmptyString
  | String c r => if is_space c then trimStart r else s
  end.

Fixpoint all_space (s : string) : bool :=
  match s with
  | EmptyString => true
  | String c r => is_space c && all_space r
  end.

Fixpoint trimEnd (s : string) : string :=
  match s with
  | EmptyString => EmptyString
  | String c r => if all_space s then EmptyString else String c (trimEnd r)
  end.

Definition trim (s : string) : string := trimStart (trimEnd s).

(** [s.length === 0], the falsity of a string. *)
Definition is_empty (s : string) : bool :=
  match s with EmptyString => true | _ => false end.

(** [/^\d+$/.test(s)] *)
Fixpoint all_digits (s : string) : bool :=
  match s with
  | EmptyString => true
  | String c r => is_digit c && all_digits r
  end.

Definition is_digits (s : string) : bool := negb (is_empty s) && all_digits s.

(** The whole number that a string of digits denotes.  [parseInt(s, 10)]
    is the double nearest to it: the number itself below [2^53]. *)
Fixpoint parseInt_acc (acc : N) (s : string) : N :=
  match s with
  | EmptyString => acc
  | String c r => parseInt_acc (10 * acc + (N_of_ascii c - 48)) r
  end.

Definition parseInt (s : string) : N := parseInt_acc 0 s.

(** The whole number as a JavaScript number holds it: itself while it has
    at most 53 bits, otherwise rounded to 53 bits, to the even one on a
    tie.  (From [2^1024] on the number is [Infinity], which has no
    counterpart here: such digits are read as if the exponent were not
    bounded.) *)
Definition toDouble (n : N) : N :=
  let size := N.size n in
  if (size <=? 53)%N then n
  else
    let shift := (size - 53)%N in
    let kept := N.shiftr n shift in
    let rest := N.land n (N.ones shift) in
    let half := N.shiftl 1 (shift - 1) in
    let up := (half <? rest)%N || ((rest =? half)%N && N.odd kept) in
    N.shiftl (if up then (kept + 1)%N else kept) shift.

(** [s.split(sep)] for a one-character separator. *)
Fixpoint split_char (sep : ascii) (s : string) : list string :=
  match s with
  | EmptyString => [EmptyString]
  | String c r =>
      if Ascii.eqb c sep then EmptyString :: split_char sep r
      else match split_char sep r with
           | [] => [String c EmptyString]
           | w :: ws => String c w :: ws
           end
  end.

(** [s.split(/\s+/)]: a run of white space is one separator. *)
Fixpoint split_ws_go (in_sep : bool) (s : string) : list string :=
  match s with
  | EmptyString => [EmptyString]
  | String c r =>
      if is_space c then
        if in_sep then split_ws_go true r
        else EmptyString :: split_ws_go true r
      else match split_ws_go false r with
           | [] => [String c EmptyString]
           | w :: ws => String c w :: ws
           end
  end.

Definition split_ws (s : string) : list string := split_ws_go false s.

Fixpoint startsWith (p s : string) : bool :=
  match p, s with
  | EmptyString, _ => true
  | String a p', String b s' => Ascii.eqb a b && startsWith p' s'
  | String _ _, EmptyString => false
  end.

Definition endsWith (s p : string) : bool :=
  let n := String.length s in
  let m := String.length p in
  Nat.leb m n && String.eqb (String.substring (n - m) m s) p.

(** [s.indexOf(p, from)] for a pattern [p] that is not empty, [None] for
    [-1]; [pos] is the index of the head of [s] in the whole string. *)
Fixpoint indexOf_at (p s : string) (pos from : nat) : option nat :=
  if Nat.leb from pos && startsWith p s then Some pos
  else match s with
       | EmptyString => None
       | String _ r => indexOf_at p r (S pos) from
       end.

Definition indexOf (s p : string) (from : nat) : option nat :=
  indexOf_at p s 0 from.

Definition includes (s p : string) : bool :=
  match indexOf s p 0 with Some _ => true | None => false end.

(** [s.substring(a, b)]: the arguments are clamped to the length and
    swapped when [a > b]. *)
Definition substring (s : string) (a b : nat) : string :=
  let n := String.length s in
  let a' := Nat.min a n in
  let b' := Nat.min b n in
  String.substring (Nat.min a' b') (Nat.max a' b' - Nat.min a' b') s.

(** [parts.join(sep)] *)
Fixpoint join (sep : string) (parts : list string) : string :=
  match parts with
  | [] => EmptyString
  | [p] => p
  | p :: rest => String.append p (String.append sep (join sep rest))
  end.

(** [Array.prototype.sort(cmp)]: a stable sort; [gt a b] stands for
    [cmp(a, b) > 0].  Every conforming implementation returns this list
    when the comparator is consistent. *)
Section Sort.
Context {A : Type} (gt : A → A → bool).

Fixpoint sort_insert (x : A) (l : list A) : list A :=
  match l with
  | [] => [x]
  | y :: l' => if gt x y then y :: sort_insert x l' else x :: l
  end.

Fixpoint sort (l : list A) : list A :=
  match l with
  | [] => []
  | x :: l' => sort_insert x (sort l')
  end.
End Sort.

End Js.

(** ** constants.ts *)

Definition DAYS_OF_WEEK : list string :=
  ["Sunday"; "Monday"; "Tuesday"; "Wednesday"; "Thursday"; "Friday"; "Saturday"].

(** [a <= b] on numbers. *)
Definition Qleb (a b : Q) : bool := Qle_bool a b.

Definition calculateEpley1RM (weight reps : Q) : Q :=
  if Qleb reps 0 || Qleb weight 0 then 0%Q
  else if Qeq_bool reps 1 then weight
  else (weight * (1 + reps / 30))%Q.

(** *** The numbers of the code

    A JavaScript [number] is an IEEE 754 double: [spec_float] with a
    significand of 53 bits, every operation rounded to the nearest double,
    to the even one on a tie.  A comparison with [NaN] is false. *)
Module Double.

Definition t : Type := spec_float.
Definition prec : Z := 53.
Definition emax : Z := 1024.

Definition zero : t := S754_zero false.

(** The double nearest to a whole number: the number itself up to [2^53],
    [Infinity] from [2^1024] on.  This is how [parseInt] reads digits. *)
Definition of_Z (z : Z) : t := binary_normalize prec emax z 0 false.
Definition of_N (n : N) : t := of_Z (Z.of_N n).

Definition add : t → t → t := SFadd prec emax.
Definition mul : t → t → t := SFmul prec emax.
Definition div : t → t → t := SFdiv prec emax.

(** [a < b], [a <= b] and [a === b]. *)
Definition ltb : t → t → bool := SFltb.
Definition leb : t → t → bool := SFleb.
Definition eqb : t → t → bool := SFeqb.

(** The real number that a finite double is. *)
Definition to_Q (x : t) : Q :=
  match x with
  | S754_finite s m e => (if s then -1 else 1) * inject_Z (Zpos m) * Qpower 2 e
  | _ => 0
  end.

(** [calculateEpley1RM] as the code evaluates it. *)
Definition calculateEpley1RM (weight reps : t) : t :=
  if leb reps zero || leb weight zero then zero
  else if eqb reps (of_Z 1) then weight
  else mul weight (add (of_Z 1) (div reps (of_Z 30))).

End Double.


(** ** types.ts *)

Module Exercise.
Record t := mk { id : string; name : string }.
End Exercise.

Module ExerciseSet.
Record t := mk { setNumber : nat; weight : string; reps : string; completed : bool }.
End ExerciseSet.

Module LoggedExercise.
Record t := mk {
  exerciseId : string;
  name : string;
  sets : list ExerciseSet.t;
  notes : option string
}.
End LoggedExercise.

Module DailyLog.
Record t := mk { date : string; exercises : list LoggedExercise.t }.
End DailyLog.

(** [targetSets] is a whole number; the template of an imported group is
    not validated, so it may be negative. *)
(** [targetSets] is a whole number, of either sign: [addGroupFromImport]
    and [applyGroupTemplateToUser] take the template of a group as it
    is. *)
Module WeeklyTemplateExercise.
Record t := mk {
  exerciseId : string;
  targetSets : Z;
  targetReps : option string;
  originalIndex : option nat
}.
End WeeklyTemplateExercise.

Module WeeklyTemplateDay.
Record t := mk { dayOfWeek : nat; exercises : list WeeklyTemplateExercise.t }.
End WeeklyTemplateDay.

Module Group.
Record t := mk {
  id : string;
  name : string;
  ownerId : string;
  inviteCode : string;
  sharedTemplate : list WeeklyTemplateDay.t;
  lastUpdated : string
}.
End Group.

Module AppData.
Record t := mk {
  userId : string;
  exercises : list Exercise.t;
  weeklyTemplate : list WeeklyTemplateDay.t;
  dailyLogs : list DailyLog.t;
  groups : list Group.t;
  activeSyncedGroupId : option string
}.
End AppData.

Module OneRepMaxDataPoint.
Record t := mk { date : string; exerciseName : string; predicted1RM : Double.t }.
End OneRepMaxDataPoint.

Module ParsedCSVExercisePlanItem.
Record t := mk {
  name : string;
  targetSets : N;
  targetReps : option string;
  originalIndex : option nat
}.
End ParsedCSVExercisePlanItem.

(** The document as [JSON.parse] hands it to [loadData]
    ([Partial<AppData>]): every field may be absent, and so may a slot of
    the weekly template and the fields of a slot. *)
Module StoredDay.
Record t := mk {
  dayOfWeek : option nat;
  exercises : option (list WeeklyTemplateExercise.t)
}.
End StoredDay.

Module StoredData.
Record t := mk {
  userId : option string;
  exercises : option (list Exercise.t);
  weeklyTemplate : option (list (option StoredDay.t));
  dailyLogs : option (list DailyLog.t);
  groups : option (list Group.t);
  activeSyncedGroupId : option string
}.
Definition empty : t := mk None None None None None None.
End StoredData.

(** The object that [JSON.parse] hands to [addGroupFromImport], before its
    fields have been checked. *)
Module ImportedGroup.
Record t := mk {
  id : option string;
  name : option string;
  ownerId : option string;
  inviteCode : option string;
  sharedTemplate : option (list WeeklyTemplateDay.t);
  lastUpdated : option string
}.
End ImportedGroup.

(** What [addGroupFromImport] returns. *)
Module ImportResult.
Record t := mk {
  newData : AppData.t;
  error : option string;
  importedGroup : option Group.t
}.
End ImportResult.

Module ExerciseSetHistoryEntry.
Record t := mk {
  date : string;
  setNumber : nat;
  weight : string;
  reps : string;
  completed : bool
}.
End ExerciseSetHistoryEntry.

(** The points of the progress chart: [{ date, 'Predicted 1RM' }]. *)
Module ChartPoint.
Record t := mk { date : string; predicted1RM : Double.t }.
End ChartPoint.

(** The status of a day in the calendar ([DayStatus] of
    [MonthlyCalendarView.tsx]). *)
Inductive DayStatus : Type :=
| StatusRest
| StatusEmpty
| StatusPartial
| StatusCompleted.

(** Truthiness of an optional string: [undefined] and [""] are falsy. *)
Definition truthy (o : option string) : bool :=
  match o with
  | Some s => negb (Js.is_empty s)
  | None => false
  end.

(** [JSON.parse(JSON.stringify(template))]: the template rebuilt value by
    value; an absent optional field stays absent. *)
Definition deepCopyExercise (e : WeeklyTemplateExercise.t) : WeeklyTemplateExercise.t :=
  WeeklyTemplateExercise.mk
    (WeeklyTemplateExercise.exerciseId e)
    (WeeklyTemplateExercise.targetSets e)
    (WeeklyTemplateExercise.targetReps e)
    (WeeklyTemplateExercise.originalIndex e).

Definition deepCopyDay (d : WeeklyTemplateDay.t) : WeeklyTemplateDay.t :=
  WeeklyTemplateDay.mk
    (WeeklyTemplateDay.dayOfWeek d)
    (map deepCopyExercise (WeeklyTemplateDay.exercises d)).

Definition deepCopyTemplate (tpl : list WeeklyTemplateDay.t) : list WeeklyTemplateDay.t :=
  map deepCopyDay tpl.

(** [Array.prototype.findIndex], [None] for [-1]. *)
Fixpoint findIndex {A : Type} (p : A → bool) (l : list A) : option nat :=
  match l with
  | [] => None
  | x :: l' => if p x then Some 0 else S <$> findIndex p l'
  end.

(** ** services/dataService.ts: the plan-text parser *)

(** The longest prefix of digits and what follows it. *)
Fixpoint span_digits (s : string) : string * string :=
  match s with
  | EmptyString => (EmptyString, EmptyString)
  | String c r =>
      if Js.is_digit c then
        let (ds, rest) := span_digits r in (String c ds, rest)
      else (EmptyString, s)
  end.

Definition one_of (s : string) (alts : list string) : bool :=
  existsb (String.eqb s) alts.

(** [/^\d+(s|ea|S|EA)?$/.test(s)] *)
Definition re_repsToken (s : string) : bool :=
  let (ds, rest) := span_digits s in
  negb (Js.is_empty ds) && one_of rest [""; "s"; "ea"; "S"; "EA"].

(** [/^(?:\d+(?:\s*(?:s|S|ea|EA|s\s*ea|S\s*EA))?)$/.test(s)] *)
Definition validRepPattern (s : string) : bool :=
  let (ds, rest) := span_digits s in
  negb (Js.is_empty ds) &&
  (Js.is_empty rest ||
   let r := Js.trimStart rest in
   one_of r ["s"; "S"; "ea"; "EA"] ||
   match r with
   | String c r' =>
       (Ascii.eqb c "s" && String.eqb (Js.trimStart r') "ea") ||
       (Ascii.eqb c "S" && String.eqb (Js.trimStart r') "EA")
   | EmptyString => false
   end).

(** [a + ` ${b}`] *)
Definition spaced (a b : string) : string := String.append a (String (" ")%char b).

Definition lowerIs (o : option string) (v : string) : bool :=
  match o with
  | Some p => String.eqb (Js.toLowerCase p) v
  | None => false
  end.

(** The repetitions read right after the sets at index [i]:
    [parts !! (i+1)] and up to two unit words after it. *)
Definition repsAfterSets (parts : list string) (i : nat) : option string :=
  match parts !! (i + 1) with
  | None => None
  | Some potentialReps =>
      if re_repsToken potentialReps || Js.is_digits potentialReps then
        let isNumber := Js.is_digits potentialReps in
        let endsS := Js.endsWith (Js.toLowerCase potentialReps) "s" in
        let p2 := parts !! (i + 2) in
        let p3 := parts !! (i + 3) in
        if (isNumber || endsS) && lowerIs p2 "ea" && endsS then
          Some (spaced potentialReps (default "" p2))
        else if isNumber && (lowerIs p2 "s" || lowerIs p2 "ea") then
          let repsStr := spaced potentialReps (default "" p2) in
          if lowerIs p2 "s" && lowerIs p3 "ea"
          then Some (spaced repsStr (default "" p3))
          else Some repsStr
        else Some potentialReps
      else None
  end.

(** The loop over [parts]: the words before the first number are the
    movement; the first number is the sets and ends the loop. The result
    is [movementParts] and, when a number was met, [setsStr], [repsStr]
    and [setsIndex]. *)
Fixpoint scanParts (parts rest : list string) (i : nat) (movementParts : list string)
  : list string * option (string * option string * nat) :=
  match rest with
  | [] => (movementParts, None)
  | part :: rest' =>
      if Js.is_digits part
      then (movementParts, Some (part, repsAfterSets parts i, i))
      else scanParts parts rest' (S i) (movementParts ++ [part])
  end.

(** An item before its [originalIndex] is known. *)
Definition baseItem (name : string) (sets : N) (reps : option string)
  : ParsedCSVExercisePlanItem.t :=
  ParsedCSVExercisePlanItem.mk name sets reps None.

Definition extractWorkoutFromTextBlock (textBlock : string)
  : option ParsedCSVExercisePlanItem.t :=
  let blockContent := Js.trim textBlock in
  if Js.is_empty blockContent then None
  else
    let parts := filter (λ p, Js.is_empty p = false) (Js.split_ws blockContent) in
    if length parts <? 2 then None
    else
      let '(movementParts, found) := scanParts parts parts 0 [] in
      let name := Js.trim (Js.join " " movementParts) in
      match found with
      | None => None
      | Some (setsStr, repsStr, setsIndex) =>
          if Js.is_empty name then None
          else
            let sets := Js.parseInt setsStr in
            if (sets <=? 0)%N || (100 <=? sets)%N then None
            else
              let repsStr1 :=
                match repsStr with
                | Some r =>
                    if negb (validRepPattern (Js.trim r))
                       && negb (Js.is_digits (Js.trim r))
                    then None else Some r
                | None => None
                end in
              let repsStr2 :=
                match repsStr1 with
                | Some r => Some r
                | None =>
                    match parts !! (setsIndex + 1) with
                    | Some p => if Js.is_digits p then Some p else None
                    | None => None
                    end
                end in
              Some (baseItem name sets
                      (r ← repsStr2;
                       if Js.is_empty r then None else Some (Js.trim r)))
      end.

(** [{ ...parsedItemBase, originalIndex: n }] *)
Definition withOriginalIndex (base : ParsedCSVExercisePlanItem.t) (n : nat)
  : ParsedCSVExercisePlanItem.t :=
  ParsedCSVExercisePlanItem.mk
    (ParsedCSVExercisePlanItem.name base)
    (ParsedCSVExercisePlanItem.targetSets base)
    (ParsedCSVExercisePlanItem.targetReps base)
    (Some n).

Definition newline : ascii := ascii_of_nat 10.

(** [rawText.trim().split('\n').map(line => line.trimEnd())] *)
Definition linesOf (rawText : string) : list string :=
  map Js.trimEnd (Js.split_char newline (Js.trim rawText)).

(** The test of one of the first lines: the index of the weekday when the
    trimmed line is exactly its name. *)
Definition dayOfLine (line : string) : option nat :=
  let lineContent := Js.trim line in
  match findIndex (λ day, String.eqb (Js.toLowerCase day) (Js.toLowerCase lineContent))
                  DAYS_OF_WEEK with
  | None => None
  | Some dayIndex =>
      let parts := Js.split_ws lineContent in
      if (length parts =? 1)
         && lowerIs (parts !! 0) (Js.toLowerCase (default "" (DAYS_OF_WEEK !! dayIndex)))
      then Some dayIndex else None
  end.

(** The loop over the first lines, from index [i]: the weekday and the
    index of the first line that names one. *)
Fixpoint detectDay (ls : list string) (i : nat) : option (nat * nat) :=
  match ls with
  | [] => None
  | l :: ls' =>
      match dayOfLine l with
      | Some d => Some (d, i)
      | None => detectDay ls' (S i)
      end
  end.

Definition isFullHeader (line : string) : bool :=
  let lineLower := Js.toLowerCase line in
  Js.includes lineLower "movement" && Js.includes lineLower "sets"
  && Js.includes lineLower "reps".

Definition isShortHeader (line : string) : bool :=
  let lineLower := Js.toLowerCase line in
  Js.includes lineLower "movement" && Js.includes lineLower "sets".

(** [for (i = start; i < lines.length; i++) if (p(lines[i])) ... break] *)
Definition findFrom (p : string → bool) (lines : list string) (start : nat)
  : option nat :=
  (λ k, start + k) <$> findIndex p (drop start lines).

Definition findHeader (lines : list string) (searchStart : nat) : option nat :=
  match findFrom isFullHeader lines searchStart with
  | Some h => Some h
  | None => findFrom isShortHeader lines searchStart
  end.

(** The loop over the data lines when a weekday was detected. *)
Fixpoint collectDay (ls : list string) (exerciseCounterForDay : nat)
    (acc : list ParsedCSVExercisePlanItem.t) : list ParsedCSVExercisePlanItem.t :=
  match ls with
  | [] => acc
  | currentLine :: ls' =>
      if Js.is_empty (Js.trim currentLine) then collectDay ls' exerciseCounterForDay acc
      else
        match extractWorkoutFromTextBlock currentLine with
        | Some base =>
            collectDay ls' (S exerciseCounterForDay)
              (acc ++ [withOriginalIndex base exerciseCounterForDay])
        | None => collectDay ls' exerciseCounterForDay acc
        end
  end.

(** The [while] loop that collects the positions of "movement": at most one
    position per character of the header, so [fuel] beyond its length is
    never used. *)
Fixpoint colStartsFrom (fuel : nat) (headerLower : string) (from : nat) : list nat :=
  match fuel with
  | 0 => []
  | S fuel' =>
      match Js.indexOf headerLower "movement" from with
      | Some currentPos => currentPos :: colStartsFrom fuel' headerLower (S currentPos)
      | None => []
      end
  end.

Definition colStartsOf (headerLineContent : string) : list nat :=
  colStartsFrom (S (String.length headerLineContent))
                (Js.toLowerCase headerLineContent) 0.

Definition dayOrderForColumns : list nat := [1; 2; 4; 5].

Module ColDef.
Record t := mk { dayOfWeek : nat; start : nat; end_ : nat }.
End ColDef.

(** The loop that pairs the column starts with [dayOrderForColumns] and
    stops at the shorter of the two; a column ends one character before the
    next one starts, the last one at the end of the header. *)
Fixpoint columnDefinitionsFrom (headerLength : nat) (days colStarts : list nat)
  : list ColDef.t :=
  match colStarts, days with
  | start :: rest, dayOfWeek :: days' =>
      ColDef.mk dayOfWeek start
        (match rest with
         | next :: _ => next - 1
         | [] => headerLength
         end)
      :: columnDefinitionsFrom headerLength days' rest
  | _, _ => []
  end.

Definition columnDefinitionsOf (headerLineContent : string) (colStarts : list nat)
  : list ColDef.t :=
  columnDefinitionsFrom (String.length headerLineContent) dayOrderForColumns colStarts.

(** The cell of a line under a column. *)
Definition textBlockOf (currentLine : string) (colDef : ColDef.t) : string :=
  let blockStart := Nat.min (ColDef.start colDef) (String.length currentLine) in
  let blockEnd := Nat.min (ColDef.end_ colDef + 1) (String.length currentLine) in
  Js.substring currentLine blockStart blockEnd.

(** The body of [columnDefinitions.forEach]. *)
Definition stepColumn (currentLine : string)
    (tempExercisesByDay : gmap nat (list ParsedCSVExercisePlanItem.t))
    (colDef : ColDef.t) : gmap nat (list ParsedCSVExercisePlanItem.t) :=
  match extractWorkoutFromTextBlock (textBlockOf currentLine colDef) with
  | Some base =>
      let items := default [] (tempExercisesByDay !! ColDef.dayOfWeek colDef) in
      <[ColDef.dayOfWeek colDef := items ++ [withOriginalIndex base (length items)]]>
        tempExercisesByDay
  | None => tempExercisesByDay
  end.

(** The body of the loop over the data lines when no weekday was detected. *)
Definition stepLine (columnDefinitions : list ColDef.t)
    (tempExercisesByDay : gmap nat (list ParsedCSVExercisePlanItem.t))
    (currentLine : string) : gmap nat (list ParsedCSVExercisePlanItem.t) :=
  if Js.is_empty (Js.trim currentLine) then tempExercisesByDay
  else fold_left (stepColumn currentLine) columnDefinitions tempExercisesByDay.

(** [DAYS_OF_WEEK.forEach((_, idx) => tempExercisesByDay[idx] = [])] *)
Definition emptyByDay : gmap nat (list ParsedCSVExercisePlanItem.t) :=
  fold_left (λ m idx, <[idx := []]> m) (seq 0 (length DAYS_OF_WEEK)) ∅.

Definition parseFullWorkoutPlanFromText (rawText : string)
  : gmap nat (list ParsedCSVExercisePlanItem.t) :=
  let lines := linesOf rawText in
  let detected := detectDay (take (Nat.min (length lines) 5) lines) 0 in
  let searchStartForHeader :=
    match detected with
    | Some (_, lineIndexOfDayName) => lineIndexOfDayName + 1
    | None => 0
    end in
  match findHeader lines searchStartForHeader with
  | None => ∅
  | Some headerLineIndex =>
      let headerLineContent := default "" (lines !! headerLineIndex) in
      let dataLines := drop (headerLineIndex + 1) lines in
      match detected with
      | Some (detectedDayOfWeek, _) =>
          {[ detectedDayOfWeek := collectDay dataLines 0 [] ]}
      | None =>
          let colStarts := colStartsOf headerLineContent in
          if length colStarts =? 0 then ∅
          else
            let columnDefinitions := columnDefinitionsOf headerLineContent colStarts in
            let tempExercisesByDay :=
              fold_left (stepLine columnDefinitions) dataLines emptyByDay in
            filter (λ kv, kv.2 ≠ []) tempExercisesByDay
      end
  end.

(** *** Vocabulary of the statements about the parser *)

(** The trimmed line is the name of weekday [d], in any case of letters. *)
Definition isDayName (line : string) (d : nat) : Prop :=
  ∃ day, DAYS_OF_WEEK !! d = Some day ∧
         Js.toLowerCase (Js.trim line) = Js.toLowerCase day.

(** The line contains the word, in any case of letters. *)
Definition mentions (line word : string) : Prop :=
  Js.includes (Js.toLowerCase line) word = true.

Definition isHeaderRow (line : string) : Prop :=
  mentions line "movement" ∧ mentions line "sets".

Definition isFullHeaderRow (line : string) : Prop :=
  isHeaderRow line ∧ mentions line "reps".

(** Line [h] is the header row looked for from line [start] on: the first
    line that mentions movement, sets and reps or, when there is none, the
    first that mentions movement and sets. *)
Definition headerRowAt (lines : list string) (start h : nat) (header : string) : Prop :=
  start ≤ h ∧ lines !! h = Some header ∧
  ((isFullHeaderRow header ∧
    ∀ j l, start ≤ j → j < h → lines !! j = Some l → ¬ isFullHeaderRow l) ∨
   ((∀ j l, start ≤ j → lines !! j = Some l → ¬ isFullHeaderRow l) ∧
    isHeaderRow header ∧
    ∀ j l, start ≤ j → j < h → lines !! j = Some l → ¬ isHeaderRow l)).

Definition nonBlank (line : string) : Prop := Js.trim line ≠ "".

(** Some character of the string is white space. *)
Fixpoint hasSpace (s : string) : bool :=
  match s with
  | EmptyString => false
  | String c r => Js.is_space c || hasSpace r
  end.

(** The items numbered 0, 1, 2, ... by [originalIndex]. *)
Definition tagged (items : list ParsedCSVExercisePlanItem.t)
  : list ParsedCSVExercisePlanItem.t :=
  imap (λ i base, withOriginalIndex base i) items.

(** The items extracted from the cells of the lines that are not blank. *)
Definition itemsOfLines (cell : string → string) (dataLines : list string)
  : list ParsedCSVExercisePlanItem.t :=
  tagged (omap (λ line, extractWorkoutFromTextBlock (cell line))
               (filter nonBlank dataLines)).

(** The positions at which [p] occurs in [s], from left to right; [pos] is
    the position of the head of [s]. *)
Fixpoint occurrencesFrom (p s : string) (pos : nat) : list nat :=
  (if Js.startsWith p s then [pos] else []) ++
  match s with
  | EmptyString => []
  | String _ r => occurrencesFrom p r (S pos)
  end.

Definition occurrences (p s : string) : list nat := occurrencesFrom p s 0.

(** The column of a weekday: Monday, Tuesday, Thursday and Friday have the
    columns 0 to 3, the other days have none. *)
Definition columnOfDay (day : nat) : option nat :=
  match day with
  | 1 => Some 0
  | 2 => Some 1
  | 4 => Some 2
  | 5 => Some 3
  | _ => None
  end.

(** The characters that the line has at the positions [first], ...,
    [last]. *)
Definition charsAt (line : string) (first last : nat) : string :=
  String.substring first (last + 1 - first) line.

(** The column that starts at the occurrence [k] of [cols] under a header
    of the given length: it ends one character before the next occurrence,
    or with the header. *)
Definition columnAt (headerLength : nat) (cols : list nat) (day k : nat)
  : option ColDef.t :=
  start ← cols !! k;
  Some (ColDef.mk day start
          (match cols !! (k + 1) with
           | Some next => next - 1
           | None => headerLength
           end)).

(** What every parsed item satisfies: a name, between 1 and 99 sets and,
    when it has repetitions, repetitions of the accepted form. *)
Definition wellFormedItem (item : ParsedCSVExercisePlanItem.t) : Prop :=
  ParsedCSVExercisePlanItem.name item ≠ "" ∧
  (1 ≤ ParsedCSVExercisePlanItem.targetSets item ≤ 99)%N ∧
  ∀ r, ParsedCSVExercisePlanItem.targetReps item = Some r → validRepPattern r = true.

(** The character occurs in the string. *)
Fixpoint hasChar (c : ascii) (s : string) : bool :=
  match s with
  | EmptyString => false
  | String a r => Ascii.eqb a c || hasChar c r
  end.

(** A field of a row of comma-separated text: not empty, without white
    space at either end, without a comma and without a line break. *)
Definition csvField (s : string) : Prop :=
  s ≠ "" ∧ Js.trimStart s = s ∧ Js.trimEnd s = s ∧
  hasChar "," s = false ∧ hasChar newline s = false.

(** The column is that of the weekday. *)
Definition dayIs (day : nat) (c : ColDef.t) : bool :=
  Nat.eqb (ColDef.dayOfWeek c) day.

(** ** A host to run the examples on

    One choice of the host functions, used to evaluate the data service on
    concrete inputs; the theorems hold for every host. *)

Module Sample.

(** Days from 1970-01-01 to the given civil date. *)
Definition daysFromCivil (y m d : Z) : Z :=
  let y' := (if m <=? 2 then y - 1 else y)%Z in
  let era := (y' / 400)%Z in
  let yoe := (y' - era * 400)%Z in
  let doy := ((153 * (if m <=? 2 then m + 9 else m - 3) + 2) / 5 + d - 1)%Z in
  let doe := (yoe * 365 + yoe / 4 - yoe / 100 + doy)%Z in
  (era * 146097 + doe - 719468)%Z.

Definition digitsAt (s : string) (a n : nat) : option Z :=
  let t := String.substring a n s in
  if Js.is_digits t && (String.length t =? n)
  then Some (Z.of_N (Js.parseInt t)) else None.

(** The time of a date written [YYYY-MM-DD], in milliseconds. *)
Definition getTime (s : string) : option Z :=
  if (String.length s =? 10)
     && String.eqb (String.substring 4 1 s) "-"
     && String.eqb (String.substring 7 1 s) "-"
  then
    y ← digitsAt s 0 4; m ← digitsAt s 5 2; d ← digitsAt s 8 2;
    if ((1 <=? m) && (m <=? 12) && (1 <=? d) && (d <=? 31))%Z
    then Some (86400000 * daysFromCivil y m d)%Z else None
  else None.

(** Comparison by code units. *)
Definition localeCompare (a b : string) : Z :=
  match String.compare a b with
  | Lt => (-1)%Z
  | Eq => 0%Z
  | Gt => 1%Z
  end.

(** The double of the decimal [digits / 10^places]: the quotient of two
    whole numbers below [2^53] is the double nearest to the decimal. *)
Definition decimal (digits : N) (places : nat) : Double.t :=
  Double.div (Double.of_N digits) (Double.of_Z (10 ^ Z.of_nat places)).

(** A number written with at most 15 digits, with an optional fraction;
    [NaN] for any other text. *)
Definition parseFloat (s : string) : Double.t :=
  match Js.split_char "." (Js.trim s) with
  | [whole] =>
      if Js.is_digits whole && (String.length whole <=? 15)
      then Double.of_N (Js.parseInt whole) else S754_nan
  | [whole; frac] =>
      if Js.is_digits whole && Js.is_digits frac
         && (String.length whole + String.length frac <=? 15)
      then decimal (Js.parseInt (String.append whole frac)) (String.length frac)
      else S754_nan
  | _ => S754_nan
  end.

(** A stored document that lists the week from Monday to Sunday. *)
Definition mondayFirst : StoredData.t :=
  StoredData.mk (Some "u1") None
    (Some (map (λ d, Some (StoredDay.mk (Some d) None)) [1; 2; 3; 4; 5; 6; 0]))
    None None None.

Definition parseDocument (s : string) : option StoredData.t :=
  if String.eqb s "{}" then Some StoredData.empty
  else if String.eqb s "monday-first" then Some mondayFirst
  else None.

Definition week : list WeeklyTemplateDay.t :=
  map (λ i, WeeklyTemplateDay.mk i []) (seq 0 7).

Definition pushDay : list WeeklyTemplateDay.t :=
  map (λ i, WeeklyTemplateDay.mk i
              (if i =? 1 then [WeeklyTemplateExercise.mk "e1" 3%Z (Some "10") None] else []))
      (seq 0 7).

Definition group (id owner updated : string) : Group.t :=
  Group.mk id "Lifters" owner "ABC234" pushDay updated.

Definition parseGroup (s : string) : option ImportedGroup.t :=
  if String.eqb s "g1-new" then
    Some (ImportedGroup.mk (Some "g1") (Some "Lifters") (Some "u2") (Some "ABC234")
            (Some pushDay) (Some "2024-03-01"))
  else if String.eqb s "no-name" then
    Some (ImportedGroup.mk (Some "g1") None (Some "u2") (Some "ABC234")
            (Some pushDay) (Some "2024-03-01"))
  else None.

Definition stringify (data : AppData.t) : string :=
  Js.join "," (map Exercise.name (AppData.exercises data)).

Definition set (n : nat) (w r : string) : ExerciseSet.t := ExerciseSet.mk n w r true.

Definition squat (sets : list ExerciseSet.t) : LoggedExercise.t :=
  LoggedExercise.mk "e1" "Squat" sets None.

Definition logs : list DailyLog.t :=
  [ DailyLog.mk "2024-01-08" [squat [set 1 "100" "5"; set 2 "110" "3"; set 3 "" "x"]];
    DailyLog.mk "2024-01-01" [squat [set 1 "100" "1"]; squat [set 1 "" ""]] ].

Definition data : AppData.t :=
  AppData.mk "u1" [Exercise.mk "e0" "Bench"; Exercise.mk "e1" "Squat"] week logs
    [group "g1" "u2" "2024-02-01"] (Some "g1").

Definition plan (lines : list string) : string :=
  Js.join (String newline "") lines.

(** The document that [JSON.parse] makes of the text written for [data],
    and a parser that knows this text only. *)
Definition storedData : StoredData.t :=
  StoredData.mk (Some "u1")
    (Some [Exercise.mk "e0" "Bench"; Exercise.mk "e1" "Squat"])
    (Some (map (λ i, Some (StoredDay.mk (Some i) (Some []))) (seq 0 7)))
    (Some logs) (Some [group "g1" "u2" "2024-02-01"]) (Some "g1").

Definition parseSaved (s : string) : option StoredData.t :=
  if String.eqb s "Bench,Squat" then Some storedData else None.

(** Data whose user owns the group. *)
Definition owned : AppData.t :=
  AppData.mk "u1" [Exercise.mk "e1" "Squat"] week logs
    [group "g1" "u1" "2024-02-01"] None.

End Sample.

(** ** services/dataService.ts: the document *)

Section DataService.

(** [new Date(s).getTime()]; [None] is [NaN], the time of an invalid date. *)
Variable Date_getTime : string → option Z.
(** [a.localeCompare(b)], the collation of the host. *)
Variable localeCompare : string → string → Z.
(** [parseFloat(s)], a double. *)
Variable parseFloat : string → Double.t.
(** [JSON.parse] of the stored document and of an imported group; [None]
    when it throws or yields no object at all. *)
Variable JSON_parse_data : string → option StoredData.t.
Variable JSON_parse_group : string → option ImportedGroup.t.
Variable JSON_stringify : AppData.t → string.

(** [(a, b) => new Date(a).getTime() - new Date(b).getTime()] is positive;
    a comparison with [NaN] is not. *)
Definition date_gt (a b : string) : bool :=
  match Date_getTime a, Date_getTime b with
  | Some ta, Some tb => (0 <? ta - tb)%Z
  | _, _ => false
  end.

(** [(a, b) => a.name.localeCompare(b.name)] is positive. *)
Definition exercise_gt (a b : Exercise.t) : bool :=
  (0 <? localeCompare (Exercise.name a) (Exercise.name b))%Z.

Definition emptyTemplate : list WeeklyTemplateDay.t :=
  map (λ i, WeeklyTemplateDay.mk i []) (seq 0 7).

Definition repairDay (i : nat) (day : option StoredDay.t) : WeeklyTemplateDay.t :=
  WeeklyTemplateDay.mk
    (default i (day ≫= StoredDay.dayOfWeek))
    (default [] (day ≫= StoredDay.exercises)).

(** [dataStr] is what [localStorage.getItem] returned, [freshId] what
    [generateUniqueId] would return. *)
Definition loadData (dataStr : option string) (freshId : string) : option AppData.t :=
  baseData ← (if truthy dataStr
               then JSON_parse_data (default "" dataStr)
               else Some StoredData.empty);
  let weeklyTemplate :=
    match StoredData.weeklyTemplate baseData with
    | Some tpl =>
        if negb (Nat.eqb (length tpl) 7) then emptyTemplate
        else imap repairDay tpl
    | None => emptyTemplate
    end in
  let exercises := Js.sort exercise_gt <$> StoredData.exercises baseData in
  Some (AppData.mk
          (if truthy (StoredData.userId baseData)
           then default "" (StoredData.userId baseData) else freshId)
          (default [] exercises)
          weeklyTemplate
          (default [] (StoredData.dailyLogs baseData))
          (default [] (StoredData.groups baseData))
          (if truthy (StoredData.activeSyncedGroupId baseData)
           then StoredData.activeSyncedGroupId baseData else None)).

(** [saveData] sorts the caller's exercise array in place and writes the
    document: the result is the data as the caller sees it afterwards and
    the text put under the storage key. *)
Definition saveData (data : AppData.t) : AppData.t * string :=
  let data' :=
    AppData.mk (AppData.userId data)
      (Js.sort exercise_gt (AppData.exercises data))
      (AppData.weeklyTemplate data) (AppData.dailyLogs data)
      (AppData.groups data) (AppData.activeSyncedGroupId data) in
  (data', JSON_stringify data').

Definition addExercise (data : AppData.t) (name : string) (freshId : string)
  : AppData.t * option Exercise.t :=
  let trimmedName := Js.trim name in
  if Js.is_empty trimmedName then (data, None)
  else
    match find (λ ex, String.eqb (Js.toLowerCase (Exercise.name ex))
                                 (Js.toLowerCase trimmedName))
               (AppData.exercises data) with
    | Some existingExercise => (data, Some existingExercise)
    | None =>
        let newExercise := Exercise.mk freshId trimmedName in
        let updatedExercises :=
          Js.sort exercise_gt (AppData.exercises data ++ [newExercise]) in
        (AppData.mk (AppData.userId data) updatedExercises
           (AppData.weeklyTemplate data) (AppData.dailyLogs data)
           (AppData.groups data) (AppData.activeSyncedGroupId data),
         Some newExercise)
    end.

Definition updateWeeklyTemplate (data : AppData.t)
    (newTemplate : list WeeklyTemplateDay.t) : AppData.t :=
  AppData.mk (AppData.userId data) (AppData.exercises data) newTemplate
    (AppData.dailyLogs data) (AppData.groups data) None.

Definition desyncActiveGroup (data : AppData.t) : AppData.t :=
  if truthy (AppData.activeSyncedGroupId data) then
    AppData.mk (AppData.userId data) (AppData.exercises data)
      (AppData.weeklyTemplate data) (AppData.dailyLogs data)
      (AppData.groups data) None
  else data.

Definition log_gt (a b : DailyLog.t) : bool :=
  date_gt (DailyLog.date a) (DailyLog.date b).

Definition upsertDailyLog (data : AppData.t) (log : DailyLog.t) : AppData.t :=
  let existingLogIndex :=
    findIndex (λ dlog, String.eqb (DailyLog.date dlog) (DailyLog.date log))
              (AppData.dailyLogs data) in
  let newLogs :=
    match existingLogIndex with
    | Some i => <[i := log]> (AppData.dailyLogs data)
    | None => AppData.dailyLogs data ++ [log]
    end in
  AppData.mk (AppData.userId data) (AppData.exercises data)
    (AppData.weeklyTemplate data) (Js.sort log_gt newLogs)
    (AppData.groups data) (AppData.activeSyncedGroupId data).

(** [parseFloat(x.toFixed(2))].  [toFixed(2)] writes the whole number [n]
    nearest to a hundred times the real number that [x] is, the larger one
    on a tie, with two decimal places, and [parseFloat] reads the double
    nearest to that decimal: for [n] below [2^53] this is the quotient of
    [n] by 100, both being doubles.  From there on the doubles are more
    than a hundredth apart and the decimal is read back as [x]; from
    [10^21] on, [Infinity] and [NaN] are written as they are. *)
Definition toFixed2 (x : Double.t) : Double.t :=
  match x with
  | S754_finite s _ _ =>
      let n := Qfloor (100 * Double.to_Q (SFabs x) + (1 # 2)) in
      if (n <? 2 ^ 53)%Z then
        let r := Double.div (Double.of_Z n) (Double.of_Z 100) in
        if s then SFopp r else r
      else x
  | _ => x
  end.

(** The body of [loggedEx.sets.forEach]. *)
Definition stepSet (max1RMForDay : Double.t) (set : ExerciseSet.t) : Double.t :=
  let weight := parseFloat (ExerciseSet.weight set) in
  let repsString := Js.trim (ExerciseSet.reps set) in
  if Js.is_digits repsString then
    let reps := Double.of_N (Js.parseInt repsString) in
    if Double.ltb Double.zero weight && Double.ltb Double.zero reps then
      let current1RM := Double.calculateEpley1RM weight reps in
      if Double.ltb max1RMForDay current1RM then current1RM else max1RMForDay
    else max1RMForDay
  else max1RMForDay.

(** The body of [log.exercises.forEach]. *)
Definition stepExercise (log : DailyLog.t)
    (oneRMData : list OneRepMaxDataPoint.t) (loggedEx : LoggedExercise.t)
  : list OneRepMaxDataPoint.t :=
  let max1RMForDay := fold_left stepSet (LoggedExercise.sets loggedEx) Double.zero in
  if Double.ltb Double.zero max1RMForDay then
    oneRMData ++ [OneRepMaxDataPoint.mk (DailyLog.date log)
                    (LoggedExercise.name loggedEx) (toFixed2 max1RMForDay)]
  else oneRMData.

Definition point_gt (a b : OneRepMaxDataPoint.t) : bool :=
  date_gt (OneRepMaxDataPoint.date a) (OneRepMaxDataPoint.date b).

Definition calculate1RMData (data : AppData.t) : list OneRepMaxDataPoint.t :=
  let oneRMData :=
    fold_left (λ acc log, fold_left (stepExercise log) (DailyLog.exercises log) acc)
              (AppData.dailyLogs data) [] in
  Js.sort point_gt oneRMData.

Definition applyGroupTemplateToUser (appData : AppData.t) (groupId : string)
  : AppData.t :=
  match find (λ g, String.eqb (Group.id g) groupId) (AppData.groups appData) with
  | None => appData
  | Some group =>
      AppData.mk (AppData.userId appData) (AppData.exercises appData)
        (deepCopyTemplate (Group.sharedTemplate group))
        (AppData.dailyLogs appData) (AppData.groups appData)
        (Some (Group.id group))
  end.

(** [new Date(a) > new Date(b)] *)
Definition date_later (a b : string) : bool :=
  match Date_getTime a, Date_getTime b with
  | Some ta, Some tb => (tb <? ta)%Z
  | _, _ => false
  end.

Definition with_groups (appData : AppData.t) (gs : list Group.t) : AppData.t :=
  AppData.mk (AppData.userId appData) (AppData.exercises appData)
    (AppData.weeklyTemplate appData) (AppData.dailyLogs appData)
    gs (AppData.activeSyncedGroupId appData).

(** The basic validation: every field present and truthy. *)
Definition validateImported (g : ImportedGroup.t) : option Group.t :=
  match ImportedGroup.id g, ImportedGroup.name g, ImportedGroup.ownerId g,
        ImportedGroup.inviteCode g, ImportedGroup.sharedTemplate g,
        ImportedGroup.lastUpdated g with
  | Some i, Some n, Some o, Some c, Some t, Some u =>
      if negb (Js.is_empty i) && negb (Js.is_empty n) && negb (Js.is_empty o)
         && negb (Js.is_empty c) && negb (Js.is_empty u)
      then Some (Group.mk i n o c t u) else None
  | _, _, _, _, _, _ => None
  end.

Definition addGroupFromImport (appData : AppData.t) (groupJSON : string)
  : ImportResult.t :=
  match JSON_parse_group groupJSON with
  | None =>
      ImportResult.mk appData
        (Some "Failed to parse group data. Ensure it's valid JSON.") None
  | Some parsed =>
      match validateImported parsed with
      | None => ImportResult.mk appData (Some "Invalid group data format.") None
      | Some importedGroup =>
          let same := λ g, String.eqb (Group.id g) (Group.id importedGroup) in
          let appended :=
            ImportResult.mk
              (with_groups appData (AppData.groups appData ++ [importedGroup]))
              None (Some importedGroup) in
          if existsb same (AppData.groups appData) then
            match findIndex same (AppData.groups appData) with
            | Some existingGroupIndex =>
                match AppData.groups appData !! existingGroupIndex with
                | Some existing =>
                    if date_later (Group.lastUpdated importedGroup)
                                  (Group.lastUpdated existing)
                       && negb (String.eqb (Group.ownerId existing)
                                           (AppData.userId appData))
                    then
                      ImportResult.mk
                        (with_groups appData
                           (<[existingGroupIndex := importedGroup]>
                              (AppData.groups appData)))
                        None (Some importedGroup)
                    else
                      ImportResult.mk appData
                        (Some "Group already exists or local version is newer.")
                        (Some existing)
                | None => appended
                end
            | None => appended
            end
          else appended
      end
  end.

(** *** services/dataService.ts: the other functions *)

Definition inviteChars : string := "ABCDEFGHJKLMNPQRSTUVWXYZ23456789".

(** [s.charAt(i)]: the empty string out of range. *)
Definition charAt (s : string) (i : nat) : string :=
  match String.get i s with
  | Some c => String c EmptyString
  | None => EmptyString
  end.

(** [draw i] is what [Math.floor(Math.random() * chars.length)] yields in
    turn [i] of the loop. *)
Definition generateInviteCode (draw : nat → nat) : string :=
  fold_left (λ code i, String.append code (charAt inviteChars (draw i))) (seq 0 6) "".

Definition getExercises (data : AppData.t) : list Exercise.t := AppData.exercises data.

Definition getDailyLog (data : AppData.t) (date : string) : option DailyLog.t :=
  find (λ log, String.eqb (DailyLog.date log) date) (AppData.dailyLogs data).

(** [parseInt(s, 10)] on any string: white space is skipped, a sign is
    read, then the longest run of digits, which are read as a double;
    [None] is [NaN]. *)
Definition parseIntOf (s : string) : option Z :=
  let t := Js.trimStart s in
  let '(negative, body) :=
    match t with
    | String c r =>
        if Ascii.eqb c "-" then (true, r)
        else if Ascii.eqb c "+" then (false, r)
        else (false, t)
    | EmptyString => (false, t)
    end in
  let (ds, _) := span_digits body in
  if Js.is_empty ds then None
  else
    let n := Z.of_N (Js.toDouble (Js.parseInt ds)) in
    Some (if negative then - n else n)%Z.

(** The body of [rows.forEach] in [parseCSVExercisePlan]: the item of a
    row, if the row holds one. *)
Definition csvItemOfRow (row : string) : option ParsedCSVExercisePlanItem.t :=
  let columns := map Js.trim (Js.split_char "," row) in
  if 2 <=? length columns then
    let name := default "" (columns !! 0) in
    let targetSets := parseIntOf (default "" (columns !! 1)) in
    let targetReps := if 3 <=? length columns then columns !! 2 else None in
    match targetSets with
    | Some n =>
        if negb (Js.is_empty name) && (0 <? n)%Z then
          Some (ParsedCSVExercisePlanItem.mk name (Z.to_N n)
                  (r ← targetReps; if Js.is_empty r then None else Some r)
                  None)
        else None
    | None => None
    end
  else None.

Definition parseCSVExercisePlan (csvText : string)
  : list ParsedCSVExercisePlanItem.t :=
  if Js.is_empty (Js.trim csvText) then []
  else
    let rows :=
      List.filter (λ row, negb (Js.is_empty row))
                  (map Js.trim (Js.split_char newline csvText)) in
    fold_left (λ items row,
                 match csvItemOfRow row with
                 | Some item => items ++ [item]
                 | None => items
                 end)
              rows [].

(** The sets that the history and the saved logs keep: completed, or with
    both a weight and repetitions. *)
Definition keptSet (set : ExerciseSet.t) : bool :=
  ExerciseSet.completed set
  || (negb (Js.is_empty (Js.trim (ExerciseSet.weight set)))
      && negb (Js.is_empty (Js.trim (ExerciseSet.reps set)))).

Definition entryOf (log : DailyLog.t) (set : ExerciseSet.t) : ExerciseSetHistoryEntry.t :=
  ExerciseSetHistoryEntry.mk (DailyLog.date log) (ExerciseSet.setNumber set)
    (ExerciseSet.weight set) (ExerciseSet.reps set) (ExerciseSet.completed set).

(** The body of [sortedLogs.forEach] in [getExerciseSetHistory]. *)
Definition stepHistory (exerciseId : string)
    (history : list ExerciseSetHistoryEntry.t) (log : DailyLog.t)
  : list ExerciseSetHistoryEntry.t :=
  match find (λ ex, String.eqb (LoggedExercise.exerciseId ex) exerciseId)
             (DailyLog.exercises log) with
  | Some loggedExercise =>
      fold_left (λ h set, if keptSet set then h ++ [entryOf log set] else h)
                (LoggedExercise.sets loggedExercise) history
  | None => history
  end.

(** The comparator of the history is positive: later dates first, then
    smaller set numbers first; a date comparison that is [NaN] is returned
    as it is and orders nothing. *)
Definition history_gt (a b : ExerciseSetHistoryEntry.t) : bool :=
  match Date_getTime (ExerciseSetHistoryEntry.date b),
        Date_getTime (ExerciseSetHistoryEntry.date a) with
  | Some tb, Some ta =>
      let dateComparison := (tb - ta)%Z in
      if negb (dateComparison =? 0)%Z then (0 <? dateComparison)%Z
      else ExerciseSetHistoryEntry.setNumber b <? ExerciseSetHistoryEntry.setNumber a
  | _, _ => false
  end.

Definition getExerciseSetHistory (appData : AppData.t) (exerciseId : string)
  : list ExerciseSetHistoryEntry.t :=
  let sortedLogs := Js.sort (λ a b, log_gt b a) (AppData.dailyLogs appData) in
  let history := fold_left (stepHistory exerciseId) sortedLogs [] in
  Js.sort history_gt history.

(** [freshId], [inviteCode] and [now] are what [generateUniqueId],
    [generateInviteCode] and [new Date().toISOString()] yield. *)
Definition createGroup (appData : AppData.t) (groupName freshId inviteCode now : string)
  : AppData.t :=
  let trimmedName := Js.trim groupName in
  if Js.is_empty trimmedName then appData
  else
    let newGroup :=
      Group.mk freshId trimmedName (AppData.userId appData) inviteCode
        (deepCopyTemplate (AppData.weeklyTemplate appData)) now in
    with_groups appData (AppData.groups appData ++ [newGroup]).

Definition updateGroupSharedTemplate (appData : AppData.t) (groupId now : string)
  : AppData.t :=
  match findIndex (λ g, String.eqb (Group.id g) groupId
                        && String.eqb (Group.ownerId g) (AppData.userId appData))
                  (AppData.groups appData) with
  | None => appData
  | Some groupIndex =>
      with_groups appData
        (alter (λ g, Group.mk (Group.id g) (Group.name g) (Group.ownerId g)
                       (Group.inviteCode g)
                       (deepCopyTemplate (AppData.weeklyTemplate appData)) now)
               groupIndex (AppData.groups appData))
  end.

Definition removeGroup (appData : AppData.t) (groupId : string) : AppData.t :=
  let newGroups :=
    List.filter (λ g, negb (String.eqb (Group.id g) groupId)) (AppData.groups appData) in
  let newActiveSyncedGroupId :=
    match AppData.activeSyncedGroupId appData with
    | Some active => if String.eqb active groupId then None else Some active
    | None => None
    end in
  AppData.mk (AppData.userId appData) (AppData.exercises appData)
    (AppData.weeklyTemplate appData) (AppData.dailyLogs appData)
    newGroups newActiveSyncedGroupId.

(** *** components/ExerciseSetup.tsx *)

(** What [handleTemplateExerciseChange] does to the exercises of the day:
    with a positive target the exercise of that id is replaced or pushed,
    otherwise it is spliced out; [targetSets] is [None] for [NaN]. *)
Definition changeDayExercises (dayExercises : list WeeklyTemplateExercise.t)
    (exerciseId : string) (targetSets : option Z) (targetReps : option string)
  : list WeeklyTemplateExercise.t :=
  let existingExIndex :=
    findIndex (λ ex, String.eqb (WeeklyTemplateExercise.exerciseId ex) exerciseId)
              dayExercises in
  let existing := existingExIndex ≫= (λ i, dayExercises !! i) in
  let spliced :=
    match existingExIndex with
    | Some i => delete i dayExercises
    | None => dayExercises
    end in
  match targetSets with
  | Some n =>
      if (0 <? n)%Z then
        let originalIndexToPreserve := existing ≫= WeeklyTemplateExercise.originalIndex in
        let updatedExercise :=
          WeeklyTemplateExercise.mk exerciseId n
            (match targetReps with
             | None => existing ≫= WeeklyTemplateExercise.targetReps
             | Some r => Some r
             end)
            originalIndexToPreserve in
        match existingExIndex with
        | Some i => <[i := updatedExercise]> dayExercises
        | None => dayExercises ++ [updatedExercise]
        end
      else spliced
  | None => spliced
  end.

(** The template under edit after [handleTemplateExerciseChange], and the
    data handed to [onDataChange], if it is called. *)
Definition handleTemplateExerciseChange (data : AppData.t)
    (editingTemplate : list WeeklyTemplateDay.t) (dayIndex : nat)
    (exerciseId : string) (targetSets : option Z) (targetReps : option string)
  : list WeeklyTemplateDay.t * option AppData.t :=
  let newTemplate := deepCopyTemplate editingTemplate in
  match findIndex (λ d, WeeklyTemplateDay.dayOfWeek d =? dayIndex) newTemplate with
  | None => (editingTemplate, None)
  | Some dayAt =>
      (alter (λ dayObject,
                WeeklyTemplateDay.mk (WeeklyTemplateDay.dayOfWeek dayObject)
                  (changeDayExercises (WeeklyTemplateDay.exercises dayObject)
                     exerciseId targetSets targetReps))
             dayAt newTemplate,
       if truthy (AppData.activeSyncedGroupId data) then Some (desyncActiveGroup data)
       else None)
  end.

(** The template that [saveTemplate] builds from the template under edit:
    for each weekday the first day of that number, or an empty day. *)
Definition completeTemplate (editingTemplate : list WeeklyTemplateDay.t)
  : list WeeklyTemplateDay.t :=
  imap (λ dayIndex _,
          match find (λ d, WeeklyTemplateDay.dayOfWeek d =? dayIndex) editingTemplate with
          | Some existingDay => existingDay
          | None => WeeklyTemplateDay.mk dayIndex []
          end)
       DAYS_OF_WEEK.

(** What [saveTemplate] hands to [onDataChange]. *)
Definition saveTemplate (data : AppData.t) (editingTemplate : list WeeklyTemplateDay.t)
  : AppData.t :=
  updateWeeklyTemplate data (completeTemplate editingTemplate).

(** *** components/WeeklyLog.tsx *)

Definition MAX_SETS_PER_EXERCISE : nat := 10.

(** [o || ''] *)
Definition orEmpty (o : option string) : string := default "" o.

Definition templateExerciseOf (weeklyTemplate : list WeeklyTemplateDay.t)
    (dayOfWeek : nat) (exerciseId : string) : option WeeklyTemplateExercise.t :=
  templateDay ← find (λ td, WeeklyTemplateDay.dayOfWeek td =? dayOfWeek) weeklyTemplate;
  find (λ te, String.eqb (WeeklyTemplateExercise.exerciseId te) exerciseId)
       (WeeklyTemplateDay.exercises templateDay).

(** [Array.from({ length: numSets }, ...)] has no element when the length
    is negative. *)
Definition initializeSetsForExercise (weeklyTemplate : list WeeklyTemplateDay.t)
    (exerciseId : string) (dayOfWeek : nat) : list ExerciseSet.t :=
  let templateEx := templateExerciseOf weeklyTemplate dayOfWeek exerciseId in
  let numSets :=
    match templateEx with
    | Some te => if (WeeklyTemplateExercise.targetSets te =? 0)%Z then 1%Z
                 else WeeklyTemplateExercise.targetSets te
    | None => 1%Z
    end in
  map (λ i, ExerciseSet.mk (i + 1) ""
              (orEmpty (templateEx ≫= WeeklyTemplateExercise.targetReps)) false)
      (seq 0 (Z.to_nat numSets)).

(** What [addSet] does to the sets of the exercise; [dayOfWeek] is the
    weekday of the log. *)
Definition addSet (weeklyTemplate : list WeeklyTemplateDay.t) (dayOfWeek : nat)
    (exerciseId : string) (currentSets : list ExerciseSet.t) : list ExerciseSet.t :=
  let templateExercise := templateExerciseOf weeklyTemplate dayOfWeek exerciseId in
  if length currentSets <? MAX_SETS_PER_EXERCISE then
    currentSets ++
      [ExerciseSet.mk (length currentSets + 1) ""
         (orEmpty (templateExercise ≫= WeeklyTemplateExercise.targetReps)) false]
  else currentSets.

(** What [removeSet] does to the sets of the exercise: the set at the
    index is spliced out and the others are numbered again. *)
Definition removeSet (sets : list ExerciseSet.t) (setIndex : nat) : list ExerciseSet.t :=
  imap (λ i set, ExerciseSet.mk (i + 1) (ExerciseSet.weight set)
                   (ExerciseSet.reps set) (ExerciseSet.completed set))
       (delete setIndex sets).

(** The log that [saveDayLog] and the autosave store: each exercise with
    the sets worth keeping. *)
Definition cleanedLog (logToSave : DailyLog.t) : DailyLog.t :=
  DailyLog.mk (DailyLog.date logToSave)
    (map (λ ex, LoggedExercise.mk (LoggedExercise.exerciseId ex) (LoggedExercise.name ex)
                  (List.filter keptSet (LoggedExercise.sets ex)) (LoggedExercise.notes ex))
         (DailyLog.exercises logToSave)).

(** What [saveDayLog] hands to [onDataChange]. *)
Definition saveDayLog (data : AppData.t) (logToSave : DailyLog.t) : AppData.t :=
  upsertDailyLog data (cleanedLog logToSave).

(** *** components/MonthlyCalendarView.tsx *)

(** The sets of a logged exercise that count for a template exercise:
    completed and numbered within the target. *)
Definition countedSets (targetSets : Z) (sets : list ExerciseSet.t) : nat :=
  length (List.filter (λ set, ExerciseSet.completed set
                              && (Z.of_nat (ExerciseSet.setNumber set) <=? targetSets)%Z)
                      sets).

(** The body of [templateDay.exercises.forEach]: the planned and the
    completed sets so far. *)
Definition stepStatus (dailyLog : DailyLog.t) (totals : Z * nat)
    (templateExercise : WeeklyTemplateExercise.t) : Z * nat :=
  let '(totalPlannedSets, totalCompletedSets) := totals in
  ((totalPlannedSets + WeeklyTemplateExercise.targetSets templateExercise)%Z,
   match find (λ le, String.eqb (LoggedExercise.exerciseId le)
                                (WeeklyTemplateExercise.exerciseId templateExercise))
              (DailyLog.exercises dailyLog) with
   | Some loggedExercise =>
       totalCompletedSets
       + countedSets (WeeklyTemplateExercise.targetSets templateExercise)
                     (LoggedExercise.sets loggedExercise)
   | None => totalCompletedSets
   end).

(** [isoDate] and [dayOfWeek] are [formatDateISO(date)] and
    [date.getDay()]. *)
Definition getDayStatus (isoDate : string) (dayOfWeek : nat)
    (logs : list DailyLog.t) (template : list WeeklyTemplateDay.t) : DayStatus :=
  match find (λ d, WeeklyTemplateDay.dayOfWeek d =? dayOfWeek) template with
  | None => StatusRest
  | Some templateDay =>
      if length (WeeklyTemplateDay.exercises templateDay) =? 0 then StatusRest
      else
        let notLogged :=
          if existsb (λ te, (0 <? WeeklyTemplateExercise.targetSets te)%Z)
                     (WeeklyTemplateDay.exercises templateDay)
          then StatusEmpty else StatusRest in
        match find (λ log, String.eqb (DailyLog.date log) isoDate) logs with
        | None => notLogged
        | Some dailyLog =>
            if length (DailyLog.exercises dailyLog) =? 0 then notLogged
            else
              let '(totalPlannedSets, totalCompletedSets) :=
                fold_left (stepStatus dailyLog)
                          (WeeklyTemplateDay.exercises templateDay) (0%Z, 0) in
              if (totalPlannedSets =? 0)%Z then StatusRest
              else if totalCompletedSets =? 0 then StatusEmpty
              else if (Z.of_nat totalCompletedSets <? totalPlannedSets)%Z then StatusPartial
              else StatusCompleted
        end
  end.

(** *** components/ProgressChart.tsx *)


(** *** Vocabulary of the statements *)

(** The group that the data is synced to, if any, is one of its groups. *)
Definition syncedGroupExists (data : AppData.t) : Prop :=
  ∀ id, AppData.activeSyncedGroupId data = Some id →
        ∃ g, g ∈ AppData.groups data ∧ Group.id g = id.

(** The document that holds exactly the fields of the data: what
    [JSON.parse] makes of the text that [JSON.stringify] makes of it. *)
Definition toStored (data : AppData.t) : StoredData.t :=
  StoredData.mk
    (Some (AppData.userId data))
    (Some (AppData.exercises data))
    (Some (map (λ d, Some (StoredDay.mk (Some (WeeklyTemplateDay.dayOfWeek d))
                             (Some (WeeklyTemplateDay.exercises d))))
               (AppData.weeklyTemplate data)))
    (Some (AppData.dailyLogs data))
    (Some (AppData.groups data))
    (AppData.activeSyncedGroupId data).

(** The history entries that a log owes to the exercise: the kept sets of
    the first logged exercise of that id, in order. *)
Definition entriesOfLog (exerciseId : string) (log : DailyLog.t)
  : list ExerciseSetHistoryEntry.t :=
  match find (λ ex, String.eqb (LoggedExercise.exerciseId ex) exerciseId)
             (DailyLog.exercises log) with
  | Some loggedExercise =>
      entryOf log <$> filter (λ set, keptSet set = true) (LoggedExercise.sets loggedExercise)
  | None => []
  end.

(** The order of the history: later dates first and, on one date, smaller
    set numbers first; both dates are valid. *)
Definition history_le (a b : ExerciseSetHistoryEntry.t) : Prop :=
  match Date_getTime (ExerciseSetHistoryEntry.date a),
        Date_getTime (ExerciseSetHistoryEntry.date b) with
  | Some ta, Some tb =>
      (tb < ta)%Z ∨
      (ta = tb ∧ ExerciseSetHistoryEntry.setNumber a ≤ ExerciseSetHistoryEntry.setNumber b)
  | _, _ => False
  end.

(** The sets are numbered 1, 2, 3, ... in order. *)
Definition numberedSets (sets : list ExerciseSet.t) : Prop :=
  ExerciseSet.setNumber <$> sets = seq 1 (length sets).

(** The sets planned for a weekday: the targets of the first day of the
    template with that number, none when there is no such day. *)
Definition sumTargets (exercises : list WeeklyTemplateExercise.t) : Z :=
  foldr (λ te total, (WeeklyTemplateExercise.targetSets te + total)%Z) 0%Z exercises.

Definition plannedSets (dayOfWeek : nat) (template : list WeeklyTemplateDay.t) : Z :=
  match find (λ d, WeeklyTemplateDay.dayOfWeek d =? dayOfWeek) template with
  | Some templateDay => sumTargets (WeeklyTemplateDay.exercises templateDay)
  | None => 0%Z
  end.

(** No target of the first day of the template with that number is
    negative. *)
Definition naturalTargets (dayOfWeek : nat) (template : list WeeklyTemplateDay.t)
  : Prop :=
  ∀ templateDay te,
    find (λ d, WeeklyTemplateDay.dayOfWeek d =? dayOfWeek) template = Some templateDay →
    te ∈ WeeklyTemplateDay.exercises templateDay →
    (0 ≤ WeeklyTemplateExercise.targetSets te)%Z.

(** Set [k] of the template exercise is logged as completed: the first
    logged exercise of its id has a completed set of that number. *)
Definition setDone (log : DailyLog.t) (te : WeeklyTemplateExercise.t) (k : nat) : Prop :=
  ∃ le set,
    find (λ le, String.eqb (LoggedExercise.exerciseId le)
                           (WeeklyTemplateExercise.exerciseId te))
         (DailyLog.exercises log) = Some le ∧
    set ∈ LoggedExercise.sets le ∧
    ExerciseSet.completed set = true ∧ ExerciseSet.setNumber set = k.

(** In every day of the template the exercises have distinct ids. *)
Definition distinctExercises (template : list WeeklyTemplateDay.t) : Prop :=
  ∀ day, day ∈ template →
         NoDup (WeeklyTemplateExercise.exerciseId <$> WeeklyTemplateDay.exercises day).

(** The sets that the log counts for a template exercise. *)
Definition countedFor (log : DailyLog.t) (te : WeeklyTemplateExercise.t) : nat :=
  match find (λ le, String.eqb (LoggedExercise.exerciseId le)
                               (WeeklyTemplateExercise.exerciseId te))
             (DailyLog.exercises log) with
  | Some le => countedSets (WeeklyTemplateExercise.targetSets te) (LoggedExercise.sets le)
  | None => 0
  end.

(** In every logged exercise the set numbers are distinct and start at 1. *)
Definition distinctSetNumbers (log : DailyLog.t) : Prop :=
  ∀ le, le ∈ DailyLog.exercises log →
        NoDup (ExerciseSet.setNumber <$> LoggedExercise.sets le) ∧
        ∀ set, set ∈ LoggedExercise.sets le → 1 ≤ ExerciseSet.setNumber set.

(** No two groups share an id. *)
Definition uniqueGroupIds (data : AppData.t) : Prop :=
  NoDup (Group.id <$> AppData.groups data).

(** Both dates are valid and the first is not after the second. *)
Definition time_le (a b : string) : Prop :=
  match Date_getTime a, Date_getTime b with
  | Some ta, Some tb => (ta ≤ tb)%Z
  | _, _ => False
  end.

Definition valid_date (s : string) : Prop := is_Some (Date_getTime s).


(** What ECMAScript asks of a comparator for [sort] to be defined: here,
    that the collation is a total preorder. *)
Definition consistent_collation : Prop :=
  (∀ a b, (localeCompare a b ≤ 0)%Z ∨ (localeCompare b a ≤ 0)%Z) ∧
  (∀ a b c, (localeCompare a b ≤ 0)%Z → (localeCompare b c ≤ 0)%Z →
            (localeCompare a c ≤ 0)%Z).

Definition lowerName (e : Exercise.t) : string := Js.toLowerCase (Exercise.name e).

(** Both dates are valid and the first is strictly after the second. *)
Definition strictly_later (a b : string) : Prop :=
  match Date_getTime a, Date_getTime b with
  | Some ta, Some tb => (tb < ta)%Z
  | _, _ => False
  end.

(** A required field of the imported object is absent or empty. *)
Definition missingField (p : ImportedGroup.t) : Prop :=
  truthy (ImportedGroup.id p) = false ∨
  truthy (ImportedGroup.name p) = false ∨
  truthy (ImportedGroup.ownerId p) = false ∨
  truthy (ImportedGroup.inviteCode p) = false ∨
  ImportedGroup.sharedTemplate p = None ∨
  truthy (ImportedGroup.lastUpdated p) = false.

(** The imported object has exactly the fields of the group [g]. *)
Definition carries (p : ImportedGroup.t) (g : Group.t) : Prop :=
  p = ImportedGroup.mk (Some (Group.id g)) (Some (Group.name g))
        (Some (Group.ownerId g)) (Some (Group.inviteCode g))
        (Some (Group.sharedTemplate g)) (Some (Group.lastUpdated g)).

(** The import was refused: an error message and the data as it was. *)
Definition refused (appData : AppData.t) (r : ImportResult.t) : Prop :=
  is_Some (ImportResult.error r) ∧ ImportResult.newData r = appData.

(** The import was accepted: no error, and the data differs from the
    input in its list of groups only, which is now [gs]. *)
Definition accepted (appData : AppData.t) (gs : list Group.t) (r : ImportResult.t)
  : Prop :=
  ImportResult.error r = None ∧
  ImportResult.newData r
  = AppData.mk (AppData.userId appData) (AppData.exercises appData)
      (AppData.weeklyTemplate appData) (AppData.dailyLogs appData) gs
      (AppData.activeSyncedGroupId appData).

(** The document [doc] is what [loadData] reads when the storage holds
    [dataStr]: the empty document when nothing (or the empty text) is
    stored, the parsed text otherwise. *)
Definition stores (dataStr : option string) (doc : StoredData.t) : Prop :=
  if truthy dataStr then JSON_parse_data (default "" dataStr) = Some doc
  else doc = StoredData.empty.

(** The [dayOfWeek] stored in slot [i] of a stored template of 7 slots. *)
Definition storedDayOfWeek (doc : StoredData.t) (i : nat) : option nat :=
  tpl ← StoredData.weeklyTemplate doc;
  if decide (length tpl = 7) then
    slot ← tpl !! i; day ← slot; StoredDay.dayOfWeek day
  else None.

(** [e] is the Epley estimate of a set that counts: its weight parses to
    a number greater than 0 and its trimmed repetitions are digits that
    [parseInt] reads as a number greater than 0; the estimate is the
    weight itself for one repetition and otherwise weight x (1 + reps / 30),
    every operation rounded to a double. *)
Definition estimateOf (set : ExerciseSet.t) (e : Double.t) : Prop :=
  let weight := parseFloat (ExerciseSet.weight set) in
  let reps := Double.of_N (Js.parseInt (Js.trim (ExerciseSet.reps set))) in
  Double.ltb Double.zero weight = true ∧
  Js.is_digits (Js.trim (ExerciseSet.reps set)) = true ∧
  Double.ltb Double.zero reps = true ∧
  e = if Double.eqb reps (Double.of_Z 1) then weight
      else Double.mul weight
             (Double.add (Double.of_Z 1) (Double.div reps (Double.of_Z 30))).

(** [m] is the largest estimate of the sets: the estimate of one of them,
    and none has a greater one. *)
Definition maxEstimate (sets : list ExerciseSet.t) (m : Double.t) : Prop :=
  (∃ set, set ∈ sets ∧ estimateOf set m) ∧
  (∀ set e, set ∈ sets → estimateOf set e → Double.ltb m e = false).

(** [v] is the positive double [x] rounded to two decimal places: the
    double nearest to [n / 100], where [n] is the whole number nearest to
    [100 x], the larger one on a tie.  Below [2^53] that double is the
    quotient of the doubles [n] and 100; from there on, and for
    [Infinity], it is [x] itself. *)
Definition roundedTo2 (x v : Double.t) : Prop :=
  match x with
  | S754_finite false _ _ =>
      ∃ n : Z,
        (inject_Z n - (1 # 2) <= 100 * Double.to_Q x)%Q ∧
        (100 * Double.to_Q x < inject_Z n + (1 # 2))%Q ∧
        v = if (n <? 2 ^ 53)%Z
            then Double.div (Double.of_Z n) (Double.of_Z 100) else x
  | _ => v = x
  end.

(** The data points owed to one logged exercise of one log: none when no
    set has an estimate greater than 0 (so when no set counts), otherwise
    one, of the largest estimate rounded to two decimal places. *)
Definition pointsOf (entry : DailyLog.t * LoggedExercise.t)
    (pts : list OneRepMaxDataPoint.t) : Prop :=
  ((∀ set e, set ∈ LoggedExercise.sets entry.2 → estimateOf set e →
             Double.ltb Double.zero e = false) ∧
   pts = []) ∨
  (∃ m v, maxEstimate (LoggedExercise.sets entry.2) m ∧
          Double.ltb Double.zero m = true ∧ roundedTo2 m v ∧
          pts = [OneRepMaxDataPoint.mk (DailyLog.date entry.1)
                   (LoggedExercise.name entry.2) v]).

(** Every logged exercise with the log it belongs to, in order. *)
Definition loggedEntries (data : AppData.t) : list (DailyLog.t * LoggedExercise.t) :=
  log ← AppData.dailyLogs data; pair log <$> DailyLog.exercises log.

(** *** Facts about the host operations *)

Lemma findIndex_Some {A : Type} (p : A → bool) (l : list A) (i : nat) :
  findIndex p l = Some i →
  ∃ x, l !! i = Some x ∧ p x = true ∧
       ∀ j y, j < i → l !! j = Some y → p y = false.
Proof.
  revert i. induction l as [|a l IH]; intros i H; simpl in H; [discriminate|].
  destruct (p a) eqn:Hp.
  - inversion H; subst. exists a. split; [reflexivity|]. split; [assumption|].
    intros j y Hj. lia.
  - destruct (findIndex p l) as [k|] eqn:Hk; simpl in H; [|discriminate].
    inversion H; subst. destruct (IH k eq_refl) as (x & Hx & Hpx & Hbefore).
    exists x. split; [exact Hx|]. split; [exact Hpx|].
    intros [|j] y Hj Hy; simpl in Hy.
    + inversion Hy; subst. exact Hp.
    + apply (Hbefore j); [lia | exact Hy].
Qed.

Lemma findIndex_None {A : Type} (p : A → bool) (l : list A) :
  findIndex p l = None → Forall (λ x, p x = false) l.
Proof.
  induction l as [|a l IH]; intros H; simpl in H; [constructor|].
  destruct (p a) eqn:Hp; [discriminate|].
  destruct (findIndex p l); simpl in H; [discriminate|].
  constructor; [exact Hp | apply IH; reflexivity].
Qed.

Lemma findIndex_is_Some {A : Type} (p : A → bool) (l : list A) (x : A) :
  x ∈ l → p x = true → is_Some (findIndex p l).
Proof.
  intros Hin Hp. destruct (findIndex p l) eqn:E; [eauto|].
  apply findIndex_None in E. rewrite Forall_forall in E.
  rewrite (E x Hin) in Hp. discriminate.
Qed.

Lemma find_first {A : Type} (p : A → bool) (l : list A) (i : nat) (x : A) :
  l !! i = Some x → p x = true →
  (∀ j y, j < i → l !! j = Some y → p y = false) →
  find p l = Some x.
Proof.
  revert i. induction l as [|a l IH]; intros i Hi Hp Hfirst; [discriminate|].
  destruct i as [|i]; simpl in Hi.
  - inversion Hi; subst. simpl. by rewrite Hp.
  - simpl. rewrite (Hfirst 0 a) by (simpl; (lia || reflexivity)).
    apply (IH i Hi Hp). intros j y Hj Hy. apply (Hfirst (S j) y); [lia | exact Hy].
Qed.

Lemma find_none {A : Type} (p : A → bool) (l : list A) :
  (∀ x, x ∈ l → p x = false) → find p l = None.
Proof.
  induction l as [|a l IH]; intros H; [reflexivity|]. simpl.
  rewrite (H a) by left. apply IH. intros x Hx. apply H. by right.
Qed.

Section SortFacts.
Context {A : Type} (gt : A → A → bool).

Lemma sort_insert_Permutation (x : A) (l : list A) :
  Js.sort_insert gt x l ≡ₚ x :: l.
Proof.
  induction l as [|y l IH]; simpl; [reflexivity|].
  destruct (gt x y); [|reflexivity].
  rewrite IH. apply Permutation_swap.
Qed.

Lemma sort_Permutation (l : list A) : Js.sort gt l ≡ₚ l.
Proof.
  induction l as [|x l IH]; simpl; [reflexivity|].
  rewrite sort_insert_Permutation. by rewrite IH.
Qed.

(** On elements that satisfy [P], the comparator decides the order [R]
    and [R] is transitive. *)
Context (P : A → Prop) (R : A → A → Prop).
Context (decides : ∀ a b, P a → P b → if gt a b then R b a else R a b).
Context (transitive : ∀ a b c, P a → P b → P c → R a b → R b c → R a c).

Lemma sort_insert_StronglySorted (x : A) (l : list A) :
  P x → Forall P l → StronglySorted R l →
  StronglySorted R (Js.sort_insert gt x l).
Proof using decides transitive.
  intros Hx Hl Hs. induction l as [|y l IH]; simpl.
  - repeat constructor.
  - inversion Hl as [|? ? Hy Hl']; subst.
    inversion Hs as [|? ? Hs' Hall]; subst.
    pose proof (decides x y Hx Hy) as Hd.
    destruct (gt x y).
    + constructor; [by apply IH|].
      rewrite sort_insert_Permutation. by constructor.
    + constructor; [assumption|]. constructor; [assumption|].
      rewrite Forall_forall in Hall, Hl'. rewrite Forall_forall.
      intros z Hz. apply (transitive x y z); auto.
Qed.

Lemma sort_StronglySorted (l : list A) :
  Forall P l → StronglySorted R (Js.sort gt l).
Proof using decides transitive.
  induction l as [|x l IH]; intros Hl; simpl; [constructor|].
  inversion Hl; subst. apply sort_insert_StronglySorted; auto.
  by rewrite sort_Permutation.
Qed.
End SortFacts.

(** *** The daily logs *)

Lemma date_gt_decides (a b : string) :
  valid_date a → valid_date b →
  if date_gt a b then time_le b a else time_le a b.
Proof.
  intros [ta Ha] [tb Hb]. unfold date_gt, time_le. rewrite Ha, Hb.
  destruct (0 <? ta - tb)%Z eqn:E; [apply Z.ltb_lt in E | apply Z.ltb_ge in E]; lia.
Qed.

Lemma time_le_trans (a b c : string) : time_le a b → time_le b c → time_le a c.
Proof.
  unfold time_le.
  destruct (Date_getTime a), (Date_getTime b), (Date_getTime c);
    intros Hab Hbc; try contradiction; lia.
Qed.

(** Replacing the first log of the date, or appending when there is none,
    leaves the given log and the logs of the other dates. *)
Lemma upsert_Permutation (log : DailyLog.t) (logs : list DailyLog.t) :
  NoDup (DailyLog.date <$> logs) →
  match findIndex (λ dlog, String.eqb (DailyLog.date dlog) (DailyLog.date log)) logs with
  | Some i => <[i := log]> logs
  | None => logs ++ [log]
  end ≡ₚ log :: filter (λ l, DailyLog.date l ≠ DailyLog.date log) logs.
Proof.
  induction logs as [|a logs IH]; intros Hnd; simpl; [reflexivity|].
  rewrite fmap_cons in Hnd. apply NoDup_cons in Hnd as [Hnotin Hnd].
  destruct (String.eqb (DailyLog.date a) (DailyLog.date log)) eqn:E.
  - apply String.eqb_eq in E. simpl.
    rewrite filter_cons_False by (intros Hne; apply Hne; exact E).
    f_equiv. rewrite E in Hnotin. clear IH Hnd.
    induction logs as [|b logs IHl]; [reflexivity|].
    rewrite fmap_cons in Hnotin. apply not_elem_of_cons in Hnotin as [Hb Hrest].
    rewrite filter_cons_True by congruence.
    f_equiv. by apply IHl.
  - apply String.eqb_neq in E.
    rewrite filter_cons_True by exact E.
    specialize (IH Hnd).
    destruct (findIndex _ logs) as [i|]; simpl.
    + rewrite IH. apply Permutation_swap.
    + rewrite IH. apply Permutation_swap.
Qed.

(** C9, amended. When the logs hold at most one log per date,
    [upsertDailyLog] keeps that, makes the given log the only log of its
    date (the former log of that date is gone, the logs of the other dates
    stay), returns the logs in ascending order of date when the dates of
    the given log and of the stored logs are valid dates, and leaves the
    other fields of the data alone. *)
Theorem upsertDailyLog_spec (data : AppData.t) (log : DailyLog.t) :
  NoDup (DailyLog.date <$> AppData.dailyLogs data) →
  let data' := upsertDailyLog data log in
  NoDup (DailyLog.date <$> AppData.dailyLogs data') ∧
  log ∈ AppData.dailyLogs data' ∧
  (∀ l, l ∈ AppData.dailyLogs data' → DailyLog.date l = DailyLog.date log → l = log) ∧
  AppData.dailyLogs data' ≡ₚ
    log :: filter (λ l, DailyLog.date l ≠ DailyLog.date log) (AppData.dailyLogs data) ∧
  (Forall (λ l, valid_date (DailyLog.date l)) (log :: AppData.dailyLogs data) →
   StronglySorted (λ a b, time_le (DailyLog.date a) (DailyLog.date b))
                  (AppData.dailyLogs data')) ∧
  AppData.userId data' = AppData.userId data ∧
  AppData.exercises data' = AppData.exercises data ∧
  AppData.weeklyTemplate data' = AppData.weeklyTemplate data ∧
  AppData.groups data' = AppData.groups data ∧
  AppData.activeSyncedGroupId data' = AppData.activeSyncedGroupId data.
Proof.
  intros Hnd data'.
  pose proof (upsert_Permutation log _ Hnd) as Hperm.
  assert (Hres : AppData.dailyLogs data' ≡ₚ
            log :: filter (λ l, DailyLog.date l ≠ DailyLog.date log)
                          (AppData.dailyLogs data)).
  { unfold data', upsertDailyLog; simpl. rewrite sort_Permutation. exact Hperm. }
  assert (Hdates : NoDup (DailyLog.date <$>
            log :: filter (λ l, DailyLog.date l ≠ DailyLog.date log)
                          (AppData.dailyLogs data))).
  { rewrite fmap_cons. apply NoDup_cons. split.
    - intros Hin. apply list_elem_of_fmap in Hin as (l & Heq & Hl).
      apply list_elem_of_filter in Hl as [Hne _]. congruence.
    - eapply sublist_NoDup; [exact Hnd|].
      apply fmap_sublist, sublist_filter. }
  repeat split; try reflexivity.
  - by rewrite Hres.
  - rewrite Hres. left.
  - intros l Hl Hdate. rewrite Hres in Hl.
    apply elem_of_cons in Hl as [->|Hl]; [reflexivity|].
    apply list_elem_of_filter in Hl as [Hne _]. contradiction.
  - exact Hres.
  - intros Hvalid. unfold data', upsertDailyLog; simpl.
    apply (sort_StronglySorted log_gt (λ l, valid_date (DailyLog.date l))).
    + intros a b Ha Hb. unfold log_gt. by apply date_gt_decides.
    + intros a b c _ _ _. apply time_le_trans.
    + rewrite Hperm. inversion Hvalid as [|? ? Hlog Hlogs]; subst.
      constructor; [assumption|].
      rewrite Forall_forall in Hlogs. rewrite Forall_forall. intros l Hl.
      apply list_elem_of_filter in Hl as [_ Hl]. auto.
Qed.

(** *** The template and the groups *)

Lemma deepCopyTemplate_id (tpl : list WeeklyTemplateDay.t) : deepCopyTemplate tpl = tpl.
Proof.
  unfold deepCopyTemplate. induction tpl as [|[d es] tpl IH]; simpl; [reflexivity|].
  rewrite IH. f_equal. unfold deepCopyDay; simpl. f_equal.
  induction es as [|[] es IHes]; simpl; [reflexivity|]. by rewrite IHes.
Qed.

(** C2, amended. For every data, [updateWeeklyTemplate] installs the
    given 7-day template and clears [activeSyncedGroupId], keeping the
    other fields; for every data whose [activeSyncedGroupId] is not the
    empty string, [desyncActiveGroup] clears it and keeps every other
    field. *)
Theorem desync_on_edit (data : AppData.t) (newTemplate : list WeeklyTemplateDay.t) :
  length newTemplate = 7 →
  updateWeeklyTemplate data newTemplate =
    AppData.mk (AppData.userId data) (AppData.exercises data) newTemplate
      (AppData.dailyLogs data) (AppData.groups data) None ∧
  (AppData.activeSyncedGroupId data ≠ Some "" →
   desyncActiveGroup data =
     AppData.mk (AppData.userId data) (AppData.exercises data)
       (AppData.weeklyTemplate data) (AppData.dailyLogs data)
       (AppData.groups data) None).
Proof.
  intros _. split; [reflexivity|]. intros Hne.
  unfold desyncActiveGroup.
  destruct data as [u es tpl logs gs [[|c s]|]]; simpl in Hne |- *.
  - congruence.
  - reflexivity.
  - reflexivity.
Qed.

(** C7. When a group has the given id, [applyGroupTemplateToUser] takes
    the first such group, makes its shared template the weekly template
    and its id the active synced group, and keeps [userId], [exercises],
    [dailyLogs] and [groups]; when no group has the id, the data comes
    back as it was. *)
Theorem applyGroupTemplateToUser_spec (appData : AppData.t) (groupId : string) :
  (∀ i group,
      AppData.groups appData !! i = Some group →
      Group.id group = groupId →
      (∀ j g, j < i → AppData.groups appData !! j = Some g → Group.id g ≠ groupId) →
      applyGroupTemplateToUser appData groupId =
        AppData.mk (AppData.userId appData) (AppData.exercises appData)
          (Group.sharedTemplate group)
          (AppData.dailyLogs appData) (AppData.groups appData)
          (Some groupId)) ∧
  ((∀ g, g ∈ AppData.groups appData → Group.id g ≠ groupId) →
   applyGroupTemplateToUser appData groupId = appData).
Proof.
  unfold applyGroupTemplateToUser. split.
  - intros i group Hi Hid Hfirst.
    rewrite (find_first _ _ i group Hi).
    + rewrite deepCopyTemplate_id, Hid. reflexivity.
    + by apply String.eqb_eq.
    + intros j g Hj Hg. apply String.eqb_neq. by apply (Hfirst j).
  - intros Hnone. rewrite find_none; [reflexivity|].
    intros g Hg. apply String.eqb_neq. by apply Hnone.
Qed.

Ltac one_holds := first [reflexivity | left; reflexivity | right; one_holds].

Lemma validateImported_None (p : ImportedGroup.t) :
  missingField p → validateImported p = None.
Proof.
  unfold missingField, validateImported, truthy.
  destruct p as [[i|] [n|] [o|] [c|] [t|] [u|]]; simpl; try reflexivity;
    intros H; destruct (Js.is_empty i), (Js.is_empty n), (Js.is_empty o),
                       (Js.is_empty c), (Js.is_empty u); simpl in H |- *;
    try reflexivity; exfalso;
    destruct H as [H|[H|[H|[H|[H|H]]]]]; discriminate.
Qed.

Lemma validateImported_Some (p : ImportedGroup.t) (g : Group.t) :
  carries p g → ¬ missingField p → validateImported p = Some g.
Proof.
  unfold carries, missingField, validateImported, truthy. intros -> H.
  destruct g as [i n o c t u]; simpl in H |- *.
  destruct (Js.is_empty i), (Js.is_empty n), (Js.is_empty o),
           (Js.is_empty c), (Js.is_empty u); simpl in H |- *;
    try reflexivity; exfalso; apply H; one_holds.
Qed.

Lemma validateImported_inv (p : ImportedGroup.t) :
  match validateImported p with
  | Some g => carries p g ∧ ¬ missingField p
  | None => missingField p
  end.
Proof.
  unfold carries, missingField, validateImported, truthy.
  destruct p as [[i|] [n|] [o|] [c|] [t|] [u|]]; simpl; try one_holds.
  destruct (Js.is_empty i), (Js.is_empty n), (Js.is_empty o),
           (Js.is_empty c), (Js.is_empty u); simpl; try one_holds.
  split; [reflexivity|]. intros H.
  destruct H as [H|[H|[H|[H|[H|H]]]]]; discriminate.
Qed.

Lemma date_later_iff (a b : string) : date_later a b = true ↔ strictly_later a b.
Proof.
  unfold date_later, strictly_later.
  destruct (Date_getTime a), (Date_getTime b);
    try (split; [discriminate | contradiction]).
  apply Z.ltb_lt.
Qed.

(** C8. [addGroupFromImport] either refuses the import (error message,
    data unchanged) or accepts it (no error, only the list of groups
    changes, by one group appended or one group replaced).  It refuses
    when the text does not parse, when a required field is missing, and
    when a group of the same id is present unless the imported group is
    strictly newer and the local one is not owned by the user; in the last
    case the local group is replaced; with no group of the same id the
    imported group is appended. *)
Theorem addGroupFromImport_spec (appData : AppData.t) (groupJSON : string) :
  let r := addGroupFromImport appData groupJSON in
  let groups := AppData.groups appData in
  (refused appData r ∨
   ∃ g, accepted appData (groups ++ [g]) r ∨
        ∃ i, i < length groups ∧ accepted appData (<[i := g]> groups) r) ∧
  (JSON_parse_group groupJSON = None → refused appData r) ∧
  (∀ p, JSON_parse_group groupJSON = Some p → missingField p → refused appData r) ∧
  (∀ p g, JSON_parse_group groupJSON = Some p → carries p g → ¬ missingField p →
     ((∀ old, old ∈ groups → Group.id old ≠ Group.id g) →
      accepted appData (groups ++ [g]) r) ∧
     (∀ i old,
        groups !! i = Some old → Group.id old = Group.id g →
        (∀ j o, j < i → groups !! j = Some o → Group.id o ≠ Group.id g) →
        (strictly_later (Group.lastUpdated g) (Group.lastUpdated old) ∧
         Group.ownerId old ≠ AppData.userId appData →
         accepted appData (<[i := g]> groups) r) ∧
        (¬ (strictly_later (Group.lastUpdated g) (Group.lastUpdated old) ∧
            Group.ownerId old ≠ AppData.userId appData) →
         refused appData r))).
Proof.
  intros r groups.
  assert (Hparse_none : JSON_parse_group groupJSON = None → refused appData r).
  { intros H. unfold r, addGroupFromImport. rewrite H. split; simpl; eauto. }
  assert (Hmissing : ∀ p, JSON_parse_group groupJSON = Some p → missingField p →
                          refused appData r).
  { intros p H Hm. unfold r, addGroupFromImport.
    rewrite H, (validateImported_None p Hm). split; simpl; eauto. }
  assert (Hvalid : ∀ p g, JSON_parse_group groupJSON = Some p → carries p g →
     ¬ missingField p →
     ((∀ old, old ∈ groups → Group.id old ≠ Group.id g) →
      accepted appData (groups ++ [g]) r) ∧
     (∀ i old,
        groups !! i = Some old → Group.id old = Group.id g →
        (∀ j o, j < i → groups !! j = Some o → Group.id o ≠ Group.id g) →
        (strictly_later (Group.lastUpdated g) (Group.lastUpdated old) ∧
         Group.ownerId old ≠ AppData.userId appData →
         accepted appData (<[i := g]> groups) r) ∧
        (¬ (strictly_later (Group.lastUpdated g) (Group.lastUpdated old) ∧
            Group.ownerId old ≠ AppData.userId appData) →
         refused appData r))).
  { intros p g H Hc Hm. unfold r, addGroupFromImport.
    rewrite H, (validateImported_Some p g Hc Hm). fold groups. split.
    - intros Hnone.
      assert (E : existsb (λ g0, String.eqb (Group.id g0) (Group.id g)) groups = false).
      { apply not_true_is_false. intros Hex. apply existsb_exists in Hex as (x & Hx & Heq).
        apply String.eqb_eq in Heq. apply (Hnone x); [by apply list_elem_of_In | exact Heq]. }
      rewrite E. split; reflexivity.
    - intros i old Hi Hid Hfirst.
      assert (E : existsb (λ g0, String.eqb (Group.id g0) (Group.id g)) groups = true).
      { apply existsb_exists. exists old. split.
        - apply list_elem_of_In. by eapply list_elem_of_lookup_2.
        - by apply String.eqb_eq. }
      rewrite E.
      assert (Hidx : findIndex (λ g0, String.eqb (Group.id g0) (Group.id g)) groups = Some i).
      { destruct (findIndex_is_Some (λ g0, String.eqb (Group.id g0) (Group.id g)) groups old)
          as [k Hk].
        - by eapply list_elem_of_lookup_2.
        - by apply String.eqb_eq.
        - rewrite Hk. f_equal.
          destruct (findIndex_Some _ _ _ Hk) as (x & Hx & Hpx & Hbefore).
          apply String.eqb_eq in Hpx.
          destruct (Nat.lt_trichotomy k i) as [Hlt|[Heq|Hgt]]; [|exact Heq|].
          + exfalso. by apply (Hfirst k x).
          + exfalso. specialize (Hbefore i old Hgt Hi).
            apply String.eqb_neq in Hbefore. contradiction. }
      rewrite Hidx, Hi.
      destruct (date_later (Group.lastUpdated g) (Group.lastUpdated old)) eqn:Hlater;
        destruct (String.eqb (Group.ownerId old) (AppData.userId appData)) eqn:Hown;
        simpl; split; intros Hcond.
      all: try (split; simpl; eauto; fail).
      all: try (exfalso; destruct Hcond as [Hl Ho];
                first [ apply String.eqb_eq in Hown; contradiction
                      | apply date_later_iff in Hl; congruence ]).
      exfalso. apply Hcond. split; [by apply date_later_iff | by apply String.eqb_neq]. }
  split; [|split; [exact Hparse_none | split; [exact Hmissing | exact Hvalid]]].
  destruct (JSON_parse_group groupJSON) as [p|] eqn:Hp; [|left; by apply Hparse_none].
  pose proof (validateImported_inv p) as Hinv.
  destruct (validateImported p) as [g|] eqn:Hv; [|left; by apply (Hmissing p)].
  destruct Hinv as [Hc Hm].
  destruct (Hvalid p g eq_refl Hc Hm) as [Happ Hrep].
  destruct (findIndex (λ g0, String.eqb (Group.id g0) (Group.id g)) groups) as [i|] eqn:Hidx.
  - destruct (findIndex_Some _ _ _ Hidx) as (old & Hold & Hpo & Hbefore).
    apply String.eqb_eq in Hpo.
    assert (Hfirst : ∀ j o, j < i → groups !! j = Some o → Group.id o ≠ Group.id g).
    { intros j o Hj Ho. apply String.eqb_neq. by apply (Hbefore j). }
    destruct (Hrep i old Hold Hpo Hfirst) as [Hyes Hno].
    destruct (date_later (Group.lastUpdated g) (Group.lastUpdated old)) eqn:Hlater;
      destruct (String.eqb (Group.ownerId old) (AppData.userId appData)) eqn:Hown.
    + left. apply Hno. intros [_ Ho]. apply String.eqb_eq in Hown. contradiction.
    + right. exists g. right. exists i. split; [by eapply lookup_lt_Some|].
      apply Hyes. split; [by apply date_later_iff | by apply String.eqb_neq].
    + left. apply Hno. intros [Hl _]. apply date_later_iff in Hl. congruence.
    + left. apply Hno. intros [Hl _]. apply date_later_iff in Hl. congruence.
  - right. exists g. left. apply Happ. intros old Hold.
    apply findIndex_None in Hidx. rewrite Forall_forall in Hidx.
    apply String.eqb_neq. by apply Hidx.
Qed.

(** *** The document *)

(** C4, amended. Whatever document is stored, [loadData] returns data
    whose weekly template has exactly 7 entries; entry [i] carries the
    [dayOfWeek] stored in slot [i] when the stored template has 7 slots
    and the slot has one, and [i] otherwise; the exercises (sorted), the
    daily logs and the groups are the stored ones, or empty when absent. *)
Theorem loadData_shape (dataStr : option string) (freshId : string)
    (doc : StoredData.t) :
  stores dataStr doc →
  ∃ app,
    loadData dataStr freshId = Some app ∧
    length (AppData.weeklyTemplate app) = 7 ∧
    (∀ i, i < 7 →
       WeeklyTemplateDay.dayOfWeek <$> AppData.weeklyTemplate app !! i
       = Some (default i (storedDayOfWeek doc i))) ∧
    (StoredData.weeklyTemplate doc = None →
     WeeklyTemplateDay.dayOfWeek <$> AppData.weeklyTemplate app = seq 0 7) ∧
    AppData.exercises app
      = default [] (Js.sort exercise_gt <$> StoredData.exercises doc) ∧
    AppData.dailyLogs app = default [] (StoredData.dailyLogs doc) ∧
    AppData.groups app = default [] (StoredData.groups doc).
Proof.
  intros Hst. unfold loadData.
  assert (Hdoc : (if truthy dataStr then JSON_parse_data (default "" dataStr)
                  else Some StoredData.empty) = Some doc).
  { unfold stores in Hst. destruct (truthy dataStr); congruence. }
  rewrite Hdoc. simpl. eexists. split; [reflexivity|]. simpl.
  destruct (StoredData.weeklyTemplate doc) as [tpl|] eqn:Htpl.
  - destruct (Nat.eqb (length tpl) 7) eqn:Hlen; simpl.
    + apply Nat.eqb_eq in Hlen. rewrite length_imap.
      split; [exact Hlen|]. split; [|split; [discriminate | auto]].
      intros i Hi. unfold storedDayOfWeek. rewrite Htpl.
      cbn [mbind option_bind]. rewrite decide_True by exact Hlen.
      rewrite list_lookup_imap.
      destruct (tpl !! i) as [slot|] eqn:Hslot.
      * by destruct slot as [[[d|] es]|].
      * apply lookup_ge_None in Hslot. lia.
    + apply Nat.eqb_neq in Hlen.
      split; [reflexivity|]. split; [|split; [discriminate | auto]].
      intros i Hi. unfold storedDayOfWeek. rewrite Htpl.
      cbn [mbind option_bind]. rewrite decide_False by exact Hlen.
      do 7 (destruct i as [|i]; [reflexivity|]). lia.
  - split; [reflexivity|]. split; [|split; [reflexivity | auto]].
    intros i Hi. unfold storedDayOfWeek. rewrite Htpl.
    do 7 (destruct i as [|i]; [reflexivity|]). lia.
Qed.

(** *** The exercises *)



Lemma find_unique {A : Type} (key : A → string) (v : string) (l : list A) (x : A) :
  NoDup (key <$> l) → x ∈ l → key x = v →
  find (λ y, String.eqb (key y) v) l = Some x.
Proof.
  induction l as [|a l IH]; intros Hnd Hin Hk; [by apply elem_of_nil in Hin|].
  rewrite fmap_cons in Hnd. apply NoDup_cons in Hnd as [Hnotin Hnd]. simpl.
  apply elem_of_cons in Hin as [->|Hin].
  - apply String.eqb_eq in Hk. by rewrite Hk.
  - destruct (String.eqb (key a) v) eqn:E; [|by apply IH].
    apply String.eqb_eq in E. exfalso. apply Hnotin.
    apply list_elem_of_fmap. exists x. split; [congruence | exact Hin].
Qed.


(** *** The progress series *)


(** The order of the doubles. *)
Lemma compare_cont_Eq (m1 m2 : positive) :
  PosDef.Pos.compare_cont Eq m1 m2 = (m1 ?= m2)%positive.
Proof. reflexivity. Qed.

Ltac order_cases :=
  repeat match goal with
         | s : bool |- _ => destruct s
         end;
  simpl in *; rewrite ?compare_cont_Eq in *;
  try discriminate; try reflexivity;
  repeat match goal with
         | H : context [(?a ?= ?b)%Z] |- _ =>
             let E := fresh "E" in destruct (Z.compare_spec a b) as [E|E|E]
         | |- context [(?a ?= ?b)%Z] =>
             let E := fresh "E" in destruct (Z.compare_spec a b) as [E|E|E]
         | H : context [(?a ?= ?b)%positive] |- _ =>
             let E := fresh "E" in destruct (Pos.compare_spec a b) as [E|E|E]
         | |- context [(?a ?= ?b)%positive] =>
             let E := fresh "E" in destruct (Pos.compare_spec a b) as [E|E|E]
         end;
  simpl in *; try discriminate; try reflexivity; try lia.

Lemma ltb_trans (a b c : Double.t) :
  Double.ltb a b = true → Double.ltb b c = true → Double.ltb a c = true.
Proof.
  unfold Double.ltb, SFltb, SFcompare.
  destruct a as [sa|sa| |sa ma ea], b as [sb|sb| |sb mb eb], c as [sc|sc| |sc mc ec];
    intros Hab Hbc; order_cases.
Qed.

(** [a < b] and not [c < b], for a number [c]: then [a < c]. *)
Lemma ltb_not_ltb (a b c : Double.t) :
  Double.ltb a b = true → Double.ltb c b = false → c ≠ S754_nan →
  Double.ltb a c = true.
Proof.
  unfold Double.ltb, SFltb, SFcompare.
  destruct a as [sa|sa| |sa ma ea], b as [sb|sb| |sb mb eb], c as [sc|sc| |sc mc ec];
    intros Hab Hbc Hc; try congruence; order_cases.
Qed.

Lemma ltb_not_nan (a b : Double.t) : Double.ltb a b = true → b ≠ S754_nan.
Proof. intros H ->. by destruct a. Qed.

Lemma ltb_irrefl (a : Double.t) : Double.ltb a a = false.
Proof.
  unfold Double.ltb, SFltb, SFcompare.
  destruct a as [sa|sa| |sa ma ea]; order_cases.
Qed.


Lemma toFixed2_rounded (x : Double.t) :
  Double.ltb Double.zero x = true → roundedTo2 x (toFixed2 x).
Proof.
  destruct x as [s|s| |s m e]; try reflexivity.
  destruct s; [discriminate|]. intros _.
  unfold roundedTo2, toFixed2.
  set (y := (100 * Double.to_Q (S754_finite false m e))%Q).
  change (SFabs (S754_finite false m e)) with (S754_finite false m e). fold y.
  exists (Qfloor (y + (1 # 2))). split; [|split; [|reflexivity]].
  - pose proof (Qfloor_le (y + (1 # 2))) as Hle. lra.
  - pose proof (Qlt_floor (y + (1 # 2))) as Hlt.
    rewrite inject_Z_plus in Hlt. change (inject_Z 1) with 1%Q in Hlt. lra.
Qed.


(** One turn of the loop over the sets: a set that counts offers its
    estimate, any other set changes nothing. *)
Lemma calculateEpley1RM_double (weight reps : Double.t) :
  Double.ltb Double.zero weight = true →
  Double.ltb Double.zero reps = true →
  Double.calculateEpley1RM weight reps
  = if Double.eqb reps (Double.of_Z 1) then weight
    else Double.mul weight
           (Double.add (Double.of_Z 1) (Double.div reps (Double.of_Z 30))).
Proof.
  intros Hw Hr. unfold Double.calculateEpley1RM.
  assert (Hle : ∀ x, Double.ltb Double.zero x = true → Double.leb x Double.zero = false).
  { intros [[]|[]| |[] m e]; by vm_compute. }
  by rewrite (Hle weight Hw), (Hle reps Hr).
Qed.

Lemma stepSet_cases (acc : Double.t) (set : ExerciseSet.t) :
  (stepSet acc set = acc ∧ ∀ e, ¬ estimateOf set e) ∨
  (∃ e, estimateOf set e ∧ (∀ e', estimateOf set e' → e' = e) ∧
        stepSet acc set = if Double.ltb acc e then e else acc).
Proof.
  unfold stepSet, estimateOf.
  destruct (Js.is_digits (Js.trim (ExerciseSet.reps set))) eqn:Hd.
  2:{ left. split; [reflexivity|]. intros e (_ & H & _). congruence. }
  destruct (Double.ltb Double.zero (parseFloat (ExerciseSet.weight set))) eqn:Hw.
  2:{ left. split; [reflexivity|]. intros e (H & _). congruence. }
  destruct (Double.ltb Double.zero
              (Double.of_N (Js.parseInt (Js.trim (ExerciseSet.reps set))))) eqn:Hr.
  2:{ left. split; [reflexivity|]. intros e (_ & _ & H & _). congruence. }
  rewrite (calculateEpley1RM_double _ _ Hw Hr).
  right. eexists. split; [|split].
  - split; [reflexivity|]. split; [reflexivity|]. split; reflexivity.
  - by intros e' (_ & _ & _ & ->).
  - reflexivity.
Qed.

(** The loop over the sets leaves a number that no estimate exceeds: 0
    or, if it is greater than 0, the estimate of one of the sets. *)
Lemma fold_stepSet (sets : list ExerciseSet.t) :
  let m := fold_left stepSet sets Double.zero in
  m ≠ S754_nan ∧
  (∀ set e, set ∈ sets → estimateOf set e → Double.ltb m e = false) ∧
  (m = Double.zero ∨
   (Double.ltb Double.zero m = true ∧ ∃ set, set ∈ sets ∧ estimateOf set m)).
Proof.
  induction sets as [|set sets IH] using rev_ind; simpl.
  - split; [discriminate|]. split; [|by left].
    intros set e Hin. by apply elem_of_nil in Hin.
  - rewrite fold_left_app. simpl. simpl in IH.
    set (acc := fold_left stepSet sets Double.zero) in IH |- *.
    destruct IH as (Hnan & Hmax & Hacc).
    destruct (stepSet_cases acc set) as [[Hsame Hno]|(e & He & Huniq & Hstep)].
    + rewrite Hsame. split; [exact Hnan|]. split.
      * intros s e' Hin Hest.
        apply elem_of_app in Hin as [Hin|Hin]; [by apply (Hmax s)|].
        apply list_elem_of_singleton in Hin as ->. by apply Hno in Hest.
      * destruct Hacc as [H0|(Hpos & s & Hs & Hest)]; [by left|].
        right. split; [exact Hpos|]. exists s. split; [|exact Hest].
        apply elem_of_app. by left.
    + rewrite Hstep. destruct (Double.ltb acc e) eqn:Hcmp.
      * split; [by eapply ltb_not_nan|]. split.
        -- intros s e' Hin Hest.
           apply elem_of_app in Hin as [Hin|Hin].
           ++ apply not_true_is_false. intros Hlt.
              pose proof (ltb_trans _ _ _ Hcmp Hlt) as Hcontra.
              by rewrite (Hmax s e' Hin Hest) in Hcontra.
           ++ apply list_elem_of_singleton in Hin as ->.
              rewrite (Huniq e' Hest). apply ltb_irrefl.
        -- right. split.
           ++ destruct Hacc as [H0|(Hpos & _)]; [by rewrite <- H0|].
              by eapply ltb_trans.
           ++ exists set. split; [|exact He].
              apply elem_of_app. right. by apply list_elem_of_singleton.
      * split; [exact Hnan|]. split.
        -- intros s e' Hin Hest.
           apply elem_of_app in Hin as [Hin|Hin]; [by apply (Hmax s)|].
           apply list_elem_of_singleton in Hin as ->. by rewrite (Huniq e' Hest).
        -- destruct Hacc as [H0|(Hpos & s & Hs & Hest)]; [by left|].
           right. split; [exact Hpos|]. exists s. split; [|exact Hest].
           apply elem_of_app. by left.
Qed.

Lemma stepExercise_app (log : DailyLog.t) (acc : list OneRepMaxDataPoint.t)
    (loggedEx : LoggedExercise.t) :
  stepExercise log acc loggedEx = acc ++ stepExercise log [] loggedEx.
Proof.
  unfold stepExercise. destruct (Double.ltb _ _); simpl; [reflexivity|].
  by rewrite app_nil_r.
Qed.

Lemma stepExercise_pointsOf (log : DailyLog.t) (loggedEx : LoggedExercise.t) :
  pointsOf (log, loggedEx) (stepExercise log [] loggedEx).
Proof.
  unfold pointsOf, stepExercise; simpl.
  destruct (fold_stepSet (LoggedExercise.sets loggedEx)) as (Hnan & Hmax & Hm).
  destruct (Double.ltb Double.zero (fold_left stepSet _ _)) eqn:Hpos.
  - right. eexists _, _. split; [|split; [exact Hpos|split; [|reflexivity]]].
    + split; [|exact Hmax].
      destruct Hm as [H0|(_ & Hset)]; [|exact Hset].
      rewrite H0 in Hpos. discriminate Hpos.
    + by apply toFixed2_rounded.
  - left. split; [|reflexivity]. intros set e Hin Hest.
    apply not_true_is_false. intros Hlt.
    pose proof (ltb_not_ltb _ _ _ Hlt (Hmax set e Hin Hest) Hnan) as Hcontra.
    congruence.
Qed.

Lemma fold_stepExercise (log : DailyLog.t) (exs : list LoggedExercise.t)
    (acc : list OneRepMaxDataPoint.t) :
  fold_left (stepExercise log) exs acc
  = acc ++ concat ((λ ex, stepExercise log [] ex) <$> exs).
Proof.
  revert acc. induction exs as [|ex exs IH]; intros acc; simpl.
  - by rewrite app_nil_r.
  - rewrite IH, stepExercise_app, <- app_assoc. reflexivity.
Qed.

Lemma fold_logs (logs : list DailyLog.t) (acc : list OneRepMaxDataPoint.t) :
  fold_left (λ acc log, fold_left (stepExercise log) (DailyLog.exercises log) acc)
            logs acc
  = acc ++ concat ((λ entry, stepExercise entry.1 [] entry.2)
                     <$> (log ← logs; pair log <$> DailyLog.exercises log)).
Proof.
  revert acc. induction logs as [|log logs IH]; intros acc; simpl.
  - by rewrite app_nil_r.
  - rewrite IH, fold_stepExercise, fmap_app, concat_app, <- app_assoc.
    f_equal. f_equal. rewrite <- list_fmap_compose. reflexivity.
Qed.

(** C6, amended. The series of [calculate1RMData] is made, up to order, of
    the data points owed to the logged exercises, one by one: at most one
    for each, none for an exercise without a set that counts, and the point
    of an exercise has the date of the log, the name of the exercise and
    the largest Epley estimate of its sets that count, computed in doubles
    and rounded to two decimal places; when the dates of the logs are valid
    dates, the series is these points in ascending order of date, points of
    one date in the order of the logged exercises. *)
Theorem calculate1RMData_spec (data : AppData.t) :
  ∃ ptss : list (list OneRepMaxDataPoint.t),
    Forall2 pointsOf (loggedEntries data) ptss ∧
    calculate1RMData data ≡ₚ concat ptss ∧
    (Forall (λ log, valid_date (DailyLog.date log)) (AppData.dailyLogs data) →
     StronglySorted
       (λ a b, time_le (OneRepMaxDataPoint.date a) (OneRepMaxDataPoint.date b))
       (calculate1RMData data) ∧
     calculate1RMData data = Js.sort point_gt (concat ptss)).
Proof.
  exists ((λ entry, stepExercise entry.1 [] entry.2) <$> loggedEntries data).
  assert (Heq : calculate1RMData data
                = Js.sort point_gt
                    (concat ((λ entry, stepExercise entry.1 [] entry.2)
                               <$> loggedEntries data))).
  { unfold calculate1RMData. by rewrite fold_logs. }
  split; [|split].
  - apply Forall2_fmap_r, Forall_Forall2_diag, Forall_forall.
    intros [log ex] _. apply stepExercise_pointsOf.
  - rewrite Heq. apply sort_Permutation.
  - intros Hvalid. split; [|exact Heq]. rewrite Heq.
    apply (sort_StronglySorted point_gt
             (λ pt, valid_date (OneRepMaxDataPoint.date pt))).
    + intros a b Ha Hb. unfold point_gt. by apply date_gt_decides.
    + intros a b c _ _ _. apply time_le_trans.
    + apply Forall_concat, Forall_fmap, Forall_forall.
      intros [log ex] Hin. unfold loggedEntries in Hin.
      apply list_elem_of_bind in Hin as (log' & Hin & Hlog).
      apply list_elem_of_fmap in Hin as (ex' & Heq' & _). inversion Heq'; subst.
      rewrite Forall_forall in Hvalid. specialize (Hvalid _ Hlog).
      simpl. unfold stepExercise. destruct (Double.ltb _ _); simpl; repeat constructor.
      exact Hvalid.
Qed.

End DataService.

(** ** The Epley estimate *)




(** ** The plan-text parser *)

Lemma is_space_lower (c : ascii) : Js.is_space (Js.lower_char c) = Js.is_space c.
Proof. destruct c as [[] [] [] [] [] [] [] []]; reflexivity. Qed.

Lemma hasSpace_lower (s : string) : hasSpace (Js.toLowerCase s) = hasSpace s.
Proof.
  induction s as [|c s IH]; simpl; [reflexivity|].
  by rewrite is_space_lower, IH.
Qed.

Lemma split_ws_no_space (s : string) :
  hasSpace s = false → Js.split_ws_go false s = [s].
Proof.
  induction s as [|c s IH]; simpl; [reflexivity|].
  intros H. apply orb_false_iff in H as [Hc Hs].
  by rewrite Hc, (IH Hs).
Qed.

Lemma dayOfLine_isDayName (line : string) (d : nat) :
  dayOfLine line = Some d → isDayName line d.
Proof.
  unfold dayOfLine, isDayName. intros H.
  destruct (findIndex _ DAYS_OF_WEEK) as [k|] eqn:Hk; [|discriminate].
  destruct (_ && _); [|discriminate]. inversion H; subst.
  destruct (findIndex_Some _ _ _ Hk) as (day & Hday & Heq & _).
  apply String.eqb_eq in Heq. exists day. split; [exact Hday | congruence].
Qed.

Lemma isDayName_dayOfLine (line : string) (d : nat) :
  isDayName line d → dayOfLine line = Some d.
Proof.
  intros (day & Hday & Heq). unfold dayOfLine.
  assert (Hsp : hasSpace (Js.trim line) = false).
  { rewrite <- hasSpace_lower, Heq.
    do 7 (destruct d as [|d]; [inversion Hday; reflexivity|]). discriminate. }
  unfold Js.split_ws. rewrite (split_ws_no_space _ Hsp). simpl.
  rewrite Heq.
  do 7 (destruct d as [|d]; [inversion Hday; subst; reflexivity|]). discriminate.
Qed.

Lemma dayOfLine_None (line : string) :
  (∀ d, ¬ isDayName line d) → dayOfLine line = None.
Proof.
  intros H. destruct (dayOfLine line) as [d|] eqn:E; [|reflexivity].
  exfalso. by apply (H d), dayOfLine_isDayName.
Qed.

Lemma detectDay_first (ls : list string) (i0 k d : nat) (line : string) :
  ls !! k = Some line → dayOfLine line = Some d →
  (∀ j l, j < k → ls !! j = Some l → dayOfLine l = None) →
  detectDay ls i0 = Some (d, i0 + k).
Proof.
  revert i0 k. induction ls as [|a ls IH]; intros i0 k Hk Hd Hbefore; [discriminate|].
  destruct k as [|k]; simpl in *.
  - inversion Hk; subst. rewrite Hd. f_equal. f_equal. lia.
  - rewrite (Hbefore 0 a) by (lia || reflexivity).
    rewrite (IH (S i0) k Hk Hd).
    + f_equal. f_equal. lia.
    + intros j l Hj Hl. apply (Hbefore (S j) l); [lia | exact Hl].
Qed.

Lemma detectDay_none (ls : list string) (i0 : nat) :
  (∀ l, l ∈ ls → dayOfLine l = None) → detectDay ls i0 = None.
Proof.
  revert i0. induction ls as [|a ls IH]; intros i0 H; [reflexivity|]. simpl.
  rewrite (H a) by left. apply IH. intros l Hl. apply H. by right.
Qed.

Lemma findFrom_Some (p : string → bool) (lines : list string) (start h : nat) :
  findFrom p lines start = Some h →
  start ≤ h ∧
  ∃ l, lines !! h = Some l ∧ p l = true ∧
       ∀ j l', start ≤ j → j < h → lines !! j = Some l' → p l' = false.
Proof.
  unfold findFrom. intros H.
  destruct (findIndex p (drop start lines)) as [k|] eqn:Hk; [|discriminate].
  inversion H; subst. split; [lia|].
  destruct (findIndex_Some _ _ _ Hk) as (l & Hl & Hp & Hbefore).
  rewrite lookup_drop in Hl. exists l. split; [exact Hl|]. split; [exact Hp|].
  intros j l' Hj1 Hj2 Hl'. apply (Hbefore (j - start)); [lia|].
  rewrite lookup_drop. by replace (start + (j - start)) with j by lia.
Qed.

Lemma findFrom_None (p : string → bool) (lines : list string) (start : nat) :
  findFrom p lines start = None →
  ∀ j l, start ≤ j → lines !! j = Some l → p l = false.
Proof.
  unfold findFrom. intros H j l Hj Hl.
  destruct (findIndex p (drop start lines)) as [k|] eqn:Hk; [discriminate|].
  apply findIndex_None in Hk. rewrite Forall_forall in Hk. apply Hk.
  apply list_elem_of_lookup. exists (j - start). rewrite lookup_drop.
  by replace (start + (j - start)) with j by lia.
Qed.

Lemma isShortHeader_iff (line : string) : isShortHeader line = true ↔ isHeaderRow line.
Proof. unfold isShortHeader, isHeaderRow, mentions. by rewrite andb_true_iff. Qed.

Lemma isFullHeader_iff (line : string) : isFullHeader line = true ↔ isFullHeaderRow line.
Proof.
  unfold isFullHeader, isFullHeaderRow, isHeaderRow, mentions.
  by rewrite !andb_true_iff.
Qed.

Lemma not_true_iff (b : bool) (P : Prop) : (b = true ↔ P) → b = false → ¬ P.
Proof. intros H Hb HP. apply H in HP. congruence. Qed.

(** The search of the header finds the header row whenever some line from
    [start] on mentions movement and sets. *)
Lemma findHeader_headerRowAt (lines : list string) (start j : nat) (l : string) :
  start ≤ j → lines !! j = Some l → isHeaderRow l →
  ∃ h header, findHeader lines start = Some h ∧ headerRowAt lines start h header.
Proof.
  intros Hj Hl Hrow. unfold findHeader.
  destruct (findFrom isFullHeader lines start) as [h|] eqn:Hfull.
  - destruct (findFrom_Some _ _ _ _ Hfull) as (Hle & header & Hh & Hp & Hbefore).
    exists h, header. split; [reflexivity|]. split; [exact Hle|]. split; [exact Hh|].
    left. split; [by apply isFullHeader_iff|].
    intros k l' Hk1 Hk2 Hl'. apply (not_true_iff _ _ (isFullHeader_iff l')).
    by apply (Hbefore k).
  - pose proof (findFrom_None _ _ _ Hfull) as Hnofull.
    destruct (findFrom isShortHeader lines start) as [h|] eqn:Hshort.
    + destruct (findFrom_Some _ _ _ _ Hshort) as (Hle & header & Hh & Hp & Hbefore).
      exists h, header. split; [reflexivity|]. split; [exact Hle|]. split; [exact Hh|].
      right. split; [|split].
      * intros k l' Hk Hl'. apply (not_true_iff _ _ (isFullHeader_iff l')).
        by apply (Hnofull k).
      * by apply isShortHeader_iff.
      * intros k l' Hk1 Hk2 Hl'. apply (not_true_iff _ _ (isShortHeader_iff l')).
        by apply (Hbefore k).
    + exfalso. pose proof (findFrom_None _ _ _ Hshort j l Hj Hl) as Hf.
      apply isShortHeader_iff in Hrow. congruence.
Qed.

Lemma tagged_snoc (items : list ParsedCSVExercisePlanItem.t)
    (base : ParsedCSVExercisePlanItem.t) :
  tagged (items ++ [base]) = tagged items ++ [withOriginalIndex base (length items)].
Proof.
  unfold tagged. rewrite imap_app. simpl. by rewrite Nat.add_0_r.
Qed.

Lemma length_tagged (items : list ParsedCSVExercisePlanItem.t) :
  length (tagged items) = length items.
Proof. apply length_imap. Qed.

Lemma is_empty_false (s : string) : Js.is_empty s = false ↔ s ≠ "".
Proof. destruct s; simpl; split; congruence. Qed.

(** The loop over the data lines of a detected weekday, started on the
    items of the lines already read. *)
Lemma collectDay_spec (ls : list string) (seen : list ParsedCSVExercisePlanItem.t) :
  collectDay ls (length seen) (tagged seen)
  = tagged (seen ++ omap extractWorkoutFromTextBlock (filter nonBlank ls)).
Proof.
  revert seen. induction ls as [|line ls IH]; intros seen; simpl.
  - by rewrite app_nil_r.
  - destruct (Js.is_empty (Js.trim line)) eqn:Hblank.
    + rewrite filter_cons_False; [apply IH|].
      unfold nonBlank. intros Hne. apply is_empty_false in Hne. congruence.
    + rewrite filter_cons_True by (by apply is_empty_false). simpl.
      destruct (extractWorkoutFromTextBlock line) as [base|] eqn:Hex; [|apply IH].
      rewrite <- tagged_snoc.
      replace (S (length seen)) with (length (seen ++ [base]))
        by (rewrite length_app; simpl; lia).
      rewrite IH, <- app_assoc. reflexivity.
Qed.

(** C3, amended. When one of the first five lines, once trimmed, is the
    name of a weekday (in any case of letters), no line before it is, and a
    later line mentions both movement and sets, the plan has one key, that
    weekday; its value is the items extracted from the lines that are not
    blank after the header row (the first later line that mentions
    movement, sets and reps or, failing that, the first that mentions
    movement and sets), numbered 0, 1, 2, ... by [originalIndex]. *)
Theorem parse_detected_day (rawText : string) (i d j : nat) (line hline : string) :
  let lines := linesOf rawText in
  i < 5 → lines !! i = Some line → isDayName line d →
  (∀ k l d', k < i → lines !! k = Some l → ¬ isDayName l d') →
  i < j → lines !! j = Some hline → isHeaderRow hline →
  ∃ h header,
    headerRowAt lines (i + 1) h header ∧
    parseFullWorkoutPlanFromText rawText
    = {[ d := itemsOfLines (λ l, l) (drop (h + 1) lines) ]}.
Proof.
  intros lines Hi Hline Hday Hfirst Hij Hj Hrow.
  assert (Hlen : i < length lines) by (by eapply lookup_lt_Some).
  assert (Hdet : detectDay (take (Nat.min (length lines) 5) lines) 0 = Some (d, i)).
  { apply (detectDay_first _ 0 i d line).
    - rewrite lookup_take_lt by lia. exact Hline.
    - by apply isDayName_dayOfLine.
    - intros k l Hk Hl. rewrite lookup_take_lt in Hl by lia.
      apply dayOfLine_None. intros d'. by apply (Hfirst k). }
  destruct (findHeader_headerRowAt lines (i + 1) j hline) as (h & header & Hfind & Hat);
    [lia | exact Hj | exact Hrow |].
  exists h, header. split; [exact Hat|].
  unfold parseFullWorkoutPlanFromText. fold lines. rewrite Hdet, Hfind.
  f_equal. apply (collectDay_spec _ []).
Qed.

(** *** The columns *)

Lemma length_toLowerCase (s : string) :
  String.length (Js.toLowerCase s) = String.length s.
Proof. induction s as [|c s IH]; simpl; [reflexivity | by rewrite IH]. Qed.

Lemma occurrencesFrom_ge (p s : string) (pos q : nat) :
  q ∈ occurrencesFrom p s pos → pos ≤ q.
Proof.
  revert pos. induction s as [|c s IH]; intros pos Hq; simpl in Hq.
  - destruct (Js.startsWith p ""); simpl in Hq.
    + apply list_elem_of_singleton in Hq. lia.
    + by apply elem_of_nil in Hq.
  - apply elem_of_app in Hq as [Hq|Hq].
    + destruct (Js.startsWith p _); [|by apply elem_of_nil in Hq].
      apply list_elem_of_singleton in Hq. lia.
    + apply IH in Hq. lia.
Qed.

Lemma occurrencesFrom_sorted (p s : string) (pos : nat) :
  StronglySorted lt (occurrencesFrom p s pos).
Proof.
  revert pos. induction s as [|c s IH]; intros pos; simpl.
  - destruct (Js.startsWith p ""); repeat constructor.
  - destruct (Js.startsWith p _); simpl; [|apply IH].
    constructor; [apply IH|]. apply Forall_forall. intros q Hq.
    apply occurrencesFrom_ge in Hq. lia.
Qed.

Lemma occurrencesFrom_length (c : ascii) (p s : string) (pos : nat) :
  length (occurrencesFrom (String c p) s pos) ≤ String.length s.
Proof.
  revert pos. induction s as [|a s IH]; intros pos; simpl; [lia|].
  destruct (_ && _); simpl; specialize (IH (S pos)); lia.
Qed.

(** [indexOf] returns the first occurrence at or after [from]. *)
Lemma indexOf_at_head (p s : string) (pos from : nat) :
  Js.indexOf_at p s pos from
  = head (filter (λ q, from ≤ q) (occurrencesFrom p s pos)).
Proof.
  revert pos. induction s as [|c s IH]; intros pos.
  - simpl. destruct (Js.startsWith p "") eqn:Hp; simpl.
    + destruct (Nat.leb from pos) eqn:E; simpl.
      * apply Nat.leb_le in E. by rewrite filter_cons_True.
      * apply Nat.leb_gt in E. rewrite filter_cons_False by lia. reflexivity.
    + by rewrite andb_false_r.
  - cbn [Js.indexOf_at occurrencesFrom]. rewrite filter_app.
    destruct (Js.startsWith p (String c s)) eqn:Hp.
    + destruct (Nat.leb from pos) eqn:E; simpl.
      * apply Nat.leb_le in E. by rewrite filter_cons_True.
      * apply Nat.leb_gt in E. rewrite filter_cons_False by lia. apply IH.
    + rewrite andb_false_r. simpl. apply IH.
Qed.

Lemma filter_ge_all (L : list nat) (from : nat) :
  Forall (λ q, from ≤ q) L → filter (λ q, from ≤ q) L = L.
Proof.
  induction 1 as [|a L Ha _ IH]; [reflexivity|].
  by rewrite filter_cons_True, IH.
Qed.

Lemma filter_ge_next (L : list nat) (from q : nat) (tl : list nat) :
  StronglySorted lt L →
  filter (λ x, from ≤ x) L = q :: tl →
  filter (λ x, S q ≤ x) L = tl.
Proof.
  induction 1 as [|a L Hs IH Hall]; intros Hf; [discriminate|].
  destruct (decide (from ≤ a)) as [Hle|Hgt].
  - rewrite filter_cons_True in Hf by exact Hle. inversion Hf; subst.
    rewrite filter_cons_False by lia.
    rewrite !filter_ge_all; [reflexivity| |].
    + eapply Forall_impl; [exact Hall|]. simpl. intros; lia.
    + eapply Forall_impl; [exact Hall|]. simpl. intros; lia.
  - rewrite filter_cons_False in Hf by exact Hgt.
    assert (from ≤ q).
    { assert (Hq : q ∈ filter (λ x, from ≤ x) L) by (rewrite Hf; left).
      by apply list_elem_of_filter in Hq as [? _]. }
    rewrite filter_cons_False by lia. by apply IH.
Qed.

(** With fuel to spare, the loop collects every occurrence from [from] on. *)
Lemma colStartsFrom_occurrences (fuel : nat) (s : string) (from : nat) :
  length (filter (λ q, from ≤ q) (occurrences "movement" s)) < fuel →
  colStartsFrom fuel s from = filter (λ q, from ≤ q) (occurrences "movement" s).
Proof.
  revert from. induction fuel as [|fuel IH]; intros from Hlen; [lia|].
  simpl. unfold Js.indexOf. rewrite indexOf_at_head. fold (occurrences "movement" s).
  destruct (filter (λ q, from ≤ q) (occurrences "movement" s)) as [|q tl] eqn:Hf;
    simpl; [reflexivity|].
  f_equal. rewrite IH.
  - apply (filter_ge_next _ from q tl); [apply occurrencesFrom_sorted | exact Hf].
  - rewrite (filter_ge_next _ from q tl); [|apply occurrencesFrom_sorted | exact Hf].
    simpl in Hlen. lia.
Qed.

Lemma colStartsOf_occurrences (header : string) :
  colStartsOf header = occurrences "movement" (Js.toLowerCase header).
Proof.
  unfold colStartsOf. rewrite colStartsFrom_occurrences.
  - apply filter_ge_all, Forall_forall. intros; lia.
  - rewrite filter_ge_all by (apply Forall_forall; intros; lia).
    pose proof (occurrencesFrom_length "m" "ovement" (Js.toLowerCase header) 0) as H.
    rewrite length_toLowerCase in H. unfold occurrences. lia.
Qed.

(** The columns that the loop defines are those of [columnAt], weekday by
    weekday, and no two of them share a weekday. *)
Lemma columnDefinitions_find (len : nat) (cols : list nat) (day : nat) :
  find (dayIs day) (columnDefinitionsFrom len dayOrderForColumns cols)
  = k ← columnOfDay day; columnAt len cols day k.
Proof.
  unfold dayOrderForColumns, columnAt.
  destruct cols as [|a [|b [|c [|e [|f rest]]]]]; simpl;
    do 6 (destruct day as [|day]; [reflexivity|]); reflexivity.
Qed.

Lemma columnDefinitions_NoDup (len : nat) (cols : list nat) :
  NoDup (ColDef.dayOfWeek <$> columnDefinitionsFrom len dayOrderForColumns cols).
Proof.
  unfold dayOrderForColumns.
  destruct cols as [|a [|b [|c [|e [|f rest]]]]]; simpl;
    by apply (bool_decide_unpack _).
Qed.

Lemma find_none_NoDup (a : ColDef.t) (cds : list ColDef.t) :
  ColDef.dayOfWeek a ∉ ColDef.dayOfWeek <$> cds →
  find (dayIs (ColDef.dayOfWeek a)) cds = None.
Proof.
  intros Hnotin. apply find_none. intros c Hc. unfold dayIs.
  apply Nat.eqb_neq. intros Heq.
  apply Hnotin, list_elem_of_fmap. by exists c.
Qed.

(** One line under all the columns: the list of a weekday grows by the
    item of its column, if the cell yields one. *)
Lemma fold_stepColumn (line : string) (cds : list ColDef.t)
    (temp : gmap nat (list ParsedCSVExercisePlanItem.t)) (day : nat) :
  NoDup (ColDef.dayOfWeek <$> cds) →
  fold_left (stepColumn line) cds temp !! day
  = match find (dayIs day) cds with
    | Some c =>
        match extractWorkoutFromTextBlock (textBlockOf line c) with
        | Some base =>
            let items := default [] (temp !! day) in
            Some (items ++ [withOriginalIndex base (length items)])
        | None => temp !! day
        end
    | None => temp !! day
    end.
Proof.
  revert temp. induction cds as [|a cds IH]; intros temp Hnd; [reflexivity|].
  rewrite fmap_cons in Hnd. apply NoDup_cons in Hnd as [Hnotin Hnd].
  cbn [fold_left find]. rewrite (IH _ Hnd).
  destruct (dayIs day a) eqn:E; unfold dayIs in E.
  - apply Nat.eqb_eq in E. subst day.
    rewrite (find_none_NoDup a cds Hnotin). unfold stepColumn.
    destruct (extractWorkoutFromTextBlock (textBlockOf line a)); [|reflexivity].
    by rewrite lookup_insert_eq.
  - apply Nat.eqb_neq in E.
    assert (Hsame : stepColumn line temp a !! day = temp !! day).
    { unfold stepColumn.
      destruct (extractWorkoutFromTextBlock (textBlockOf line a)); [|reflexivity].
      by rewrite lookup_insert_ne. }
    by rewrite Hsame.
Qed.

(** All the lines: the weekday of a column holds the items of the cells of
    that column, numbered in order; a weekday without a column holds what
    it held. *)
Lemma fold_stepLine_column (cds : list ColDef.t) (ls : list string) (day : nat)
    (c : ColDef.t) (temp : gmap nat (list ParsedCSVExercisePlanItem.t))
    (seen : list ParsedCSVExercisePlanItem.t) :
  NoDup (ColDef.dayOfWeek <$> cds) →
  find (dayIs day) cds = Some c →
  temp !! day = Some (tagged seen) →
  fold_left (stepLine cds) ls temp !! day
  = Some (tagged (seen ++ omap (λ l, extractWorkoutFromTextBlock (textBlockOf l c))
                               (filter nonBlank ls))).
Proof.
  intros Hnd Hfind. revert temp seen.
  induction ls as [|line ls IH]; intros temp seen Htemp; simpl.
  - by rewrite app_nil_r.
  - unfold stepLine at 2. destruct (Js.is_empty (Js.trim line)) eqn:Hblank.
    + rewrite filter_cons_False; [by apply IH|].
      unfold nonBlank. intros Hne. apply is_empty_false in Hne. congruence.
    + rewrite filter_cons_True by (by apply is_empty_false). simpl.
      pose proof (fold_stepColumn line cds temp day Hnd) as Hstep.
      rewrite Hfind, Htemp in Hstep. simpl in Hstep.
      destruct (extractWorkoutFromTextBlock (textBlockOf line c)) as [base|] eqn:Hex.
      * rewrite length_tagged, <- tagged_snoc in Hstep.
        rewrite (IH _ _ Hstep), <- app_assoc. reflexivity.
      * by apply IH.
Qed.

Lemma fold_stepLine_other (cds : list ColDef.t) (ls : list string) (day : nat)
    (temp : gmap nat (list ParsedCSVExercisePlanItem.t)) :
  NoDup (ColDef.dayOfWeek <$> cds) →
  find (dayIs day) cds = None →
  fold_left (stepLine cds) ls temp !! day = temp !! day.
Proof.
  intros Hnd Hfind. revert temp. induction ls as [|line ls IH]; intros temp; simpl.
  - reflexivity.
  - rewrite IH. unfold stepLine. destruct (Js.is_empty (Js.trim line)); [reflexivity|].
    by rewrite (fold_stepColumn line cds temp day Hnd), Hfind.
Qed.

Lemma emptyByDay_lookup (day : nat) :
  emptyByDay !! day = if decide (day < 7) then Some [] else None.
Proof.
  unfold emptyByDay. cbn [DAYS_OF_WEEK length seq fold_left].
  case_decide as Hlt.
  - do 7 (destruct day as [|day]; [reflexivity|]). lia.
  - rewrite !lookup_insert_ne by lia. apply lookup_empty.
Qed.

(** The plan read by columns, with the cells as the code cuts them. *)
Lemma parse_by_columns (rawText : string) :
  let lines := linesOf rawText in
  (∀ line d, line ∈ lines → ¬ isDayName line d) →
  (∃ line, line ∈ lines ∧ isHeaderRow line) →
  ∃ h header,
    headerRowAt lines 0 h header ∧
    let cols := occurrences "movement" (Js.toLowerCase header) in
    StronglySorted lt cols ∧
    ∀ day,
      parseFullWorkoutPlanFromText rawText !! day
      = k ← columnOfDay day;
        col ← columnAt (String.length header) cols day k;
        match itemsOfLines (λ line, textBlockOf line col) (drop (h + 1) lines) with
        | [] => None
        | items => Some items
        end.
Proof.
  intros lines Hnoday (hline & Hin & Hrow).
  assert (Hdet : detectDay (take (Nat.min (length lines) 5) lines) 0 = None).
  { apply detectDay_none. intros l Hl. apply dayOfLine_None. intros d.
    apply Hnoday. by eapply subseteq_take. }
  apply list_elem_of_lookup in Hin as [j Hj].
  destruct (findHeader_headerRowAt lines 0 j hline) as (h & header & Hfind & Hat);
    [lia | exact Hj | exact Hrow |].
  exists h, header. split; [exact Hat|].
  intros cols. split; [apply occurrencesFrom_sorted|]. intros day.
  unfold parseFullWorkoutPlanFromText. fold lines. rewrite Hdet, Hfind.
  destruct Hat as (_ & Hheader & _). rewrite Hheader. simpl default.
  rewrite colStartsOf_occurrences. fold cols.
  pose proof (columnDefinitions_find (String.length header) cols day) as Hcol.
  pose proof (columnDefinitions_NoDup (String.length header) cols) as Hnd.
  destruct (length cols =? 0) eqn:Hlen.
  - apply Nat.eqb_eq in Hlen. destruct cols; [|discriminate].
    rewrite lookup_empty. by destruct (columnOfDay day).
  - unfold columnDefinitionsOf.
    set (cds := columnDefinitionsFrom (String.length header) dayOrderForColumns cols) in *.
    destruct (find (dayIs day) cds) as [c|] eqn:Hc.
    + assert (Hday : emptyByDay !! day = Some (tagged [])).
      { rewrite emptyByDay_lookup. rewrite decide_True; [reflexivity|].
        destruct (columnOfDay day) eqn:Hk; [|discriminate].
        do 6 (destruct day as [|day]; [lia|]). discriminate. }
      pose proof (fold_stepLine_column cds (drop (h + 1) lines) day c _ [] Hnd Hc Hday)
        as Hfold.
      destruct (columnOfDay day) as [k|]; simpl in Hcol |- *; [|discriminate].
      rewrite <- Hcol. simpl.
      simpl in Hfold.
      fold (itemsOfLines (λ l, textBlockOf l c) (drop (h + 1) lines)) in Hfold.
      destruct (itemsOfLines _ _) as [|item items] eqn:Hitems.
      * apply map_lookup_filter_None. right. intros x Hx. rewrite Hfold in Hx.
        inversion Hx; subst. simpl. tauto.
      * apply map_lookup_filter_Some. split; [exact Hfold | discriminate].
    + assert (Hrhs : (k ← columnOfDay day;
                      col ← columnAt (String.length header) cols day k;
                      match itemsOfLines (λ line, textBlockOf line col)
                                         (drop (h + 1) lines) with
                      | [] => None
                      | items => Some items
                      end) = None).
      { destruct (columnOfDay day) as [k|]; simpl in Hcol |- *; [|reflexivity].
        by rewrite <- Hcol. }
      rewrite Hrhs.
      apply map_lookup_filter_None.
      rewrite (fold_stepLine_other cds _ day _ Hnd Hc), emptyByDay_lookup.
      case_decide; [right | by left].
      intros x Hx. inversion Hx; subst. simpl. tauto.
Qed.

Lemma substring_clamp (s : string) (a b : nat) :
  a ≤ b →
  String.substring (Nat.min a (String.length s))
                   (Nat.min b (String.length s) - Nat.min a (String.length s)) s
  = String.substring a (b - a) s.
Proof.
  revert a b. induction s as [|c s IH]; intros a b Hab.
  - simpl. rewrite !Nat.min_0_r. simpl. destruct (b - a); by destruct a.
  - destruct a as [|a].
    + destruct b as [|b]; [reflexivity|]. simpl.
      specialize (IH 0 b). rewrite Nat.min_0_l, !Nat.sub_0_r in IH.
      rewrite IH by lia. reflexivity.
    + destruct b as [|b]; [lia|]. simpl. apply IH. lia.
Qed.

Lemma textBlockOf_charsAt (line : string) (col : ColDef.t) :
  ColDef.start col ≤ ColDef.end_ col + 1 →
  textBlockOf line col = charsAt line (ColDef.start col) (ColDef.end_ col).
Proof.
  intros Hle. unfold textBlockOf, charsAt, Js.substring.
  set (n := String.length line).
  replace (Nat.min (Nat.min (ColDef.start col) n) n) with (Nat.min (ColDef.start col) n)
    by lia.
  replace (Nat.min (Nat.min (ColDef.end_ col + 1) n) n)
    with (Nat.min (ColDef.end_ col + 1) n) by lia.
  rewrite Nat.min_l, Nat.max_r by lia.
  by apply substring_clamp.
Qed.

Lemma occurrencesFrom_le (p s : string) (pos q : nat) :
  q ∈ occurrencesFrom p s pos → q ≤ pos + String.length s.
Proof.
  revert pos. induction s as [|c s IH]; intros pos Hq; simpl in Hq.
  - destruct (Js.startsWith p ""); simpl in Hq.
    + apply list_elem_of_singleton in Hq. lia.
    + by apply elem_of_nil in Hq.
  - apply elem_of_app in Hq as [Hq|Hq].
    + destruct (Js.startsWith p _); [|by apply elem_of_nil in Hq].
      apply list_elem_of_singleton in Hq. lia.
    + apply IH in Hq. simpl. lia.
Qed.

Lemma sorted_lookup_lt (l : list nat) (i j x y : nat) :
  StronglySorted lt l → l !! i = Some x → l !! j = Some y → i < j → x < y.
Proof.
  intros Hsorted. revert i j.
  induction Hsorted as [|a l Hsorted IH Hall]; intros i j Hx Hy Hij; [discriminate|].
  destruct j as [|j]; [lia|]. simpl in Hy. destruct i as [|i].
  - inversion Hx; subst. rewrite Forall_forall in Hall.
    by apply Hall, (list_elem_of_lookup_2 _ j).
  - simpl in Hx. apply (IH i j Hx Hy). lia.
Qed.

Lemma columnAt_bounds (header : string) (day k : nat) (col : ColDef.t) :
  columnAt (String.length header) (occurrences "movement" (Js.toLowerCase header)) day k
  = Some col →
  ColDef.start col ≤ ColDef.end_ col + 1.
Proof.
  unfold columnAt, occurrences.
  set (cols := occurrencesFrom "movement" (Js.toLowerCase header) 0).
  destruct (cols !! k) as [start|] eqn:Hstart; [|discriminate]. simpl.
  intros [= <-]. simpl.
  destruct (cols !! (k + 1)) as [next|] eqn:Hnext.
  - pose proof (occurrencesFrom_sorted "movement" (Js.toLowerCase header) 0) as Hsorted.
    fold cols in Hsorted.
    pose proof (sorted_lookup_lt cols k (k + 1) start next Hsorted Hstart Hnext). lia.
  - apply list_elem_of_lookup_2, occurrencesFrom_le in Hstart.
    rewrite length_toLowerCase in Hstart. lia.
Qed.

Lemma itemsOfLines_ext (cell cell' : string → string) (dataLines : list string) :
  (∀ line, cell line = cell' line) →
  itemsOfLines cell dataLines = itemsOfLines cell' dataLines.
Proof.
  intros Hcell. unfold itemsOfLines. f_equal.
  induction (filter nonBlank dataLines) as [|line ls IH]; [reflexivity|].
  csimpl. by rewrite Hcell, IH.
Qed.

(** C10. When no line is the name of a weekday and some line mentions both
    movement and sets, the occurrences of "movement" in the header row, from
    left to right, are the columns of the weekdays 1, 2, 4 and 5; a fifth
    occurrence and the following ones start no column; a column holds, of
    each line, the characters from its occurrence to the character before
    the next occurrence (the last column: to the length of the header); and
    the plan has a key for a weekday exactly when the weekday has a column
    and the cells of that column yield at least one item, its value being
    those items numbered 0, 1, 2, ... by [originalIndex]. *)
Theorem parse_columns (rawText : string) :
  let lines := linesOf rawText in
  (∀ line d, line ∈ lines → ¬ isDayName line d) →
  (∃ line, line ∈ lines ∧ isHeaderRow line) →
  ∃ h header,
    headerRowAt lines 0 h header ∧
    let cols := occurrences "movement" (Js.toLowerCase header) in
    StronglySorted lt cols ∧
    ∀ day,
      parseFullWorkoutPlanFromText rawText !! day
      = k ← columnOfDay day;
        col ← columnAt (String.length header) cols day k;
        match itemsOfLines (λ line, charsAt line (ColDef.start col) (ColDef.end_ col))
                           (drop (h + 1) lines) with
        | [] => None
        | items => Some items
        end.
Proof.
  intros lines Hnoday Hheader.
  destruct (parse_by_columns rawText Hnoday Hheader) as (h & header & Hat & Hsorted & Hplan).
  exists h, header. split; [exact Hat|]. split; [exact Hsorted|].
  intros day. rewrite (Hplan day).
  destruct (columnOfDay day) as [k|]; [|reflexivity]. simpl.
  destruct (columnAt _ _ day k) as [col|] eqn:Hcol; [|reflexivity]. simpl.
  rewrite (itemsOfLines_ext (λ line, textBlockOf line col)
             (λ line, charsAt line (ColDef.start col) (ColDef.end_ col))); [reflexivity|].
  intros line. apply textBlockOf_charsAt. by eapply columnAt_bounds.
Qed.

(** ** More of the data service *)

Lemma find_Some_elem {A : Type} (p : A → bool) (l : list A) (x : A) :
  find p l = Some x → x ∈ l ∧ p x = true.
Proof.
  intros H. apply find_some in H as [Hin Hp]. split; [by apply list_elem_of_In | exact Hp].
Qed.

Lemma find_None_all {A : Type} (p : A → bool) (l : list A) :
  find p l = None → ∀ x, x ∈ l → p x = false.
Proof.
  intros H x Hx. apply (List.find_none _ _ H). by apply list_elem_of_In.
Qed.

(** Under unique keys, [find] by key does not depend on the order. *)
Lemma find_key_Permutation {A : Type} (key : A → string) (v : string) (l l' : list A) :
  NoDup (key <$> l) → l ≡ₚ l' →
  find (λ y, String.eqb (key y) v) l' = find (λ y, String.eqb (key y) v) l.
Proof.
  intros Hnd Hperm.
  assert (Hnd' : NoDup (key <$> l')) by (by rewrite <- Hperm).
  destruct (find (λ y, String.eqb (key y) v) l) as [x|] eqn:E.
  - apply find_Some_elem in E as [Hin Hk]. apply String.eqb_eq in Hk.
    apply find_unique; [exact Hnd' | by rewrite <- Hperm | exact Hk].
  - apply find_none. intros x Hx. rewrite <- Hperm in Hx.
    by apply (find_None_all _ _ E).
Qed.

Lemma find_filter_other (v date : string) (logs : list DailyLog.t) :
  date ≠ v →
  find (λ l, String.eqb (DailyLog.date l) date)
       (filter (λ l, DailyLog.date l ≠ v) logs)
  = find (λ l, String.eqb (DailyLog.date l) date) logs.
Proof.
  intros Hne. induction logs as [|a logs IH]; [reflexivity|].
  destruct (decide (DailyLog.date a = v)) as [Ha|Ha].
  - rewrite filter_cons_False by (intros H; by apply H). simpl.
    rewrite (proj2 (String.eqb_neq _ _)) by congruence. exact IH.
  - rewrite filter_cons_True by exact Ha. simpl. by rewrite IH.
Qed.

Lemma upsert_find (Date_getTime : string → option Z)
    (data : AppData.t) (log : DailyLog.t) (date : string) :
  NoDup (DailyLog.date <$> AppData.dailyLogs data) →
  find (λ l, String.eqb (DailyLog.date l) date)
       (AppData.dailyLogs (upsertDailyLog Date_getTime data log))
  = if decide (date = DailyLog.date log) then Some log
    else find (λ l, String.eqb (DailyLog.date l) date) (AppData.dailyLogs data).
Proof.
  intros Hnd.
  pose proof (upsert_Permutation log _ Hnd) as Hperm.
  set (merged := log :: filter (λ l, DailyLog.date l ≠ DailyLog.date log)
                               (AppData.dailyLogs data)) in Hperm.
  assert (Hmerged : NoDup (DailyLog.date <$> merged)).
  { unfold merged. rewrite fmap_cons. apply NoDup_cons. split.
    - intros Hin. apply list_elem_of_fmap in Hin as (l & Heq & Hl).
      apply list_elem_of_filter in Hl as [Hne _]. congruence.
    - eapply sublist_NoDup; [exact Hnd|]. apply fmap_sublist, sublist_filter. }
  assert (Hres : merged ≡ₚ AppData.dailyLogs (upsertDailyLog Date_getTime data log)).
  { unfold upsertDailyLog; simpl. by rewrite sort_Permutation, Hperm. }
  rewrite (find_key_Permutation DailyLog.date date merged _ Hmerged Hres).
  unfold merged. simpl. case_decide as Hd.
  - subst. by rewrite String.eqb_refl.
  - rewrite (proj2 (String.eqb_neq _ _)) by congruence.
    by apply find_filter_other.
Qed.

(** X1. When the logs hold at most one log per date, after
    upsertDailyLog(data, log) getDailyLog returns that log for its date and,
    for every other date, what it returned before. *)
Theorem getDailyLog_upsertDailyLog (Date_getTime : string → option Z)
    (data : AppData.t) (log : DailyLog.t) (date : string) :
  NoDup (DailyLog.date <$> AppData.dailyLogs data) →
  getDailyLog (upsertDailyLog Date_getTime data log) date
  = if decide (date = DailyLog.date log) then Some log else getDailyLog data date.
Proof.
  intros Hnd. unfold getDailyLog. by apply upsert_find.
Qed.

(** *** Groups *)

Lemma with_groups_fields (appData : AppData.t) (gs : list Group.t) :
  AppData.groups (with_groups appData gs) = gs ∧
  AppData.activeSyncedGroupId (with_groups appData gs)
  = AppData.activeSyncedGroupId appData ∧
  AppData.weeklyTemplate (with_groups appData gs) = AppData.weeklyTemplate appData ∧
  AppData.userId (with_groups appData gs) = AppData.userId appData.
Proof. repeat split. Qed.

Lemma ids_insert_same (gs : list Group.t) (i : nat) (old g : Group.t) :
  gs !! i = Some old → Group.id old = Group.id g →
  Group.id <$> <[i := g]> gs = Group.id <$> gs.
Proof.
  intros Hi Hid. rewrite list_fmap_insert, <- Hid.
  apply list_insert_id. by rewrite list_lookup_fmap, Hi.
Qed.

Lemma ids_alter_same (f : Group.t → Group.t) (gs : list Group.t) (i : nat) :
  (∀ g, Group.id (f g) = Group.id g) →
  Group.id <$> alter f i gs = Group.id <$> gs.
Proof.
  intros Hf. revert i. induction gs as [|a gs IH]; intros [|i]; simpl; try reflexivity.
  - by rewrite Hf.
  - f_equal. apply IH.
Qed.

Lemma existsb_false_ids (gs : list Group.t) (id : string) :
  existsb (λ g, String.eqb (Group.id g) id) gs = false → id ∉ Group.id <$> gs.
Proof.
  intros H Hin. apply list_elem_of_fmap in Hin as (g & Heq & Hg).
  assert (Hex : existsb (λ g, String.eqb (Group.id g) id) gs = true).
  { apply existsb_exists. exists g. split; [by apply list_elem_of_In|].
    apply String.eqb_eq. by symmetry. }
  congruence.
Qed.

(** The ids of the groups after an import: as before, or with the id of
    the imported group, which no group had, at the end. *)
Lemma addGroupFromImport_ids (Date_getTime : string → option Z)
    (JSON_parse_group : string → option ImportedGroup.t)
    (appData : AppData.t) (groupJSON : string) :
  let r := addGroupFromImport Date_getTime JSON_parse_group appData groupJSON in
  AppData.activeSyncedGroupId (ImportResult.newData r)
  = AppData.activeSyncedGroupId appData ∧
  (Group.id <$> AppData.groups (ImportResult.newData r)
   = Group.id <$> AppData.groups appData ∨
   ∃ g, (Group.id g ∉ Group.id <$> AppData.groups appData) ∧
        Group.id <$> AppData.groups (ImportResult.newData r)
        = (Group.id <$> AppData.groups appData) ++ [Group.id g]).
Proof.
  unfold addGroupFromImport.
  destruct (JSON_parse_group groupJSON) as [p|]; [|split; [reflexivity | by left]].
  destruct (validateImported p) as [g|]; [|split; [reflexivity | by left]].
  destruct (existsb _ (AppData.groups appData)) eqn:Hex.
  - destruct (findIndex _ (AppData.groups appData)) as [i|] eqn:Hidx.
    + destruct (findIndex_Some _ _ _ Hidx) as (old & Hold & Hsame & _).
      apply String.eqb_eq in Hsame. rewrite Hold.
      destruct (_ && _); simpl; (split; [reflexivity|]); left; [|reflexivity].
      by apply (ids_insert_same _ _ old).
    + exfalso. apply findIndex_None in Hidx. rewrite Forall_forall in Hidx.
      apply existsb_exists in Hex as (x & Hx & Hp).
      rewrite (Hidx x) in Hp by (by apply list_elem_of_In). discriminate.
  - simpl. split; [reflexivity|]. right. exists g.
    split; [by apply existsb_false_ids|]. by rewrite fmap_app.
Qed.

Lemma updateGroupSharedTemplate_ids (appData : AppData.t) (groupId now : string) :
  Group.id <$> AppData.groups (updateGroupSharedTemplate appData groupId now)
  = Group.id <$> AppData.groups appData ∧
  AppData.activeSyncedGroupId (updateGroupSharedTemplate appData groupId now)
  = AppData.activeSyncedGroupId appData.
Proof.
  unfold updateGroupSharedTemplate.
  destruct (findIndex _ _) as [i|]; [|by split]. simpl. split; [|reflexivity].
  by apply ids_alter_same.
Qed.

Lemma removeGroup_groups (appData : AppData.t) (groupId : string) :
  AppData.groups (removeGroup appData groupId)
  = filter (λ g, Group.id g ≠ groupId) (AppData.groups appData).
Proof.
  unfold removeGroup; simpl.
  induction (AppData.groups appData) as [|a gs IH]; [reflexivity|]. simpl.
  destruct (String.eqb (Group.id a) groupId) eqn:E; simpl.
  - apply String.eqb_eq in E. rewrite filter_cons_False by (intros H; by apply H). exact IH.
  - apply String.eqb_neq in E. rewrite filter_cons_True by exact E. by rewrite IH.
Qed.

Lemma synced_by_ids (data : AppData.t) :
  syncedGroupExists data ↔
  ∀ id, AppData.activeSyncedGroupId data = Some id → id ∈ Group.id <$> AppData.groups data.
Proof.
  unfold syncedGroupExists. split; intros H id Hid; specialize (H id Hid).
  - destruct H as (g & Hg & Heq). apply list_elem_of_fmap. by exists g.
  - apply list_elem_of_fmap in H as (g & Heq & Hg). by exists g.
Qed.

Lemma find_group_elem (gs : list Group.t) (groupId : string) (g : Group.t) :
  find (λ g, String.eqb (Group.id g) groupId) gs = Some g → g ∈ gs ∧ Group.id g = groupId.
Proof.
  intros H. apply find_Some_elem in H as [Hin Hp]. by apply String.eqb_eq in Hp.
Qed.

(** X2. If the active synced group id, when it is set, is the id of one of
    the groups, this stays so after createGroup, updateGroupSharedTemplate,
    removeGroup, addGroupFromImport, applyGroupTemplateToUser,
    updateWeeklyTemplate, desyncActiveGroup, upsertDailyLog, addExercise and
    saveData. *)
Theorem syncedGroupExists_preserved (Date_getTime : string → option Z)
    (localeCompare : string → string → Z)
    (JSON_parse_group : string → option ImportedGroup.t)
    (JSON_stringify : AppData.t → string) (data : AppData.t) :
  syncedGroupExists data →
  (∀ name id code now, syncedGroupExists (createGroup data name id code now)) ∧
  (∀ groupId now, syncedGroupExists (updateGroupSharedTemplate data groupId now)) ∧
  (∀ groupId, syncedGroupExists (removeGroup data groupId)) ∧
  (∀ json, syncedGroupExists
             (ImportResult.newData
                (addGroupFromImport Date_getTime JSON_parse_group data json))) ∧
  (∀ groupId, syncedGroupExists (applyGroupTemplateToUser data groupId)) ∧
  (∀ template, syncedGroupExists (updateWeeklyTemplate data template)) ∧
  syncedGroupExists (desyncActiveGroup data) ∧
  (∀ log, syncedGroupExists (upsertDailyLog Date_getTime data log)) ∧
  (∀ name id, syncedGroupExists (addExercise localeCompare data name id).1) ∧
  syncedGroupExists (saveData localeCompare JSON_stringify data).1.
Proof.
  intros Hinv. repeat split.
  - intros name id code now. unfold createGroup.
    destruct (Js.is_empty (Js.trim name)); [exact Hinv|].
    intros x Hx. destruct (Hinv x Hx) as (g & Hg & Heq).
    exists g. split; [|exact Heq]. simpl. apply elem_of_app. by left.
  - intros groupId now. apply synced_by_ids. intros x Hx.
    destruct (updateGroupSharedTemplate_ids data groupId now) as [Hids Hact].
    rewrite Hids. rewrite Hact in Hx. by apply synced_by_ids.
  - intros groupId x Hx. rewrite removeGroup_groups.
    unfold removeGroup in Hx; simpl in Hx.
    destruct (AppData.activeSyncedGroupId data) as [active|] eqn:Hact; [|discriminate].
    destruct (String.eqb active groupId) eqn:E; [discriminate|].
    inversion Hx; subst. apply String.eqb_neq in E.
    destruct (Hinv x Hact) as (g & Hg & Heq). exists g. split; [|exact Heq].
    apply list_elem_of_filter. split; [congruence | exact Hg].
  - intros json. apply synced_by_ids. intros x Hx.
    destruct (addGroupFromImport_ids Date_getTime JSON_parse_group data json)
      as [Hact [Hids|(g & _ & Hids)]]; rewrite Hact in Hx; rewrite Hids.
    + by apply synced_by_ids.
    + apply elem_of_app. left. by apply synced_by_ids.
  - intros groupId. unfold applyGroupTemplateToUser.
    destruct (find _ (AppData.groups data)) as [group|] eqn:Hfind; [|exact Hinv].
    apply find_group_elem in Hfind as [Hin _].
    intros x Hx. simpl in Hx. inversion Hx; subst. by exists group.
  - intros template x Hx. discriminate.
  - unfold desyncActiveGroup. destruct (truthy _); [|exact Hinv].
    intros x Hx. discriminate.
  - intros log. exact Hinv.
  - intros name id. unfold addExercise.
    destruct (Js.is_empty _); [exact Hinv|]. destruct (find _ _); exact Hinv.
  - exact Hinv.
Qed.

(** X3. If no two groups share an id, this stays so after
    addGroupFromImport, updateGroupSharedTemplate, removeGroup and
    applyGroupTemplateToUser, and after createGroup when the fresh id is the
    id of no group. *)
Theorem uniqueGroupIds_preserved (Date_getTime : string → option Z)
    (JSON_parse_group : string → option ImportedGroup.t) (data : AppData.t) :
  uniqueGroupIds data →
  (∀ json, uniqueGroupIds
             (ImportResult.newData
                (addGroupFromImport Date_getTime JSON_parse_group data json))) ∧
  (∀ groupId now, uniqueGroupIds (updateGroupSharedTemplate data groupId now)) ∧
  (∀ groupId, uniqueGroupIds (removeGroup data groupId)) ∧
  (∀ groupId, uniqueGroupIds (applyGroupTemplateToUser data groupId)) ∧
  (∀ name id code now,
     (∀ g, g ∈ AppData.groups data → Group.id g ≠ id) →
     uniqueGroupIds (createGroup data name id code now)).
Proof.
  unfold uniqueGroupIds. intros Hnd. repeat split.
  - intros json.
    destruct (addGroupFromImport_ids Date_getTime JSON_parse_group data json)
      as [_ [Hids|(g & Hfresh & Hids)]]; rewrite Hids; [exact Hnd|].
    apply NoDup_app. split; [exact Hnd|]. split; [|apply NoDup_singleton].
    intros x Hx Hx'. apply list_elem_of_singleton in Hx'. by subst.
  - intros groupId now.
    by rewrite (proj1 (updateGroupSharedTemplate_ids data groupId now)).
  - intros groupId. rewrite removeGroup_groups.
    eapply sublist_NoDup; [exact Hnd|]. apply fmap_sublist, sublist_filter.
  - intros groupId. unfold applyGroupTemplateToUser.
    by destruct (find _ (AppData.groups data)).
  - intros name id code now Hfresh. unfold createGroup.
    destruct (Js.is_empty (Js.trim name)); [exact Hnd|]. simpl.
    rewrite fmap_app. apply NoDup_app. split; [exact Hnd|].
    split; [|apply NoDup_singleton].
    intros x Hx Hx'. apply list_elem_of_singleton in Hx'. subst.
    apply list_elem_of_fmap in Hx as (g & Heq & Hg). by apply (Hfresh g).
Qed.

(** X4. With a name that is not blank and a fresh id that no group has,
    createGroup appends one group of the trimmed name, owned by the user,
    with the given invite code and time and a copy of the current weekly
    template; syncing to it at once with applyGroupTemplateToUser leaves the
    weekly template as it was, makes the new group the active synced group
    and keeps the groups. *)
Theorem applyGroupTemplateToUser_createGroup (data : AppData.t)
    (name id code now : string) :
  Js.trim name ≠ "" →
  (∀ g, g ∈ AppData.groups data → Group.id g ≠ id) →
  let created := createGroup data name id code now in
  let synced := applyGroupTemplateToUser created id in
  AppData.weeklyTemplate synced = AppData.weeklyTemplate data ∧
  AppData.activeSyncedGroupId synced = Some id ∧
  AppData.groups synced = AppData.groups created ∧
  AppData.groups created
  = AppData.groups data ++
      [Group.mk id (Js.trim name) (AppData.userId data) code
         (AppData.weeklyTemplate data) now].
Proof.
  intros Hname Hfresh created synced.
  assert (Hcreated : created
            = with_groups data
                (AppData.groups data ++
                   [Group.mk id (Js.trim name) (AppData.userId data) code
                      (AppData.weeklyTemplate data) now])).
  { unfold created, createGroup. rewrite deepCopyTemplate_id.
    destruct (Js.trim name); [congruence | reflexivity]. }
  assert (Hfind : find (λ g, String.eqb (Group.id g) id) (AppData.groups created)
                  = Some (Group.mk id (Js.trim name) (AppData.userId data) code
                            (AppData.weeklyTemplate data) now)).
  { rewrite Hcreated. simpl.
    apply (find_first _ _ (length (AppData.groups data))).
    - by rewrite lookup_app_r, Nat.sub_diag.
    - apply String.eqb_refl.
    - intros j g Hj Hg. rewrite lookup_app_l in Hg by exact Hj.
      apply String.eqb_neq, Hfresh. by eapply list_elem_of_lookup_2. }
  unfold synced, applyGroupTemplateToUser. rewrite Hfind. simpl.
  rewrite deepCopyTemplate_id. repeat split. by rewrite Hcreated.
Qed.

(** X5. When addGroupFromImport reports no error, it returns an imported
    group that is among the groups of the new data, and
    applyGroupTemplateToUser on the id of that group makes its shared
    template the weekly template, makes it the active synced group and
    leaves the groups unchanged. *)
Theorem applyGroupTemplateToUser_addGroupFromImport
    (Date_getTime : string → option Z)
    (JSON_parse_group : string → option ImportedGroup.t)
    (appData : AppData.t) (groupJSON : string) :
  let r := addGroupFromImport Date_getTime JSON_parse_group appData groupJSON in
  ImportResult.error r = None →
  ∃ g, ImportResult.importedGroup r = Some g ∧
       g ∈ AppData.groups (ImportResult.newData r) ∧
       let synced := applyGroupTemplateToUser (ImportResult.newData r) (Group.id g) in
       AppData.weeklyTemplate synced = Group.sharedTemplate g ∧
       AppData.activeSyncedGroupId synced = Some (Group.id g) ∧
       AppData.groups synced = AppData.groups (ImportResult.newData r).
Proof.
  intros r Herr.
  assert (Happly : ∀ gs i g,
             gs !! i = Some g →
             (∀ j o, j < i → gs !! j = Some o → Group.id o ≠ Group.id g) →
             let synced := applyGroupTemplateToUser (with_groups appData gs) (Group.id g) in
             AppData.weeklyTemplate synced = Group.sharedTemplate g ∧
             AppData.activeSyncedGroupId synced = Some (Group.id g) ∧
             AppData.groups synced = gs).
  { intros gs i g Hi Hfirst. unfold applyGroupTemplateToUser. simpl.
    rewrite (find_first _ _ i g Hi).
    - simpl. by rewrite deepCopyTemplate_id.
    - apply String.eqb_refl.
    - intros j o Hj Ho. apply String.eqb_neq. by apply (Hfirst j). }
  unfold r, addGroupFromImport in *.
  destruct (JSON_parse_group groupJSON) as [p|]; [|discriminate].
  destruct (validateImported p) as [g|]; [|discriminate].
  assert (Happended :
    existsb (λ g0, String.eqb (Group.id g0) (Group.id g)) (AppData.groups appData) = false →
    ∃ g', Some g = Some g' ∧ g' ∈ AppData.groups appData ++ [g] ∧
       let synced := applyGroupTemplateToUser
                       (with_groups appData (AppData.groups appData ++ [g])) (Group.id g') in
       AppData.weeklyTemplate synced = Group.sharedTemplate g' ∧
       AppData.activeSyncedGroupId synced = Some (Group.id g') ∧
       AppData.groups synced = AppData.groups appData ++ [g]).
  { intros Hex. exists g. split; [reflexivity|].
    split; [apply elem_of_app; right; by apply list_elem_of_singleton|].
    apply (Happly _ (length (AppData.groups appData))).
    - by rewrite lookup_app_r, Nat.sub_diag.
    - intros j o Hj Ho Heq. rewrite lookup_app_l in Ho by exact Hj.
      apply (existsb_false_ids _ _ Hex). apply list_elem_of_fmap.
      exists o. split; [by symmetry | by eapply list_elem_of_lookup_2]. }
  destruct (existsb _ (AppData.groups appData)) eqn:Hex; [|by apply Happended].
  destruct (findIndex _ (AppData.groups appData)) as [i|] eqn:Hidx.
  - destruct (findIndex_Some _ _ _ Hidx) as (old & Hold & Hsame & Hbefore).
    rewrite Hold in Herr |- *.
    destruct (_ && _); [|discriminate]. simpl.
    exists g. split; [reflexivity|].
    assert (Hi : i < length (AppData.groups appData)) by (by eapply lookup_lt_Some).
    split; [apply list_elem_of_lookup; exists i; by apply list_lookup_insert_eq|].
    apply (Happly _ i).
    + by apply list_lookup_insert_eq.
    + intros j o Hj Ho. rewrite list_lookup_insert_ne in Ho by lia.
      apply String.eqb_neq. by apply (Hbefore j).
  - exfalso. apply findIndex_None in Hidx. rewrite Forall_forall in Hidx.
    apply existsb_exists in Hex as (x & Hx & Hp).
    rewrite (Hidx x) in Hp by (by apply list_elem_of_In). discriminate.
Qed.

Lemma updateGroupSharedTemplate_cases (appData : AppData.t) (groupId now : string) :
  let data' := updateGroupSharedTemplate appData groupId now in
  length (AppData.groups data') = length (AppData.groups appData) ∧
  (∀ i g, AppData.groups appData !! i = Some g →
          Group.id g ≠ groupId ∨ Group.ownerId g ≠ AppData.userId appData →
          AppData.groups data' !! i = Some g) ∧
  ((∀ g, g ∈ AppData.groups appData →
         Group.id g ≠ groupId ∨ Group.ownerId g ≠ AppData.userId appData) →
   data' = appData) ∧
  (∀ i g, AppData.groups appData !! i = Some g →
          Group.id g = groupId → Group.ownerId g = AppData.userId appData →
          (∀ j o, j < i → AppData.groups appData !! j = Some o →
                  Group.id o ≠ groupId ∨ Group.ownerId o ≠ AppData.userId appData) →
          AppData.groups data' !! i
          = Some (Group.mk (Group.id g) (Group.name g) (Group.ownerId g)
                    (Group.inviteCode g) (AppData.weeklyTemplate appData) now)) ∧
  data' = with_groups appData (AppData.groups data').
Proof.
  intros data'. unfold data', updateGroupSharedTemplate.
  set (mine := λ g, String.eqb (Group.id g) groupId
                    && String.eqb (Group.ownerId g) (AppData.userId appData)).
  assert (Hmine : ∀ g, mine g = false ↔
            Group.id g ≠ groupId ∨ Group.ownerId g ≠ AppData.userId appData).
  { intros g. unfold mine. rewrite andb_false_iff, !String.eqb_neq. tauto. }
  destruct (findIndex mine (AppData.groups appData)) as [k|] eqn:Hidx.
  - destruct (findIndex_Some _ _ _ Hidx) as (x & Hx & Hpx & Hbefore).
    simpl. split; [apply length_alter|]. split; [|split; [|split]].
    + intros i g Hi Hother. apply Hmine in Hother.
      rewrite list_lookup_alter_ne; [exact Hi|]. intros ->. congruence.
    + intros Hnone. exfalso.
      assert (mine x = false) by (apply Hmine, Hnone; by eapply list_elem_of_lookup_2).
      congruence.
    + intros i g Hi Hid Hown Hfirst.
      assert (i = k) as ->.
      { destruct (Nat.lt_trichotomy i k) as [Hlt|[Heq|Hgt]]; [|exact Heq|].
        - specialize (Hbefore i g Hlt Hi). unfold mine in Hbefore.
          rewrite (proj2 (String.eqb_eq _ _) Hid), (proj2 (String.eqb_eq _ _) Hown)
            in Hbefore. discriminate.
        - specialize (Hfirst k x Hgt Hx). apply Hmine in Hfirst. congruence. }
      rewrite list_lookup_alter_eq, Hi. simpl. by rewrite deepCopyTemplate_id.
    + reflexivity.
  - apply findIndex_None in Hidx. rewrite Forall_forall in Hidx.
    split; [reflexivity|]. split; [auto|]. split; [reflexivity|]. split.
    + intros i g Hi Hid Hown _. exfalso.
      assert (Hm : mine g = false) by (apply Hidx; by eapply list_elem_of_lookup_2).
      unfold mine in Hm.
      rewrite (proj2 (String.eqb_eq _ _) Hid), (proj2 (String.eqb_eq _ _) Hown) in Hm.
      discriminate.
    + by destruct appData.
Qed.

Lemma alter_insert_at {A} (f : A → A) (l : list A) (k : nat) (x : A) :
  l !! k = Some x → alter f k l = <[k := f x]> l.
Proof.
  intros Hx. apply list_eq. intros j. destruct (decide (j = k)) as [->|Hj].
  - rewrite list_lookup_alter_eq, Hx, list_lookup_insert_eq; [reflexivity|].
    by eapply lookup_lt_Some.
  - by rewrite list_lookup_alter_ne, list_lookup_insert_ne.
Qed.

(** X6. When no group has the given id and is owned by the user,
    updateGroupSharedTemplate returns the data unchanged.  Otherwise the
    result is the data with one group replaced, the first group that has
    the given id and is owned by the user: it gets the current weekly
    template and the new time and keeps its id, name, owner and invite code;
    every other group (a later one of the same id and owner too) and every
    other field of the data stay as they are. *)
Theorem updateGroupSharedTemplate_spec (appData : AppData.t) (groupId now : string) :
  let data' := updateGroupSharedTemplate appData groupId now in
  let mine := λ g, Group.id g = groupId ∧ Group.ownerId g = AppData.userId appData in
  ((∀ g, g ∈ AppData.groups appData → ¬ mine g) → data' = appData) ∧
  (∀ i g, AppData.groups appData !! i = Some g → mine g →
          (∀ j o, j < i → AppData.groups appData !! j = Some o → ¬ mine o) →
          data'
          = AppData.mk (AppData.userId appData) (AppData.exercises appData)
              (AppData.weeklyTemplate appData) (AppData.dailyLogs appData)
              (<[i := Group.mk (Group.id g) (Group.name g) (Group.ownerId g)
                        (Group.inviteCode g) (AppData.weeklyTemplate appData) now]>
                 (AppData.groups appData))
              (AppData.activeSyncedGroupId appData)).
Proof.
  intros data' mine. unfold data', updateGroupSharedTemplate.
  set (p := λ g, String.eqb (Group.id g) groupId
                 && String.eqb (Group.ownerId g) (AppData.userId appData)).
  assert (Hp : ∀ g, p g = true ↔ mine g).
  { intros g. unfold p, mine. by rewrite andb_true_iff, !String.eqb_eq. }
  destruct (findIndex p (AppData.groups appData)) as [k|] eqn:Hidx.
  - destruct (findIndex_Some _ _ _ Hidx) as (x & Hx & Hpx & Hbefore). split.
    + intros Hnone. exfalso. apply (Hnone x); [by eapply list_elem_of_lookup_2|].
      by apply Hp.
    + intros i g Hi Hg Hfirst.
      assert (i = k) as ->.
      { destruct (Nat.lt_trichotomy i k) as [Hlt|[Heq|Hgt]]; [|exact Heq|].
        - apply Hp in Hg. rewrite (Hbefore i g Hlt Hi) in Hg. discriminate.
        - exfalso. apply (Hfirst k x Hgt Hx). by apply Hp. }
      unfold with_groups. rewrite (alter_insert_at _ _ _ g Hi), deepCopyTemplate_id.
      reflexivity.
  - apply findIndex_None in Hidx. rewrite Forall_forall in Hidx. split; [reflexivity|].
    intros i g Hi Hg _. exfalso. apply Hp in Hg.
    rewrite (Hidx g) in Hg; [discriminate | by eapply list_elem_of_lookup_2].
Qed.

(** X7. When group ids are unique and the user owns the group of the given
    id, updateGroupSharedTemplate followed by applyGroupTemplateToUser on
    that id leaves the weekly template as it was and makes the group the
    active synced group. *)
Theorem applyGroupTemplateToUser_updateGroupSharedTemplate (appData : AppData.t)
    (groupId now : string) (g : Group.t) :
  uniqueGroupIds appData →
  g ∈ AppData.groups appData →
  Group.id g = groupId →
  Group.ownerId g = AppData.userId appData →
  let synced :=
    applyGroupTemplateToUser (updateGroupSharedTemplate appData groupId now) groupId in
  AppData.weeklyTemplate synced = AppData.weeklyTemplate appData ∧
  AppData.activeSyncedGroupId synced = Some groupId.
Proof.
  intros Hnd Hin Hid Hown synced.
  apply list_elem_of_lookup in Hin as [i Hi].
  assert (Huniq : ∀ j o, AppData.groups appData !! j = Some o →
                         Group.id o = groupId → j = i).
  { intros j o Hj Ho. apply (NoDup_lookup _ _ _ groupId Hnd);
      rewrite list_lookup_fmap; [by rewrite Hj; simpl; rewrite Ho
                                | by rewrite Hi; simpl; rewrite Hid]. }
  destruct (updateGroupSharedTemplate_cases appData groupId now)
    as (Hlen & Hother & _ & Hat & _).
  specialize (Hat i g Hi Hid Hown).
  assert (Hat' : AppData.groups (updateGroupSharedTemplate appData groupId now) !! i
                 = Some (Group.mk (Group.id g) (Group.name g) (Group.ownerId g)
                           (Group.inviteCode g) (AppData.weeklyTemplate appData) now)).
  { apply Hat. intros j o Hj Ho. left. intros Heq. specialize (Huniq j o Ho Heq). lia. }
  clear Hat.
  unfold synced, applyGroupTemplateToUser.
  rewrite (find_first _ _ i _ Hat').
  - simpl. rewrite deepCopyTemplate_id. split; [reflexivity|]. by rewrite Hid.
  - simpl. apply String.eqb_eq. exact Hid.
  - intros j o Hj Ho. apply String.eqb_neq. intros Heq.
    assert (Hj' : j < length (AppData.groups appData)).
    { rewrite <- Hlen. by eapply lookup_lt_Some. }
    destruct (lookup_lt_is_Some_2 _ _ Hj') as [o' Ho'].
    assert (Ho'id : Group.id o' ≠ groupId).
    { intros Heq'. specialize (Huniq j o' Ho' Heq'). lia. }
    rewrite (Hother j o' Ho' (or_introl Ho'id)) in Ho. inversion Ho; subst. contradiction.
Qed.

Lemma filter_no_group (gs : list Group.t) (groupId : string) :
  (∀ g, g ∈ gs → Group.id g ≠ groupId) →
  List.filter (λ g, negb (String.eqb (Group.id g) groupId)) gs = gs.
Proof.
  induction gs as [|a gs IH]; intros Hnone; [reflexivity|]. simpl.
  rewrite (proj2 (String.eqb_neq _ _)) by (apply Hnone; left). simpl.
  f_equal. apply IH. intros g Hg. apply Hnone. by right.
Qed.

(** X8. removeGroup keeps exactly the groups with another id, in order;
    afterwards the active synced group id is never the removed id, and it is
    unchanged if it was another one; applying the template of the removed
    group or removing it again then changes nothing; the user id, the
    exercises, the weekly template and the logs are kept. *)
Theorem removeGroup_spec (appData : AppData.t) (groupId : string) :
  let data' := removeGroup appData groupId in
  AppData.groups data' = filter (λ g, Group.id g ≠ groupId) (AppData.groups appData) ∧
  AppData.activeSyncedGroupId data' ≠ Some groupId ∧
  (AppData.activeSyncedGroupId appData ≠ Some groupId →
   AppData.activeSyncedGroupId data' = AppData.activeSyncedGroupId appData) ∧
  applyGroupTemplateToUser data' groupId = data' ∧
  removeGroup data' groupId = data' ∧
  AppData.userId data' = AppData.userId appData ∧
  AppData.exercises data' = AppData.exercises appData ∧
  AppData.weeklyTemplate data' = AppData.weeklyTemplate appData ∧
  AppData.dailyLogs data' = AppData.dailyLogs appData.
Proof.
  intros data'.
  assert (Hgroups : AppData.groups data'
                    = filter (λ g, Group.id g ≠ groupId) (AppData.groups appData))
    by apply removeGroup_groups.
  assert (Hnone : ∀ g, g ∈ AppData.groups data' → Group.id g ≠ groupId).
  { intros g Hg. rewrite Hgroups in Hg. by apply list_elem_of_filter in Hg as [? _]. }
  assert (Hact : AppData.activeSyncedGroupId data' ≠ Some groupId).
  { unfold data', removeGroup; simpl.
    destruct (AppData.activeSyncedGroupId appData) as [active|]; [|discriminate].
    destruct (String.eqb active groupId) eqn:E; [discriminate|].
    apply String.eqb_neq in E. congruence. }
  split; [exact Hgroups|]. split; [exact Hact|]. split; [|split; [|split]].
  - intros Hne. unfold data', removeGroup; simpl.
    destruct (AppData.activeSyncedGroupId appData) as [active|]; [|reflexivity].
    destruct (String.eqb active groupId) eqn:E; [|reflexivity].
    apply String.eqb_eq in E. congruence.
  - unfold applyGroupTemplateToUser. rewrite find_none; [reflexivity|].
    intros g Hg. apply String.eqb_neq. by apply Hnone.
  - unfold removeGroup at 1. rewrite (filter_no_group _ _ Hnone).
    destruct (AppData.activeSyncedGroupId data') as [active|] eqn:Hactive.
    + destruct (String.eqb active groupId) eqn:E.
      * apply String.eqb_eq in E. congruence.
      * destruct data'; simpl in *; congruence.
    + destruct data'; simpl in *; congruence.
  - repeat split.
Qed.

(** *** Saving and loading *)

Lemma sort_of_sorted {A : Type} (gt : A → A → bool) (l : list A) :
  StronglySorted (λ a b, gt a b = false) l → Js.sort gt l = l.
Proof.
  induction 1 as [|a l Hs IH Hall]; [reflexivity|]. simpl. rewrite IH.
  destruct l as [|b l]; [reflexivity|]. simpl.
  inversion Hall; subst. by rewrite H1.
Qed.

Lemma sort_exercises_idempotent (localeCompare : string → string → Z)
    (es : list Exercise.t) :
  consistent_collation localeCompare →
  Js.sort (exercise_gt localeCompare) (Js.sort (exercise_gt localeCompare) es)
  = Js.sort (exercise_gt localeCompare) es.
Proof.
  intros [Htotal Htrans]. apply sort_of_sorted.
  apply (sort_StronglySorted (exercise_gt localeCompare) (λ _, True)).
  - intros a b _ _. unfold exercise_gt.
    destruct (0 <? localeCompare (Exercise.name a) (Exercise.name b))%Z eqn:E;
      [|reflexivity].
    apply Z.ltb_lt in E. apply Z.ltb_ge.
    destruct (Htotal (Exercise.name a) (Exercise.name b)); [lia | assumption].
  - intros a b c _ _ _. unfold exercise_gt. rewrite !Z.ltb_ge. apply Htrans.
  - by apply Forall_true.
Qed.

Lemma repair_stored_template (tpl : list WeeklyTemplateDay.t) :
  imap repairDay
       (map (λ d, Some (StoredDay.mk (Some (WeeklyTemplateDay.dayOfWeek d))
                          (Some (WeeklyTemplateDay.exercises d)))) tpl)
  = tpl.
Proof.
  apply list_eq. intros i. rewrite list_lookup_imap, list_lookup_fmap.
  destruct (tpl !! i) as [[d es]|]; reflexivity.
Qed.

(** X9. For data with a 7-day template, a non-empty user id and an active
    synced group id that is not the empty string, under a consistent
    collation: if the text that saveData writes is not empty and JSON.parse
    reads it back as the document of the saved data, then loadData returns
    exactly the data that saveData left (the exercises sorted by name), and
    saving that data again leaves the same data and text. *)
Theorem loadData_saveData (localeCompare : string → string → Z)
    (JSON_parse_data : string → option StoredData.t)
    (JSON_stringify : AppData.t → string) (data : AppData.t) (freshId : string) :
  consistent_collation localeCompare →
  length (AppData.weeklyTemplate data) = 7 →
  AppData.userId data ≠ "" →
  AppData.activeSyncedGroupId data ≠ Some "" →
  let saved := saveData localeCompare JSON_stringify data in
  saved.2 ≠ "" →
  JSON_parse_data saved.2 = Some (toStored saved.1) →
  loadData localeCompare JSON_parse_data (Some saved.2) freshId = Some saved.1 ∧
  saveData localeCompare JSON_stringify saved.1 = saved.
Proof.
  intros Hc Hlen Huser Hact saved. unfold saved, saveData. simpl.
  rewrite sort_exercises_idempotent by exact Hc.
  generalize (JSON_stringify
                (AppData.mk (AppData.userId data)
                   (Js.sort (exercise_gt localeCompare) (AppData.exercises data))
                   (AppData.weeklyTemplate data) (AppData.dailyLogs data)
                   (AppData.groups data) (AppData.activeSyncedGroupId data))).
  intros text Htext Hparse. split; [|reflexivity].
  unfold loadData.
  assert (Htruthy : truthy (Some text) = true).
  { simpl. destruct text; [congruence | reflexivity]. }
  rewrite Htruthy. simpl default. rewrite Hparse. simpl.
  rewrite length_map, Hlen. simpl.
  rewrite repair_stored_template, sort_exercises_idempotent by exact Hc.
  destruct data as [u es tpl logs gs act]; simpl in Huser, Hact |- *.
  destruct u as [|c u]; [congruence|]. simpl.
  destruct act as [[|c' a]|]; [congruence | reflexivity | reflexivity].
Qed.

(** X10. When the exercise names are distinct without regard to letter case,
    adding a name that is not blank returns an exercise whose name is that
    name up to letter case, and adding the same name again, in any letter
    case and with blanks around it, returns that same exercise and leaves
    the data unchanged. *)
Theorem addExercise_again (localeCompare : string → string → Z)
    (data : AppData.t) (name name' id id' : string) :
  NoDup (lowerName <$> AppData.exercises data) →
  Js.trim name ≠ "" →
  Js.toLowerCase (Js.trim name') = Js.toLowerCase (Js.trim name) →
  let first := addExercise localeCompare data name id in
  ∃ ex, first.2 = Some ex ∧
        lowerName ex = Js.toLowerCase (Js.trim name) ∧
        addExercise localeCompare first.1 name' id' = (first.1, Some ex).
Proof.
  intros Hnd Hname Hsame first.
  assert (Hname' : Js.is_empty (Js.trim name') = false).
  { destruct (Js.trim name'); [|reflexivity]. destruct (Js.trim name); [congruence|].
    discriminate. }
  assert (Hnonempty : Js.is_empty (Js.trim name) = false).
  { destruct (Js.trim name); [congruence | reflexivity]. }
  unfold first, addExercise. rewrite Hnonempty.
  destruct (find _ (AppData.exercises data)) as [ex|] eqn:Hfind; simpl.
  - exists ex. pose proof Hfind as Hfound. apply find_Some_elem in Hfound as [_ Hlow].
    apply String.eqb_eq in Hlow.
    split; [reflexivity|]. split; [exact Hlow|].
    by rewrite Hname', Hsame, Hfind.
  - eexists. split; [reflexivity|]. split; [reflexivity|].
    rewrite Hname', Hsame. simpl.
    set (new := Exercise.mk id (Js.trim name)).
    assert (Hperm : Js.sort (exercise_gt localeCompare) (AppData.exercises data ++ [new])
                    ≡ₚ new :: AppData.exercises data).
    { rewrite sort_Permutation. by rewrite Permutation_app_comm. }
    change (find _ (Js.sort _ _))
      with (find (λ y, String.eqb (lowerName y) (Js.toLowerCase (Js.trim name)))
                 (Js.sort (exercise_gt localeCompare) (AppData.exercises data ++ [new]))).
    rewrite (find_unique lowerName _ _ new); [reflexivity| | |reflexivity].
    + rewrite Hperm, fmap_cons. apply NoDup_cons. split; [|exact Hnd].
      intros Hin. apply list_elem_of_fmap in Hin as (x & Hx & Hin).
      pose proof (find_None_all _ _ Hfind x Hin) as Hno. simpl in Hno.
      apply String.eqb_neq in Hno. apply Hno. symmetry. exact Hx.
    + rewrite Hperm. left.
Qed.

(** ** More of the plan-text parser *)

Lemma digit_not_space (c : ascii) : Js.is_digit c = true → Js.is_space c = false.
Proof. destruct c as [[] [] [] [] [] [] [] []]; vm_compute; congruence. Qed.

Lemma all_digits_no_space (s : string) : Js.all_digits s = true → hasSpace s = false.
Proof.
  induction s as [|c s IH]; simpl; [reflexivity|].
  intros H. apply andb_true_iff in H as [Hc Hs].
  by rewrite (digit_not_space c Hc), (IH Hs).
Qed.

Lemma trimEnd_no_space (s : string) : hasSpace s = false → Js.trimEnd s = s.
Proof.
  induction s as [|c s IH]; simpl; [reflexivity|].
  intros H. apply orb_false_iff in H as [Hc Hs].
  by rewrite Hc, (IH Hs).
Qed.

Lemma trim_no_space (s : string) : hasSpace s = false → Js.trim s = s.
Proof.
  intros H. unfold Js.trim. rewrite (trimEnd_no_space s H).
  destruct s as [|c s]; [reflexivity|]. simpl in H |- *.
  apply orb_false_iff in H as [Hc _]. by rewrite Hc.
Qed.

Lemma span_all_digits (s : string) : Js.all_digits s = true → span_digits s = (s, "").
Proof.
  induction s as [|c s IH]; simpl; [reflexivity|].
  intros H. apply andb_true_iff in H as [Hc Hs]. by rewrite Hc, (IH Hs).
Qed.

Lemma validRepPattern_digits (s : string) : Js.is_digits s = true → validRepPattern s = true.
Proof.
  unfold Js.is_digits, validRepPattern. intros H. apply andb_true_iff in H as [Hne Hd].
  rewrite (span_all_digits s Hd). by rewrite Hne.
Qed.

Lemma is_digits_trim (s : string) : Js.is_digits s = true → Js.trim s = s.
Proof.
  unfold Js.is_digits. intros H. apply andb_true_iff in H as [_ Hd].
  by apply trim_no_space, all_digits_no_space.
Qed.

Lemma extract_wellFormed (textBlock : string) (item : ParsedCSVExercisePlanItem.t) :
  extractWorkoutFromTextBlock textBlock = Some item →
  wellFormedItem item ∧ ParsedCSVExercisePlanItem.originalIndex item = None.
Proof.
  unfold extractWorkoutFromTextBlock.
  destruct (Js.is_empty (Js.trim textBlock)); [discriminate|].
  destruct (length _ <? 2); [discriminate|].
  destruct (scanParts _ _ 0 []) as [movementParts [[[setsStr repsStr] setsIndex]|]];
    [|discriminate].
  destruct (Js.is_empty _) eqn:Hname; [discriminate|].
  destruct ((Js.parseInt setsStr <=? 0)%N || (100 <=? Js.parseInt setsStr)%N) eqn:Hsets;
    [discriminate|].
  intros H. inversion H; subst; clear H. unfold wellFormedItem, baseItem; simpl.
  apply orb_false_iff in Hsets as [Hlow Hhigh].
  apply N.leb_gt in Hlow, Hhigh.
  split; [|reflexivity]. split; [|split; [lia|]].
  - intros Heq. rewrite Heq in Hname. discriminate.
  - intros r Hr.
    destruct repsStr as [reps|].
    + destruct (negb (validRepPattern (Js.trim reps)) && negb (Js.is_digits (Js.trim reps)))
        eqn:Hbad.
      * destruct (_ !! (setsIndex + 1)) as [p|]; [|discriminate].
        destruct (Js.is_digits p) eqn:Hp; [|discriminate]. simpl in Hr.
        destruct (Js.is_empty p); [discriminate|]. inversion Hr; subst.
        rewrite (is_digits_trim p Hp). by apply validRepPattern_digits.
      * simpl in Hr. destruct (Js.is_empty reps); [discriminate|]. inversion Hr; subst.
        apply andb_false_iff in Hbad as [Hv|Hd].
        -- by apply negb_false_iff in Hv.
        -- apply negb_false_iff in Hd. by apply validRepPattern_digits.
    + destruct (_ !! (setsIndex + 1)) as [p|]; [|discriminate].
      destruct (Js.is_digits p) eqn:Hp; [|discriminate]. simpl in Hr.
      destruct (Js.is_empty p); [discriminate|]. inversion Hr; subst.
      rewrite (is_digits_trim p Hp). by apply validRepPattern_digits.
Qed.

(** A block needs a name and a number: a blank block, or a block of one
    word, yields no item. *)
Lemma extract_blank (textBlock : string) :
  Js.trim textBlock = "" → extractWorkoutFromTextBlock textBlock = None.
Proof. intros H. unfold extractWorkoutFromTextBlock. by rewrite H. Qed.

Lemma extract_one_word (textBlock : string) :
  hasSpace (Js.trim textBlock) = false → extractWorkoutFromTextBlock textBlock = None.
Proof.
  intros H. unfold extractWorkoutFromTextBlock.
  destruct (Js.is_empty (Js.trim textBlock)); [reflexivity|].
  unfold Js.split_ws. rewrite (split_ws_no_space _ H).
  rewrite filter_cons. destruct (decide _); reflexivity.
Qed.

(** X11. Every item that extractWorkoutFromTextBlock returns has a non-empty
    name, between 1 and 99 sets, repetitions (if any) that match the
    repetition pattern, and no original index; a block that is a single
    word, without white space once trimmed, yields no item. *)
Theorem extractWorkoutFromTextBlock_sound (textBlock : string) :
  (∀ item, extractWorkoutFromTextBlock textBlock = Some item →
           wellFormedItem item ∧ ParsedCSVExercisePlanItem.originalIndex item = None) ∧
  (hasSpace (Js.trim textBlock) = false → extractWorkoutFromTextBlock textBlock = None).
Proof.
  split; [apply extract_wellFormed | apply extract_one_word].
Qed.

Lemma detectDay_Some (ls : list string) (i0 d i : nat) :
  detectDay ls i0 = Some (d, i) → ∃ l, l ∈ ls ∧ dayOfLine l = Some d.
Proof.
  revert i0. induction ls as [|a ls IH]; intros i0 H; simpl in H; [discriminate|].
  destruct (dayOfLine a) as [d'|] eqn:Hd.
  - inversion H; subst. exists a. split; [left | exact Hd].
  - destruct (IH _ H) as (l & Hl & Hday). exists l. split; [by right | exact Hday].
Qed.

Lemma dayOfLine_lt (line : string) (d : nat) : dayOfLine line = Some d → d < 7.
Proof.
  unfold dayOfLine. intros H.
  destruct (findIndex _ DAYS_OF_WEEK) as [k|] eqn:Hk; [|discriminate].
  destruct (_ && _); [|discriminate]. inversion H; subst.
  destruct (findIndex_Some _ _ _ Hk) as (day & Hday & _).
  apply lookup_lt_Some in Hday. exact Hday.
Qed.

Lemma tagged_lookup (bases : list ParsedCSVExercisePlanItem.t) (i : nat)
    (item : ParsedCSVExercisePlanItem.t) :
  tagged bases !! i = Some item →
  ∃ base, bases !! i = Some base ∧ item = withOriginalIndex base i.
Proof.
  unfold tagged. rewrite list_lookup_imap. intros H.
  destruct (bases !! i) as [base|]; [|discriminate]. inversion H. by exists base.
Qed.

Lemma omap_extract_wellFormed (cell : string → string) (ls : list string) :
  Forall (λ base, wellFormedItem base)
         (omap (λ line, extractWorkoutFromTextBlock (cell line)) ls).
Proof.
  apply Forall_forall. intros base Hin.
  apply list_elem_of_omap in Hin as (line & _ & Hex).
  by apply extract_wellFormed in Hex as [? _].
Qed.

Lemma itemsOfLines_lookup (cell : string → string) (ls : list string) (i : nat)
    (item : ParsedCSVExercisePlanItem.t) :
  itemsOfLines cell ls !! i = Some item →
  ParsedCSVExercisePlanItem.originalIndex item = Some i ∧ wellFormedItem item.
Proof.
  unfold itemsOfLines. intros H.
  apply tagged_lookup in H as (base & Hbase & ->).
  split; [reflexivity|].
  pose proof (omap_extract_wellFormed cell (filter nonBlank ls)) as Hall.
  rewrite Forall_forall in Hall.
  specialize (Hall base (list_elem_of_lookup_2 _ _ _ Hbase)).
  exact Hall.
Qed.

(** X12. In every plan that parseFullWorkoutPlanFromText returns the keys
    are weekdays 0 to 6, and the i-th item of each day has original index i,
    a non-empty name, between 1 and 99 sets and repetitions (if any) that
    match the repetition pattern. *)
Theorem parseFullWorkoutPlanFromText_sound (rawText : string) (day : nat)
    (items : list ParsedCSVExercisePlanItem.t) :
  parseFullWorkoutPlanFromText rawText !! day = Some items →
  day < 7 ∧
  ∀ i item, items !! i = Some item →
            ParsedCSVExercisePlanItem.originalIndex item = Some i ∧ wellFormedItem item.
Proof.
  unfold parseFullWorkoutPlanFromText.
  set (lines := linesOf rawText).
  destruct (detectDay (take (Nat.min (length lines) 5) lines) 0) as [[d i0]|] eqn:Hdet.
  - destruct (findHeader lines (i0 + 1)) as [h|]; [|by rewrite lookup_empty].
    intros H. apply lookup_singleton_Some in H as [<- <-].
    destruct (detectDay_Some _ _ _ _ Hdet) as (l & _ & Hday).
    split; [by apply (dayOfLine_lt l)|].
    intros i item Hi. rewrite (collectDay_spec _ []) in Hi. simpl in Hi.
    by apply (itemsOfLines_lookup (λ l, l)) in Hi.
  - destruct (findHeader lines 0) as [h|]; [|by rewrite lookup_empty].
    destruct (length _ =? 0); [by rewrite lookup_empty|].
    unfold columnDefinitionsOf.
    set (header := default "" (lines !! h)).
    set (cds := columnDefinitionsFrom (String.length header) dayOrderForColumns
                  (colStartsOf header)).
    pose proof (columnDefinitions_find (String.length header) (colStartsOf header) day)
      as Hcol.
    pose proof (columnDefinitions_NoDup (String.length header) (colStartsOf header)) as Hnd.
    fold cds in Hcol, Hnd.
    intros H. apply map_lookup_filter_Some in H as [Htemp Hne]. simpl in Hne.
    destruct (find (dayIs day) cds) as [c|] eqn:Hc.
    + assert (Hlt : day < 7).
      { destruct (columnOfDay day) eqn:Hk; [|discriminate].
        do 6 (destruct day as [|day]; [lia|]). discriminate. }
      split; [exact Hlt|].
      assert (Hday : emptyByDay !! day = Some (tagged [])).
      { rewrite emptyByDay_lookup. by rewrite decide_True. }
      rewrite (fold_stepLine_column cds _ day c _ [] Hnd Hc Hday) in Htemp.
      inversion Htemp; subst. intros i item Hi.
      by apply (itemsOfLines_lookup (λ l, textBlockOf l c)) in Hi.
    + exfalso. rewrite (fold_stepLine_other cds _ day _ Hnd Hc), emptyByDay_lookup in Htemp.
      case_decide; [|discriminate]. inversion Htemp; subst. by apply Hne.
Qed.

Lemma findIndex_all_false {A : Type} (p : A → bool) (l : list A) :
  (∀ x, x ∈ l → p x = false) → findIndex p l = None.
Proof.
  induction l as [|a l IH]; intros H; [reflexivity|]. simpl.
  rewrite (H a) by left. rewrite IH; [reflexivity|]. intros x Hx. apply H. by right.
Qed.

(** X13. A text in which no line mentions both [movement] and [sets] (in any
    letter case) yields the empty plan. *)
Theorem parseFullWorkoutPlanFromText_no_header (rawText : string) :
  (∀ line, line ∈ linesOf rawText → ¬ isHeaderRow line) →
  parseFullWorkoutPlanFromText rawText = ∅.
Proof.
  intros Hnone. unfold parseFullWorkoutPlanFromText.
  set (lines := linesOf rawText) in *.
  assert (Hfind : ∀ start, findHeader lines start = None).
  { intros start. unfold findHeader, findFrom.
    assert (Hsub : ∀ x, x ∈ drop start lines → x ∈ lines).
    { intros x Hx. by eapply subseteq_drop. }
    rewrite !findIndex_all_false; [reflexivity| |].
    - intros x Hx. apply not_true_is_false. intros Ht.
      apply isShortHeader_iff in Ht. exact (Hnone x (Hsub x Hx) Ht).
    - intros x Hx. apply not_true_is_false. intros Ht.
      apply isFullHeader_iff in Ht. destruct Ht as [Ht _]. exact (Hnone x (Hsub x Hx) Ht). }
  by rewrite Hfind.
Qed.

(** ** The comma-separated plan *)

Lemma all_space_trimEnd (s : string) : Js.all_space (Js.trimEnd s) = Js.all_space s.
Proof.
  induction s as [|c s IH]; [reflexivity|].
  cbn [Js.trimEnd]. destruct (Js.all_space (String c s)) eqn:E; [reflexivity|].
  simpl. rewrite IH. exact E.
Qed.

Lemma trimStart_empty (s : string) : Js.trimStart s = "" ↔ Js.all_space s = true.
Proof.
  induction s as [|c s IH]; simpl; [tauto|].
  destruct (Js.is_space c); simpl; [exact IH|]. split; discriminate.
Qed.

Lemma trim_empty (s : string) : Js.trim s = "" ↔ Js.all_space s = true.
Proof. unfold Js.trim. by rewrite trimStart_empty, all_space_trimEnd. Qed.

Lemma all_space_split (sep : ascii) (s : string) :
  Js.all_space s = true → Forall (λ r, Js.all_space r = true) (Js.split_char sep s).
Proof.
  induction s as [|c s IH]; simpl; intros H; [by repeat constructor|].
  apply andb_true_iff in H as [Hc Hs]. specialize (IH Hs).
  destruct (Ascii.eqb c sep); [by constructor|].
  destruct (Js.split_char sep s) as [|w ws].
  - constructor; [simpl; by rewrite Hc | constructor].
  - inversion IH; subst. constructor; [|assumption]. simpl. by rewrite Hc.
Qed.

Lemma fold_items (rows : list string) (acc : list ParsedCSVExercisePlanItem.t) :
  fold_left (λ items row,
               match csvItemOfRow row with
               | Some item => items ++ [item]
               | None => items
               end) rows acc
  = acc ++ omap csvItemOfRow rows.
Proof.
  revert acc. induction rows as [|row rows IH]; intros acc; simpl.
  - by rewrite app_nil_r.
  - rewrite IH. destruct (csvItemOfRow row); [|reflexivity]. by rewrite <- app_assoc.
Qed.

(** The rows that the parser reads. *)
Lemma parseCSV_rows (csvText : string) :
  parseCSVExercisePlan csvText
  = omap csvItemOfRow
         (List.filter (λ row, negb (Js.is_empty row))
                      (map Js.trim (Js.split_char newline csvText))).
Proof.
  unfold parseCSVExercisePlan.
  destruct (Js.is_empty (Js.trim csvText)) eqn:E; [|apply fold_items].
  assert (Hblank : Js.all_space csvText = true).
  { apply trim_empty. by destruct (Js.trim csvText). }
  pose proof (all_space_split newline csvText Hblank) as Hrows.
  induction Hrows as [|r rows Hr _ IH]; [reflexivity|]. simpl.
  rewrite (proj2 (trim_empty r) Hr). simpl. exact IH.
Qed.

Lemma split_char_nonempty (sep : ascii) (s : string) : Js.split_char sep s ≠ [].
Proof.
  destruct s as [|c s]; simpl; [discriminate|].
  destruct (Ascii.eqb c sep); [discriminate|].
  destruct (Js.split_char sep s); discriminate.
Qed.

Lemma split_char_app (sep : ascii) (a b : string) :
  Js.split_char sep (String.append a (String sep b))
  = Js.split_char sep a ++ Js.split_char sep b.
Proof.
  induction a as [|c a IH]; simpl.
  - by rewrite Ascii.eqb_refl.
  - destruct (Ascii.eqb c sep); [by rewrite IH|].
    rewrite IH. pose proof (split_char_nonempty sep a) as Hne.
    destruct (Js.split_char sep a) as [|w ws]; [congruence | reflexivity].
Qed.

Lemma split_char_none (sep : ascii) (s : string) :
  hasChar sep s = false → Js.split_char sep s = [s].
Proof.
  induction s as [|c s IH]; simpl; [reflexivity|].
  intros H. apply orb_false_iff in H as [Hc Hs]. by rewrite Hc, (IH Hs).
Qed.

Lemma filter_app_bool {A : Type} (p : A → bool) (l k : list A) :
  List.filter p (l ++ k) = List.filter p l ++ List.filter p k.
Proof. apply List.filter_app. Qed.

(** X14. parseCSVExercisePlan of two texts joined by a newline returns the
    items of the first text followed by the items of the second. *)
Theorem parseCSVExercisePlan_lines (a b : string) :
  parseCSVExercisePlan (String.append a (String newline b))
  = parseCSVExercisePlan a ++ parseCSVExercisePlan b.
Proof.
  rewrite !parseCSV_rows, split_char_app, map_app, filter_app_bool.
  apply omap_app.
Qed.

Lemma csvItemOfRow_sound (row : string) (item : ParsedCSVExercisePlanItem.t) :
  csvItemOfRow row = Some item →
  ParsedCSVExercisePlanItem.name item ≠ "" ∧
  (0 < ParsedCSVExercisePlanItem.targetSets item)%N ∧
  ParsedCSVExercisePlanItem.targetReps item ≠ Some "" ∧
  ParsedCSVExercisePlanItem.originalIndex item = None.
Proof.
  unfold csvItemOfRow. destruct (2 <=? _); [|discriminate].
  destruct (parseIntOf _) as [n|]; [|discriminate].
  destruct (negb (Js.is_empty _) && (0 <? n)%Z) eqn:E; [|discriminate].
  apply andb_true_iff in E as [Hname Hn]. apply Z.ltb_lt in Hn.
  intros H. inversion H; subst; clear H. simpl.
  split; [|split; [lia|split; [|reflexivity]]].
  - intros Heq. rewrite Heq in Hname. discriminate.
  - intros Heq.
    match type of Heq with
    | (?o ≫= _) = _ => destruct o as [[|c r]|]; discriminate Heq
    end.
Qed.

Lemma omap_length_le {A B : Type} (f : A → option B) (l : list A) :
  length (omap f l) ≤ length l.
Proof.
  induction l as [|a l IH]; csimpl; [lia|]. destruct (f a); csimpl; lia.
Qed.

(** X15. Every item that parseCSVExercisePlan returns has a non-empty name,
    a positive number of sets, repetitions that are absent or non-empty, and
    no original index; there are at most as many items as lines in the text;
    a blank text yields no item. *)
Theorem parseCSVExercisePlan_sound (csvText : string) :
  (∀ item, item ∈ parseCSVExercisePlan csvText →
           ParsedCSVExercisePlanItem.name item ≠ "" ∧
           (0 < ParsedCSVExercisePlanItem.targetSets item)%N ∧
           ParsedCSVExercisePlanItem.targetReps item ≠ Some "" ∧
           ParsedCSVExercisePlanItem.originalIndex item = None) ∧
  length (parseCSVExercisePlan csvText) ≤ length (Js.split_char newline csvText) ∧
  (Js.trim csvText = "" → parseCSVExercisePlan csvText = []).
Proof.
  split; [|split].
  - intros item Hin. rewrite parseCSV_rows in Hin.
    apply list_elem_of_omap in Hin as (row & _ & Hrow). by apply (csvItemOfRow_sound row).
  - rewrite parseCSV_rows.
    etransitivity; [apply omap_length_le|].
    etransitivity; [apply List.filter_length_le|]. by rewrite length_map.
  - intros H. unfold parseCSVExercisePlan. by rewrite H.
Qed.

Lemma append_nil_r (s : string) : String.append s "" = s.
Proof.
  induction s as [|c s IH]; [reflexivity|].
  change (String c (String.append s "") = String c s). by rewrite IH.
Qed.

Lemma hasChar_app (c : ascii) (a b : string) :
  hasChar c (String.append a b) = hasChar c a || hasChar c b.
Proof.
  induction a as [|x a IH]; simpl; [reflexivity|]. by rewrite IH, orb_assoc.
Qed.

Lemma all_space_app (a b : string) :
  Js.all_space (String.append a b) = Js.all_space a && Js.all_space b.
Proof.
  induction a as [|x a IH]; simpl; [reflexivity|]. by rewrite IH, andb_assoc.
Qed.

Lemma trimEnd_app (a b : string) :
  Js.all_space b = false →
  Js.trimEnd (String.append a b) = String.append a (Js.trimEnd b).
Proof.
  intros Hb. induction a as [|x a IH]; [reflexivity|].
  simpl. by rewrite all_space_app, Hb, andb_false_r, andb_false_r, IH.
Qed.

Lemma csvField_all_space (s : string) : csvField s → Js.all_space s = false.
Proof.
  intros (Hne & _ & Hend & _). destruct s as [|c s]; [congruence|].
  cbn [Js.trimEnd] in Hend. by destruct (Js.all_space (String c s)).
Qed.

Lemma csvField_trim (s : string) : csvField s → Js.trim s = s.
Proof. intros (_ & Hstart & Hend & _). unfold Js.trim. by rewrite Hend. Qed.

Lemma csvField_head (s : string) :
  csvField s → ∃ c r, s = String c r ∧ Js.is_space c = false.
Proof.
  intros (Hne & Hstart & _). destruct s as [|c r]; [congruence|].
  exists c, r. split; [reflexivity|]. simpl in Hstart.
  destruct (Js.is_space c) eqn:E; [|reflexivity]. exfalso.
  assert (Hlen : String.length (Js.trimStart r) ≤ String.length r).
  { clear. induction r as [|x r IH]; simpl; [lia|]. destruct (Js.is_space x); simpl; lia. }
  rewrite Hstart in Hlen. simpl in Hlen. lia.
Qed.

Lemma digit_not_comma_newline (c : ascii) :
  Js.is_digit c = true →
  Ascii.eqb c "," = false ∧ Ascii.eqb c newline = false ∧ Js.is_space c = false ∧
  Ascii.eqb c "-" = false ∧ Ascii.eqb c "+" = false.
Proof. destruct c as [[] [] [] [] [] [] [] []]; vm_compute; intros; repeat split; congruence. Qed.

Lemma toDouble_small (n : N) : (n < 2 ^ 53)%N → Js.toDouble n = n.
Proof.
  intros H. unfold Js.toDouble.
  destruct (N.size n <=? 53)%N eqn:E; [reflexivity|].
  apply N.leb_gt in E. exfalso.
  destruct (N.eq_dec n 0%N) as [->|Hn]; [simpl in E; lia|].
  rewrite N.size_log2 in E by exact Hn.
  assert (N.log2 n < 53)%N by (apply N.log2_lt_pow2; lia).
  lia.
Qed.

Lemma toDouble_large (n : N) : (2 ^ 53 ≤ n)%N → (2 ^ 53 ≤ Js.toDouble n)%N.
Proof.
  intros H. unfold Js.toDouble.
  destruct (N.size n <=? 53)%N eqn:E; [exact H|].
  apply N.leb_gt in E.
  assert (Hn : n ≠ 0%N) by (intros ->; simpl in H; lia).
  rewrite N.size_log2 in * by exact Hn.
  set (shift := (N.succ (N.log2 n) - 53)%N).
  assert (Hk : (2 ^ 52 ≤ N.shiftr n shift)%N).
  { rewrite N.shiftr_div_pow2.
    assert (Hlog : (2 ^ N.log2 n ≤ n)%N) by (apply N.log2_spec; lia).
    assert (Hs : N.log2 n = (52 + shift)%N) by (unfold shift; lia).
    rewrite Hs, N.pow_add_r in Hlog.
    apply N.div_le_lower_bound; [apply N.pow_nonzero; lia|]. lia. }
  assert (Hshift : (1 ≤ shift)%N) by (unfold shift; lia).
  assert (Hp : (2 ^ 1 ≤ 2 ^ shift)%N) by (apply N.pow_le_mono_r; lia).
  change (2 ^ 1)%N with 2%N in Hp.
  destruct (_ || _); rewrite N.shiftl_mul_pow2;
    change (2 ^ 53)%N with (2 ^ 52 * 2)%N; nia.
Qed.

(** The test of the sets in extractWorkoutFromTextBlock gives the same on
    the digits as on the double that the code has, and between 0 and 100
    the two are the same number. *)
Lemma toDouble_sets (n : N) :
  ((Js.toDouble n <=? 0)%N || (100 <=? Js.toDouble n)%N
   = (n <=? 0)%N || (100 <=? n)%N) ∧
  ((n < 100)%N → Js.toDouble n = n).
Proof.
  destruct (N.lt_ge_cases n (2 ^ 53)) as [Hsmall|Hlarge].
  - rewrite toDouble_small by exact Hsmall. by split.
  - pose proof (toDouble_large n Hlarge) as Hd. split.
    + assert (H1 : (100 <=? Js.toDouble n)%N = true).
      { apply N.leb_le. etrans; [|exact Hd]. by vm_compute. }
      assert (H2 : (100 <=? n)%N = true).
      { apply N.leb_le. etrans; [|exact Hlarge]. by vm_compute. }
      by rewrite H1, H2, !orb_true_r.
    + intros Hlt. exfalso. apply (N.lt_irrefl n).
      eapply N.lt_le_trans; [exact Hlt|]. etrans; [|exact Hlarge]. by vm_compute.
Qed.

Lemma digits_facts (s : string) :
  Js.is_digits s = true →
  hasChar "," s = false ∧ hasChar newline s = false ∧ Js.trim s = s ∧
  parseIntOf s = Some (Z.of_N (Js.toDouble (Js.parseInt s))).
Proof.
  unfold Js.is_digits. intros H. apply andb_true_iff in H as [Hne Hd].
  assert (Hchars : hasChar "," s = false ∧ hasChar newline s = false ∧ hasSpace s = false).
  { clear Hne. induction s as [|c s IH]; simpl; [by repeat split|].
    simpl in Hd. apply andb_true_iff in Hd as [Hc Hs].
    destruct (IH Hs) as (H1 & H2 & H3).
    destruct (digit_not_comma_newline c Hc) as (E1 & E2 & E3 & _).
    by rewrite E1, E2, E3, H1, H2, H3. }
  destruct Hchars as (H1 & H2 & H3).
  split; [exact H1|]. split; [exact H2|].
  split.
  - unfold Js.trim. rewrite trimEnd_no_space by exact H3.
    destruct s as [|c s]; [reflexivity|]. simpl in H3 |- *.
    apply orb_false_iff in H3 as [-> _]. reflexivity.
  - unfold parseIntOf. destruct s as [|c s]; [discriminate|].
    simpl in Hd. pose proof Hd as Hd'. apply andb_true_iff in Hd' as [Hc Hs].
    destruct (digit_not_comma_newline c Hc) as (_ & _ & E3 & E4 & E5).
    cbn [Js.trimStart]. rewrite E3, E4, E5.
    assert (Hspan : span_digits (String c s) = (String c s, "")).
    { apply span_all_digits. exact Hd. }
    by rewrite Hspan.
Qed.

Lemma csvItemOfRow_fields (name sets : string) (reps : option string) :
  csvField name → Js.is_digits sets = true → (0 < Js.parseInt sets < 2 ^ 53)%N →
  (∀ r, reps = Some r → csvField r) →
  let row :=
    String.append name
      (String "," (String.append sets
                     (match reps with
                      | Some r => String "," r
                      | None => EmptyString
                      end))) in
  Js.split_char newline row = [row] ∧ Js.trim row = row ∧ row ≠ "" ∧
  csvItemOfRow row
  = Some (ParsedCSVExercisePlanItem.mk name (Js.parseInt sets) reps None).
Proof.
  intros Hname Hsets [Hpos Hexact] Hreps row.
  destruct (digits_facts sets Hsets) as (Hs1 & Hs2 & Hs3 & Hs4).
  rewrite toDouble_small in Hs4 by exact Hexact.
  pose proof Hname as (Hn0 & Hn1 & Hn2 & Hn3 & Hn4).
  destruct (csvField_head name Hname) as (c & rest & Hc & Hspace).
  assert (Htail_space :
            Js.all_space (String "," (String.append sets
                            (match reps with
                             | Some r => String "," r
                             | None => EmptyString
                             end))) = false) by reflexivity.
  assert (Htail_end :
            Js.trimEnd (String "," (String.append sets
                          (match reps with
                           | Some r => String "," r
                           | None => EmptyString
                           end)))
            = String "," (String.append sets
                            (match reps with
                             | Some r => String "," r
                             | None => EmptyString
                             end))).
  { destruct reps as [r|].
    - destruct (Hreps r eq_refl) as (_ & _ & Hr2 & _).
      pose proof (csvField_all_space r (Hreps r eq_refl)) as Hr.
      change (String "," (String.append sets (String "," r)))
        with (String.append (String "," sets) (String "," r)).
      rewrite trimEnd_app by reflexivity.
      cbn [Js.trimEnd]. change (Js.all_space (String "," r)) with false.
      cbv iota. by rewrite Hr2.
    - rewrite append_nil_r. unfold Js.is_digits in Hsets.
      apply andb_true_iff in Hsets as [Hne Hd].
      apply trimEnd_no_space. simpl. by apply all_digits_no_space. }
  split; [|split; [|split]].
  - apply split_char_none. unfold row. rewrite hasChar_app, Hn4. simpl.
    rewrite hasChar_app, Hs2. destruct reps as [r|]; [|reflexivity]. simpl.
    by destruct (Hreps r eq_refl) as (_ & _ & _ & _ & ->).
  - unfold Js.trim, row. rewrite trimEnd_app by exact Htail_space.
    rewrite Htail_end, Hc. simpl. by rewrite Hspace.
  - unfold row. rewrite Hc. discriminate.
  - unfold csvItemOfRow, row. rewrite split_char_app, (split_char_none _ name Hn3).
    destruct reps as [r|].
    + destruct (Hreps r eq_refl) as (Hr0 & Hr1 & Hr2 & Hr3 & Hr4).
      rewrite split_char_app, (split_char_none _ sets Hs1), (split_char_none _ r Hr3).
      simpl. rewrite (csvField_trim name Hname), Hs3, (csvField_trim r (Hreps r eq_refl)).
      rewrite Hs4, N2Z.id.
      assert (Hz : (0 <? Z.of_N (Js.parseInt sets))%Z = true) by (apply Z.ltb_lt; lia).
      rewrite Hz. destruct name; [congruence|]. simpl. destruct r; [congruence | reflexivity].
    + rewrite append_nil_r, (split_char_none _ sets Hs1).
      simpl. rewrite (csvField_trim name Hname), Hs3, Hs4, N2Z.id.
      assert (Hz : (0 <? Z.of_N (Js.parseInt sets))%Z = true) by (apply Z.ltb_lt; lia).
      rewrite Hz. destruct name; [congruence | reflexivity].
Qed.

(** X16. A single row 'name,sets' or 'name,sets,reps' whose name and
    repetitions are non-empty, have no white space at either end, no comma
    and no newline, and whose sets are digits that denote a positive number
    below 2^53 (which a double holds exactly), is read back by
    parseCSVExercisePlan as exactly one item with that name, that number of
    sets and those repetitions. *)
Theorem parseCSVExercisePlan_row (name sets : string) (reps : option string) :
  csvField name → Js.is_digits sets = true → (0 < Js.parseInt sets < 2 ^ 53)%N →
  (∀ r, reps = Some r → csvField r) →
  parseCSVExercisePlan
    (String.append name
       (String "," (String.append sets
                      (match reps with
                       | Some r => String "," r
                       | None => EmptyString
                       end))))
  = [ParsedCSVExercisePlanItem.mk name (Js.parseInt sets) reps None].
Proof.
  intros Hname Hsets Hpos Hreps.
  destruct (csvItemOfRow_fields name sets reps Hname Hsets Hpos Hreps)
    as (Hsplit & Htrim & Hne & Hitem).
  rewrite parseCSV_rows, Hsplit. simpl. rewrite Htrim.
  match goal with |- context [Js.is_empty ?r] => destruct r eqn:E end; [congruence|].
  simpl. by rewrite Hitem.
Qed.

(** ** The history of an exercise *)

Lemma fold_kept (log : DailyLog.t) (sets : list ExerciseSet.t)
    (h : list ExerciseSetHistoryEntry.t) :
  fold_left (λ h set, if keptSet set then h ++ [entryOf log set] else h) sets h
  = h ++ (entryOf log <$> filter (λ set, keptSet set = true) sets).
Proof.
  revert h. induction sets as [|set sets IH]; intros h; simpl.
  - by rewrite app_nil_r.
  - rewrite IH. destruct (keptSet set) eqn:E.
    + rewrite filter_cons_True by exact E. by rewrite fmap_cons, <- app_assoc.
    + rewrite filter_cons_False by congruence. reflexivity.
Qed.

Lemma stepHistory_entries (exerciseId : string) (h : list ExerciseSetHistoryEntry.t)
    (log : DailyLog.t) :
  stepHistory exerciseId h log = h ++ entriesOfLog exerciseId log.
Proof.
  unfold stepHistory, entriesOfLog.
  destruct (find _ (DailyLog.exercises log)); [apply fold_kept | by rewrite app_nil_r].
Qed.

Lemma fold_stepHistory (exerciseId : string) (logs : list DailyLog.t)
    (h : list ExerciseSetHistoryEntry.t) :
  fold_left (stepHistory exerciseId) logs h
  = h ++ (logs ≫= entriesOfLog exerciseId).
Proof.
  revert h. induction logs as [|log logs IH]; intros h; simpl.
  - by rewrite app_nil_r.
  - by rewrite IH, stepHistory_entries, <- app_assoc.
Qed.

Lemma history_gt_decides (Date_getTime : string → option Z)
    (a b : ExerciseSetHistoryEntry.t) :
  valid_date Date_getTime (ExerciseSetHistoryEntry.date a) →
  valid_date Date_getTime (ExerciseSetHistoryEntry.date b) →
  if history_gt Date_getTime a b
  then history_le Date_getTime b a else history_le Date_getTime a b.
Proof.
  intros [ta Ha] [tb Hb]. unfold history_gt, history_le. rewrite Ha, Hb.
  destruct (tb - ta =? 0)%Z eqn:E; simpl.
  - apply Z.eqb_eq in E.
    destruct (ExerciseSetHistoryEntry.setNumber b <? ExerciseSetHistoryEntry.setNumber a)
      eqn:En; [apply Nat.ltb_lt in En | apply Nat.ltb_ge in En]; right; split; lia.
  - apply Z.eqb_neq in E.
    destruct (0 <? tb - ta)%Z eqn:Ed; [apply Z.ltb_lt in Ed | apply Z.ltb_ge in Ed];
      left; lia.
Qed.

Lemma history_le_trans (Date_getTime : string → option Z)
    (a b c : ExerciseSetHistoryEntry.t) :
  history_le Date_getTime a b → history_le Date_getTime b c → history_le Date_getTime a c.
Proof.
  unfold history_le.
  destruct (Date_getTime (ExerciseSetHistoryEntry.date a)),
           (Date_getTime (ExerciseSetHistoryEntry.date b)),
           (Date_getTime (ExerciseSetHistoryEntry.date c));
    intros Hab Hbc; try contradiction; lia.
Qed.

Lemma entriesOfLog_date (exerciseId : string) (log : DailyLog.t)
    (entry : ExerciseSetHistoryEntry.t) :
  entry ∈ entriesOfLog exerciseId log →
  ExerciseSetHistoryEntry.date entry = DailyLog.date log.
Proof.
  unfold entriesOfLog. destruct (find _ _); [|by intros ?%elem_of_nil].
  intros Hin. apply list_elem_of_fmap in Hin as (set & -> & _). reflexivity.
Qed.

(** X17. getExerciseSetHistory returns, up to order, the sets worth keeping
    (completed, or with both a weight and repetitions) of the first logged
    exercise with the given id in each log, each with the date of its log;
    when the dates of all logs are valid, the history is ordered by date,
    latest first, and by ascending set number within a date. *)
Theorem getExerciseSetHistory_spec (Date_getTime : string → option Z)
    (appData : AppData.t) (exerciseId : string) :
  let history := getExerciseSetHistory Date_getTime appData exerciseId in
  history ≡ₚ (AppData.dailyLogs appData ≫= entriesOfLog exerciseId) ∧
  (∀ entry, entry ∈ history ↔
            ∃ log, log ∈ AppData.dailyLogs appData ∧
                   entry ∈ entriesOfLog exerciseId log) ∧
  (Forall (λ log, valid_date Date_getTime (DailyLog.date log)) (AppData.dailyLogs appData) →
   StronglySorted (history_le Date_getTime) history).
Proof.
  intros history.
  assert (Hperm : history ≡ₚ (AppData.dailyLogs appData ≫= entriesOfLog exerciseId)).
  { unfold history, getExerciseSetHistory.
    rewrite sort_Permutation, fold_stepHistory. simpl.
    by rewrite sort_Permutation. }
  split; [exact Hperm|]. split.
  - intros entry. rewrite Hperm. rewrite list_elem_of_bind. split.
    + intros (log & Hentry & Hlog). by exists log.
    + intros (log & Hlog & Hentry). by exists log.
  - intros Hvalid. unfold history, getExerciseSetHistory.
    apply (sort_StronglySorted (history_gt Date_getTime)
             (λ e, valid_date Date_getTime (ExerciseSetHistoryEntry.date e))).
    + intros a b. apply history_gt_decides.
    + intros a b c _ _ _. apply history_le_trans.
    + rewrite fold_stepHistory. simpl. apply Forall_forall. intros entry Hin.
      apply list_elem_of_bind in Hin as (log & Hentry & Hlog).
      rewrite sort_Permutation in Hlog.
      rewrite (entriesOfLog_date _ _ _ Hentry).
      rewrite Forall_forall in Hvalid. by apply Hvalid.
Qed.

(** ** The template editor *)

Lemma completeTemplate_lookup (editingTemplate : list WeeklyTemplateDay.t) (i : nat) :
  i < 7 →
  completeTemplate editingTemplate !! i
  = Some (default (WeeklyTemplateDay.mk i [])
            (find (λ d, WeeklyTemplateDay.dayOfWeek d =? i) editingTemplate)).
Proof.
  intros Hi. unfold completeTemplate. rewrite list_lookup_imap.
  do 7 (destruct i as [|i]; [simpl; by destruct (find _ _)|]). lia.
Qed.

Lemma find_day_dayOfWeek (tpl : list WeeklyTemplateDay.t) (i : nat) (d : WeeklyTemplateDay.t) :
  find (λ d, WeeklyTemplateDay.dayOfWeek d =? i) tpl = Some d →
  WeeklyTemplateDay.dayOfWeek d = i.
Proof.
  intros H. apply find_some in H as [_ H]. by apply Nat.eqb_eq in H.
Qed.

(** X18. saveTemplate stores a template of exactly the weekdays 0 to 6 in
    order, in which day i holds the exercises of the first day numbered i of
    the template under edit, or none; a template under edit that already
    lists the days 0 to 6 in order is stored as it is; the active synced
    group id is cleared and the rest of the data is kept. *)
Theorem saveTemplate_spec (data : AppData.t) (editingTemplate : list WeeklyTemplateDay.t) :
  let saved := saveTemplate data editingTemplate in
  WeeklyTemplateDay.dayOfWeek <$> AppData.weeklyTemplate saved = seq 0 7 ∧
  (∀ i, i < 7 →
        WeeklyTemplateDay.exercises <$> AppData.weeklyTemplate saved !! i
        = Some (default []
                  (WeeklyTemplateDay.exercises
                     <$> find (λ d, WeeklyTemplateDay.dayOfWeek d =? i) editingTemplate))) ∧
  (WeeklyTemplateDay.dayOfWeek <$> editingTemplate = seq 0 7 →
   AppData.weeklyTemplate saved = editingTemplate) ∧
  AppData.activeSyncedGroupId saved = None ∧
  AppData.userId saved = AppData.userId data ∧
  AppData.exercises saved = AppData.exercises data ∧
  AppData.dailyLogs saved = AppData.dailyLogs data ∧
  AppData.groups saved = AppData.groups data.
Proof.
  intros saved. unfold saved, saveTemplate, updateWeeklyTemplate.
  cbn [AppData.weeklyTemplate AppData.activeSyncedGroupId AppData.userId
       AppData.exercises AppData.dailyLogs AppData.groups].
  split; [|split; [|split; [|repeat split]]].
  - apply list_eq. intros i. rewrite list_lookup_fmap.
    destruct (decide (i < 7)) as [Hi|Hi].
    + rewrite (completeTemplate_lookup _ i Hi), lookup_seq_lt by exact Hi.
      simpl. f_equal.
      destruct (find _ editingTemplate) as [d|] eqn:Hfind; [|reflexivity].
      simpl. by apply find_day_dayOfWeek in Hfind.
    + rewrite lookup_seq_ge by lia.
      rewrite (lookup_ge_None_2 (completeTemplate editingTemplate)); [reflexivity|].
      unfold completeTemplate. rewrite length_imap. simpl. lia.
  - intros i Hi. rewrite (completeTemplate_lookup _ i Hi). simpl. f_equal.
    by destruct (find _ editingTemplate).
  - intros Hweek. apply list_eq. intros i.
    destruct (decide (i < 7)) as [Hi|Hi].
    + rewrite (completeTemplate_lookup _ i Hi).
      assert (Hlen : length editingTemplate = 7).
      { rewrite <- (length_fmap WeeklyTemplateDay.dayOfWeek), Hweek. reflexivity. }
      destruct (lookup_lt_is_Some_2 editingTemplate i) as [d Hd]; [lia|].
      rewrite Hd. f_equal.
      rewrite (find_first _ _ i d Hd); [reflexivity| |].
      * apply Nat.eqb_eq.
        assert (Hdi : (WeeklyTemplateDay.dayOfWeek <$> editingTemplate) !! i
                      = Some (WeeklyTemplateDay.dayOfWeek d))
          by (by rewrite list_lookup_fmap, Hd).
        rewrite Hweek, lookup_seq_lt in Hdi by exact Hi. by inversion Hdi.
      * intros j d' Hj Hd'. apply Nat.eqb_neq.
        assert (Hdj : (WeeklyTemplateDay.dayOfWeek <$> editingTemplate) !! j
                      = Some (WeeklyTemplateDay.dayOfWeek d'))
          by (by rewrite list_lookup_fmap, Hd').
        rewrite Hweek, lookup_seq_lt in Hdj by lia. inversion Hdj. lia.
    + rewrite (lookup_ge_None_2 (completeTemplate editingTemplate)).
      * symmetry. apply lookup_ge_None_2.
        rewrite <- (length_fmap WeeklyTemplateDay.dayOfWeek), Hweek. simpl. lia.
      * unfold completeTemplate. rewrite length_imap. simpl. lia.
Qed.

(** ** The sets of a logged exercise *)

Lemma numbered_map_seq (f : nat → ExerciseSet.t) (n : nat) :
  (∀ i, ExerciseSet.setNumber (f i) = i + 1) →
  numberedSets (map f (seq 0 n)).
Proof.
  intros Hf. unfold numberedSets. rewrite length_map, length_seq.
  apply list_eq. intros i. rewrite list_lookup_fmap.
  change (map f (seq 0 n)) with (f <$> seq 0 n). rewrite list_lookup_fmap.
  destruct (decide (i < n)) as [Hi|Hi].
  - rewrite !lookup_seq_lt by exact Hi. simpl. rewrite Hf. f_equal. lia.
  - rewrite !lookup_seq_ge by lia. reflexivity.
Qed.

Lemma numbered_imap (f : nat → ExerciseSet.t → ExerciseSet.t) (sets : list ExerciseSet.t) :
  (∀ i set, ExerciseSet.setNumber (f i set) = i + 1) →
  numberedSets (imap f sets).
Proof.
  intros Hf. unfold numberedSets. rewrite length_imap.
  apply list_eq. intros i. rewrite list_lookup_fmap, list_lookup_imap.
  destruct (sets !! i) as [set|] eqn:Hset; simpl.
  - rewrite lookup_seq_lt by (by apply lookup_lt_Some in Hset).
    rewrite Hf. f_equal. lia.
  - rewrite lookup_seq_ge by (by apply lookup_ge_None in Hset). reflexivity.
Qed.

(** X19. initializeSetsForExercise returns sets numbered 1, 2, ... in order,
    each with an empty weight and not completed: as many as the target of
    the template exercise, a whole number, when that is positive, one set
    when the target is 0 or the template has no such exercise, and no set
    at all when the target is negative; addSet keeps sets so numbered, appends exactly one set
    while there are fewer than 10 and otherwise changes nothing, so that 10 is never exceeded; removeSet returns sets numbered
    1, 2, ... again, one fewer when the index is in range and as many
    otherwise, with the weight, repetitions and completion of the remaining
    sets in order. *)
Theorem sets_numbered (weeklyTemplate : list WeeklyTemplateDay.t) (dayOfWeek : nat)
    (exerciseId : string) :
  let fresh := initializeSetsForExercise weeklyTemplate exerciseId dayOfWeek in
  let templateEx := templateExerciseOf weeklyTemplate dayOfWeek exerciseId in
  (numberedSets fresh ∧
   Forall (λ set, ExerciseSet.completed set = false ∧ ExerciseSet.weight set = "") fresh ∧
   (∀ te, templateEx = Some te →
          ((0 < WeeklyTemplateExercise.targetSets te)%Z →
           length fresh = Z.to_nat (WeeklyTemplateExercise.targetSets te)) ∧
          (WeeklyTemplateExercise.targetSets te = 0%Z → length fresh = 1) ∧
          ((WeeklyTemplateExercise.targetSets te < 0)%Z → fresh = [])) ∧
   (templateEx = None → length fresh = 1)) ∧
  (∀ sets,
     let added := addSet weeklyTemplate dayOfWeek exerciseId sets in
     (numberedSets sets → numberedSets added) ∧
     (length sets ≤ MAX_SETS_PER_EXERCISE → length added ≤ MAX_SETS_PER_EXERCISE) ∧
     (length sets < MAX_SETS_PER_EXERCISE → length added = length sets + 1) ∧
     (MAX_SETS_PER_EXERCISE ≤ length sets → added = sets) ∧
     take (length sets) added = sets) ∧
  (∀ sets setIndex,
     let removed := removeSet sets setIndex in
     numberedSets removed ∧
     (setIndex < length sets → length removed = length sets - 1) ∧
     (length sets ≤ setIndex → length removed = length sets) ∧
     (∀ i set, removed !! i = Some set →
               ∃ old, sets !! (if decide (i < setIndex) then i else i + 1) = Some old ∧
                      ExerciseSet.weight set = ExerciseSet.weight old ∧
                      ExerciseSet.reps set = ExerciseSet.reps old ∧
                      ExerciseSet.completed set = ExerciseSet.completed old)).
Proof.
  intros fresh templateEx. split; [|split].
  - unfold fresh, initializeSetsForExercise. fold templateEx.
    split; [|split; [|split]].
    + by apply numbered_map_seq.
    + apply Forall_forall. intros set Hin. apply list_elem_of_fmap in Hin.
      by destruct Hin as (i & -> & _).
    + intros te ->.
      destruct (WeeklyTemplateExercise.targetSets te =? 0)%Z eqn:E;
        [apply Z.eqb_eq in E | apply Z.eqb_neq in E].
      * split; [lia|]. split; [reflexivity | lia].
      * split; [|split; [contradiction|]].
        -- intros _. by rewrite length_map, length_seq.
        -- intros Hneg. rewrite Z2Nat.nonpos by lia. reflexivity.
    + by intros ->.
  - intros sets added. unfold added, addSet, MAX_SETS_PER_EXERCISE.
    destruct (length sets <? 10) eqn:E;
      [apply Nat.ltb_lt in E | apply Nat.ltb_ge in E].
    + split; [|split; [|split; [|split]]].
      * unfold numberedSets. intros Hsets.
        rewrite fmap_app, length_app, Hsets. simpl.
        rewrite seq_app. simpl. do 3 f_equal. lia.
      * rewrite length_app. simpl. lia.
      * rewrite length_app. simpl. lia.
      * lia.
      * by rewrite take_app_length.
    + split; [|split; [|split; [|split]]]; try done; try lia.
      by rewrite firstn_all.
  - intros sets setIndex removed. unfold removed, removeSet.
    split; [|split; [|split]].
    + by apply numbered_imap.
    + intros Hlt. rewrite length_imap, length_delete; [lia|].
      by apply lookup_lt_is_Some_2.
    + intros Hge. rewrite length_imap, delete_take_drop.
      rewrite take_ge, drop_ge, app_nil_r by lia. reflexivity.
    + intros i set. rewrite list_lookup_imap.
      destruct (delete setIndex sets !! i) as [old|] eqn:Hold; [|discriminate].
      simpl. intros [= <-]. exists old. split; [|done].
      destruct (decide (i < setIndex)) as [Hi|Hi].
      * by rewrite list_lookup_delete_lt in Hold.
      * rewrite list_lookup_delete_ge in Hold by lia.
        by replace (i + 1) with (S i) by lia.
Qed.

(** ** The invite code *)

Lemma inviteChars_get (n : nat) :
  n < String.length inviteChars →
  ∃ c, String.get n inviteChars = Some c ∧ hasChar c inviteChars = true.
Proof.
  intros Hn. change (String.length inviteChars) with 32 in Hn.
  do 32 (destruct n as [|n]; [eexists; split; reflexivity|]). lia.
Qed.

(** X20. When each of the six draws is an index into the alphabet of 32
    characters, the invite code has six characters, its i-th character is
    the character of the alphabet at the i-th draw, and every character of
    the code is in the alphabet. *)
Theorem generateInviteCode_spec (draw : nat → nat) :
  (∀ i, i < 6 → draw i < String.length inviteChars) →
  let code := generateInviteCode draw in
  String.length code = 6 ∧
  (∀ i, i < 6 → String.get i code = String.get (draw i) inviteChars) ∧
  (∀ c, hasChar c code = true → hasChar c inviteChars = true).
Proof.
  intros Hdraw code.
  destruct (inviteChars_get (draw 0)) as (c0 & H0 & A0); [apply Hdraw; lia|].
  destruct (inviteChars_get (draw 1)) as (c1 & H1 & A1); [apply Hdraw; lia|].
  destruct (inviteChars_get (draw 2)) as (c2 & H2 & A2); [apply Hdraw; lia|].
  destruct (inviteChars_get (draw 3)) as (c3 & H3 & A3); [apply Hdraw; lia|].
  destruct (inviteChars_get (draw 4)) as (c4 & H4 & A4); [apply Hdraw; lia|].
  destruct (inviteChars_get (draw 5)) as (c5 & H5 & A5); [apply Hdraw; lia|].
  assert (Hcode : code
                  = String c0 (String c1 (String c2 (String c3 (String c4 (String c5 "")))))).
  { unfold code, generateInviteCode, charAt. cbn [seq fold_left].
    rewrite H0, H1, H2, H3, H4, H5. reflexivity. }
  rewrite Hcode. split; [reflexivity|]. split.
  - intros i Hi.
    do 6 (destruct i as [|i]; [symmetry; assumption|]). lia.
  - intros c. cbn [hasChar]. intros Hc.
    repeat (apply orb_true_iff in Hc as [Hc|Hc];
            [apply Ascii.eqb_eq in Hc; by subst c|]).
    discriminate Hc.
Qed.

(** ** The status of a day in the calendar *)

Lemma fold_stepStatus (log : DailyLog.t) (exercises : list WeeklyTemplateExercise.t)
    (planned : Z) (completed : nat) :
  fold_left (stepStatus log) exercises (planned, completed)
  = ((planned + sumTargets exercises)%Z,
     completed + foldr (λ te total, countedFor log te + total) 0 exercises).
Proof.
  revert planned completed.
  induction exercises as [|te exercises IH]; intros planned completed; simpl.
  - f_equal; lia.
  - rewrite IH. unfold countedFor.
    destruct (find _ (DailyLog.exercises log)); f_equal; lia.
Qed.

Lemma sumTargets_nonneg (exercises : list WeeklyTemplateExercise.t) :
  (∀ te, te ∈ exercises → (0 ≤ WeeklyTemplateExercise.targetSets te)%Z) →
  (0 ≤ sumTargets exercises)%Z.
Proof.
  induction exercises as [|te exercises IH]; simpl; intros Hnat; [lia|].
  pose proof (Hnat te ltac:(left)) as Hte.
  assert (0 ≤ sumTargets exercises)%Z by (apply IH; intros te' Hte'; apply Hnat; by right).
  lia.
Qed.

Lemma existsb_sumTargets (exercises : list WeeklyTemplateExercise.t) :
  (∀ te, te ∈ exercises → (0 ≤ WeeklyTemplateExercise.targetSets te)%Z) →
  existsb (λ te, (0 <? WeeklyTemplateExercise.targetSets te)%Z) exercises = true
  ↔ sumTargets exercises ≠ 0%Z.
Proof.
  induction exercises as [|te exercises IH]; simpl; intros Hnat.
  - split; [discriminate | intros H; by destruct H].
  - pose proof (Hnat te ltac:(left)) as Hte.
    assert (Hrest : ∀ te', te' ∈ exercises →
                           (0 ≤ WeeklyTemplateExercise.targetSets te')%Z)
      by (intros te' Hte'; apply Hnat; by right).
    pose proof (sumTargets_nonneg exercises Hrest) as Hsum.
    rewrite orb_true_iff, (IH Hrest), Z.ltb_lt. lia.
Qed.

(** X21. When the targets of the template day are whole numbers and none
    is negative, getDayStatus is 'rest' exactly when no set is planned for
    the weekday, that is when the template has no day of that number or the
    target sets of its first such day add up to zero, whatever is logged. *)
Theorem getDayStatus_rest (isoDate : string) (dayOfWeek : nat)
    (logs : list DailyLog.t) (template : list WeeklyTemplateDay.t) :
  naturalTargets dayOfWeek template →
  getDayStatus isoDate dayOfWeek logs template = StatusRest
  ↔ plannedSets dayOfWeek template = 0%Z.
Proof.
  intros Hnat. unfold getDayStatus, plannedSets. unfold naturalTargets in Hnat.
  destruct (find _ template) as [templateDay|]; [|done].
  pose proof (existsb_sumTargets (WeeklyTemplateDay.exercises templateDay)
                (λ te, Hnat templateDay te eq_refl)) as Hsome.
  destruct (length (WeeklyTemplateDay.exercises templateDay) =? 0) eqn:Elen.
  { apply Nat.eqb_eq, length_zero_iff_nil in Elen. by rewrite Elen. }
  assert (Hnot : (if existsb (λ te, (0 <? WeeklyTemplateExercise.targetSets te)%Z)
                             (WeeklyTemplateDay.exercises templateDay)
                  then StatusEmpty else StatusRest) = StatusRest
                 ↔ sumTargets (WeeklyTemplateDay.exercises templateDay) = 0%Z).
  { destruct (existsb _ _).
    - split; [discriminate|]. intros H0. by apply Hsome in H0.
    - split; [|done]. intros _.
      destruct (Z.eq_dec (sumTargets (WeeklyTemplateDay.exercises templateDay)) 0%Z)
        as [H0|H0]; [done|]. by apply Hsome in H0. }
  destruct (find _ logs) as [dailyLog|]; [|exact Hnot].
  destruct (length (DailyLog.exercises dailyLog) =? 0); [exact Hnot|].
  rewrite fold_stepStatus, Z.add_0_l, Nat.add_0_l.
  destruct (sumTargets _ =? 0)%Z eqn:E0.
  - by apply Z.eqb_eq in E0.
  - apply Z.eqb_neq in E0.
    destruct (foldr _ _ _ =? 0); [|destruct (_ <? _)%Z]; (split; [discriminate | done]).
Qed.

Lemma filter_bool_sublist {A} (p : A → bool) (l : list A) :
  sublist (List.filter p l) l.
Proof.
  induction l as [|x l IH]; simpl; [constructor|].
  destruct (p x); by constructor.
Qed.

Lemma countedSets_bound (target : Z) (sets : list ExerciseSet.t) :
  NoDup (ExerciseSet.setNumber <$> sets) →
  (∀ set, set ∈ sets → 1 ≤ ExerciseSet.setNumber set) →
  countedSets target sets ≤ Z.to_nat target ∧
  (countedSets target sets = Z.to_nat target
   ↔ ∀ k, 1 ≤ k ≤ Z.to_nat target →
          ∃ set, set ∈ sets ∧ ExerciseSet.completed set = true ∧
                 ExerciseSet.setNumber set = k).
Proof.
  intros Hdistinct Hfrom1. unfold countedSets.
  set (p := λ set, ExerciseSet.completed set
                   && (Z.of_nat (ExerciseSet.setNumber set) <=? target)%Z).
  set (counted := List.filter p sets).
  assert (Hin : ∀ set, set ∈ counted ↔ set ∈ sets ∧ ExerciseSet.completed set = true ∧
                                        ExerciseSet.setNumber set ≤ Z.to_nat target).
  { intros set. unfold counted. rewrite !list_elem_of_In, filter_In. unfold p.
    rewrite andb_true_iff, Z.leb_le, <- list_elem_of_In. split.
    - intros (Hset & Hdone & Hle). split; [done|]. split; [done|]. lia.
    - intros (Hset & Hdone & Hle). split; [done|]. split; [done|].
      specialize (Hfrom1 set Hset). lia. }
  assert (Hnodup : NoDup (ExerciseSet.setNumber <$> counted)).
  { eapply sublist_NoDup; [exact Hdistinct | apply fmap_sublist, filter_bool_sublist]. }
  assert (Hsub : (ExerciseSet.setNumber <$> counted) ⊆+ seq 1 (Z.to_nat target)).
  { apply NoDup_submseteq; [exact Hnodup|].
    intros k Hk. apply list_elem_of_fmap in Hk as (set & -> & Hset).
    apply Hin in Hset as (Hset & _ & Hle). apply elem_of_seq.
    specialize (Hfrom1 set Hset). lia. }
  pose proof (submseteq_length _ _ Hsub) as Hlen.
  rewrite length_fmap, length_seq in Hlen. split; [exact Hlen|]. split.
  - intros Heq k Hk.
    assert (Hperm : (ExerciseSet.setNumber <$> counted) ≡ₚ seq 1 (Z.to_nat target)).
    { apply submseteq_length_Permutation; [exact Hsub|].
      rewrite length_fmap, length_seq. lia. }
    assert (Hkin : k ∈ ExerciseSet.setNumber <$> counted).
    { rewrite Hperm. apply elem_of_seq. lia. }
    apply list_elem_of_fmap in Hkin as (set & -> & Hset).
    apply Hin in Hset as (Hset & Hdone & _). by exists set.
  - intros Hall.
    assert (Hsup : seq 1 (Z.to_nat target) ⊆+ (ExerciseSet.setNumber <$> counted)).
    { apply NoDup_submseteq; [apply NoDup_seq|].
      intros k Hk. apply elem_of_seq in Hk.
      destruct (Hall k) as (set & Hset & Hdone & Hnum); [lia|].
      apply list_elem_of_fmap. exists set. split; [done|].
      apply Hin. split; [done|]. split; [done|]. lia. }
    apply submseteq_length in Hsup. rewrite length_fmap, length_seq in Hsup. lia.
Qed.

Lemma countedFor_bound (log : DailyLog.t) (te : WeeklyTemplateExercise.t) :
  distinctSetNumbers log →
  countedFor log te ≤ Z.to_nat (WeeklyTemplateExercise.targetSets te) ∧
  (countedFor log te = Z.to_nat (WeeklyTemplateExercise.targetSets te)
   ↔ ∀ k, 1 ≤ k ≤ Z.to_nat (WeeklyTemplateExercise.targetSets te) → setDone log te k).
Proof.
  intros Hdistinct. unfold countedFor, setDone.
  destruct (find _ (DailyLog.exercises log)) as [le|] eqn:Hfind.
  - destruct (Hdistinct le) as [Hnodup Hfrom1].
    { apply find_some in Hfind as [Hin _]. by apply list_elem_of_In. }
    destruct (countedSets_bound (WeeklyTemplateExercise.targetSets te)
                (LoggedExercise.sets le) Hnodup Hfrom1) as [Hle Heq].
    split; [exact Hle|]. rewrite Heq. split.
    + intros Hall k Hk. destruct (Hall k Hk) as (set & Hset & Hdone & Hnum).
      by exists le, set.
    + intros Hall k Hk. destruct (Hall k Hk) as (le' & set & [= <-] & Hset & Hdone & Hnum).
      by exists set.
  - split; [lia|]. split.
    + intros H0 k Hk. lia.
    + intros Hall.
      destruct (Z.to_nat (WeeklyTemplateExercise.targetSets te)) as [|n]; [done|].
      destruct (Hall 1) as (le & set & Hno & _); [lia | discriminate Hno].
Qed.

Lemma sums_bound (log : DailyLog.t) (exercises : list WeeklyTemplateExercise.t) :
  distinctSetNumbers log →
  (∀ te, te ∈ exercises → (0 ≤ WeeklyTemplateExercise.targetSets te)%Z) →
  let completed := foldr (λ te total, countedFor log te + total) 0 exercises in
  (Z.of_nat completed ≤ sumTargets exercises)%Z ∧
  (Z.of_nat completed = sumTargets exercises
   ↔ ∀ te k, te ∈ exercises →
             1 ≤ k ≤ Z.to_nat (WeeklyTemplateExercise.targetSets te) → setDone log te k).
Proof.
  intros Hdistinct.
  induction exercises as [|te exercises IH]; simpl; intros Hnat.
  - split; [lia|]. split; [|done]. intros _ te k Hte. by apply elem_of_nil in Hte.
  - pose proof (Hnat te ltac:(left)) as Hte.
    destruct IH as [IHle IHeq]; [intros te' Hte'; apply Hnat; by right|].
    destruct (countedFor_bound log te Hdistinct) as [Hle Heq]. split; [lia|]. split.
    + intros Hsum te' k Hte'. apply elem_of_cons in Hte' as [->|Hte'].
      * apply Heq. lia.
      * apply IHeq; [lia | exact Hte'].
    + intros Hall.
      assert (H1 : countedFor log te = Z.to_nat (WeeklyTemplateExercise.targetSets te)).
      { apply Heq. intros k Hk. apply Hall; [left | exact Hk]. }
      assert (H2 : Z.of_nat (foldr (λ te total, countedFor log te + total) 0 exercises)
                   = sumTargets exercises).
      { apply IHeq. intros te' k Hte'. apply Hall. by right. }
      lia.
Qed.

(** X22. Without a log of the date the status of a day is neither
    'completed' nor 'partial'. With a log of the date in which the set
    numbers of each logged exercise are distinct and at least 1, and a
    template day whose targets are whole numbers and none of them negative,
    the status is 'completed' exactly when some set is planned and, for
    every exercise of the template day and every set number from 1 to its
    target, the first logged exercise of that id has a completed set of
    that number. *)
Theorem getDayStatus_completed (isoDate : string) (dayOfWeek : nat)
    (logs : list DailyLog.t) (template : list WeeklyTemplateDay.t) :
  (find (λ log, String.eqb (DailyLog.date log) isoDate) logs = None →
   getDayStatus isoDate dayOfWeek logs template ≠ StatusCompleted ∧
   getDayStatus isoDate dayOfWeek logs template ≠ StatusPartial) ∧
  (∀ log templateDay,
     find (λ log, String.eqb (DailyLog.date log) isoDate) logs = Some log →
     find (λ d, WeeklyTemplateDay.dayOfWeek d =? dayOfWeek) template = Some templateDay →
     distinctSetNumbers log →
     naturalTargets dayOfWeek template →
     (getDayStatus isoDate dayOfWeek logs template = StatusCompleted
      ↔ plannedSets dayOfWeek template ≠ 0%Z ∧
        ∀ te k, te ∈ WeeklyTemplateDay.exercises templateDay →
                1 ≤ k → (Z.of_nat k ≤ WeeklyTemplateExercise.targetSets te)%Z →
                setDone log te k)).
Proof.
  split.
  - intros Hnone. unfold getDayStatus. rewrite Hnone.
    destruct (find _ template) as [templateDay|]; [|done].
    destruct (length _ =? 0); [done|]. by destruct (existsb _ _).
  - intros log templateDay Hlog Hday Hdistinct Hnat.
    assert (Hnat' : ∀ te, te ∈ WeeklyTemplateDay.exercises templateDay →
                          (0 ≤ WeeklyTemplateExercise.targetSets te)%Z)
      by (intros te; by apply Hnat).
    clear Hnat. rename Hnat' into Hnat.
    unfold getDayStatus, plannedSets. rewrite Hlog, Hday.
    set (exercises := WeeklyTemplateDay.exercises templateDay) in *.
    destruct (sums_bound log exercises Hdistinct Hnat) as [Hle Heq].
    pose proof (existsb_sumTargets exercises Hnat) as Hsome.
    assert (Hrange : (∀ te k, te ∈ exercises → 1 ≤ k →
                              (Z.of_nat k ≤ WeeklyTemplateExercise.targetSets te)%Z →
                              setDone log te k)
                     ↔ (∀ te k, te ∈ exercises →
                                1 ≤ k ≤ Z.to_nat (WeeklyTemplateExercise.targetSets te) →
                                setDone log te k)).
    { split; intros Hall te k Hte.
      - intros Hk. apply Hall; [exact Hte | lia | lia].
      - intros H1 Hk. apply Hall; [exact Hte | lia]. }
    rewrite Hrange.
    destruct (length exercises =? 0) eqn:Elen.
    { apply Nat.eqb_eq, length_zero_iff_nil in Elen. rewrite Elen.
      split; [discriminate | by intros [H0 _]]. }
    destruct (length (DailyLog.exercises log) =? 0) eqn:Elog.
    { apply Nat.eqb_eq, length_zero_iff_nil in Elog.
      split; [by destruct (existsb _ _)|]. intros [Hplanned Hall]. exfalso.
      apply Hsome, existsb_exists in Hplanned as (te & Hte & Hpos).
      apply Z.ltb_lt in Hpos.
      destruct (Hall te 1) as (le & set & Hfind & _);
        [by apply list_elem_of_In | lia |].
      rewrite Elog in Hfind. discriminate Hfind. }
    rewrite fold_stepStatus, Z.add_0_l, Nat.add_0_l.
    destruct (sumTargets exercises =? 0)%Z eqn:E0;
      [apply Z.eqb_eq in E0 | apply Z.eqb_neq in E0].
    { split; [discriminate | by intros [H0 _]]. }
    destruct (foldr _ _ _ =? 0) eqn:Ec; [apply Nat.eqb_eq in Ec | apply Nat.eqb_neq in Ec].
    { split; [discriminate|]. intros [_ Hall]. apply Heq in Hall. lia. }
    destruct (_ <? _)%Z eqn:Elt; [apply Z.ltb_lt in Elt | apply Z.ltb_ge in Elt].
    + split; [discriminate|]. intros [_ Hall]. apply Heq in Hall. lia.
    + split; [|done]. intros _. split; [exact E0|]. apply Heq. lia.
Qed.

(** ** Saving the log of a day *)

Lemma filter_bool_eq {A} (p : A → bool) (l : list A) :
  filter (λ x, p x = true) l = List.filter p l.
Proof.
  induction l as [|x l IH]; [reflexivity|]. simpl.
  destruct (p x) eqn:E.
  - rewrite filter_cons_True by exact E. by rewrite IH.
  - rewrite filter_cons_False by congruence. exact IH.
Qed.

Lemma filter_bool_weaker {A} (p q : A → bool) (l : list A) :
  (∀ x, p x = true → q x = true) →
  List.filter p (List.filter q l) = List.filter p l.
Proof.
  intros Hpq. induction l as [|x l IH]; [reflexivity|]. simpl.
  destruct (q x) eqn:Eq; simpl.
  - by rewrite IH.
  - destruct (p x) eqn:Ep; [|exact IH]. apply Hpq in Ep. congruence.
Qed.

Lemma find_cleaned (exerciseId : string) (exercises : list LoggedExercise.t) :
  find (λ le, String.eqb (LoggedExercise.exerciseId le) exerciseId)
       (map (λ ex, LoggedExercise.mk (LoggedExercise.exerciseId ex) (LoggedExercise.name ex)
                     (List.filter keptSet (LoggedExercise.sets ex))
                     (LoggedExercise.notes ex))
            exercises)
  = (λ ex, LoggedExercise.mk (LoggedExercise.exerciseId ex) (LoggedExercise.name ex)
             (List.filter keptSet (LoggedExercise.sets ex)) (LoggedExercise.notes ex))
      <$> find (λ le, String.eqb (LoggedExercise.exerciseId le) exerciseId) exercises.
Proof.
  induction exercises as [|ex exercises IH]; [reflexivity|]. simpl.
  by destruct (String.eqb (LoggedExercise.exerciseId ex) exerciseId).
Qed.

Lemma entriesOfLog_cleaned (exerciseId : string) (log : DailyLog.t) :
  entriesOfLog exerciseId (cleanedLog log) = entriesOfLog exerciseId log.
Proof.
  unfold entriesOfLog, cleanedLog. simpl. rewrite find_cleaned.
  destruct (find _ (DailyLog.exercises log)) as [le|]; [|reflexivity]. simpl.
  rewrite !filter_bool_eq, filter_bool_weaker by done. reflexivity.
Qed.

Lemma countedFor_cleaned (log : DailyLog.t) (te : WeeklyTemplateExercise.t) :
  countedFor (cleanedLog log) te = countedFor log te.
Proof.
  unfold countedFor, cleanedLog. simpl. rewrite find_cleaned.
  destruct (find _ (DailyLog.exercises log)) as [le|]; [|reflexivity]. simpl.
  unfold countedSets. rewrite filter_bool_weaker; [reflexivity|].
  intros set Hset. apply andb_true_iff in Hset as [Hdone _].
  unfold keptSet. by rewrite Hdone.
Qed.

(** X23. The log that saveDayLog stores, with only the sets that are
    completed or have both a weight and repetitions, is unchanged by
    cleaning it again, keeps the date and the exercise ids in order, gives
    the same history entries and the same counted sets for the calendar as
    the log it was made from, and keeps set numbers that were distinct and
    at least 1 so. *)
Theorem cleanedLog_spec (log : DailyLog.t) :
  cleanedLog (cleanedLog log) = cleanedLog log ∧
  DailyLog.date (cleanedLog log) = DailyLog.date log ∧
  LoggedExercise.exerciseId <$> DailyLog.exercises (cleanedLog log)
  = LoggedExercise.exerciseId <$> DailyLog.exercises log ∧
  (∀ exerciseId, entriesOfLog exerciseId (cleanedLog log) = entriesOfLog exerciseId log) ∧
  (∀ te, countedFor (cleanedLog log) te = countedFor log te) ∧
  (distinctSetNumbers log → distinctSetNumbers (cleanedLog log)).
Proof.
  split; [|split; [reflexivity|split; [|split; [|split]]]].
  - unfold cleanedLog. simpl. f_equal. rewrite map_map. simpl.
    apply map_ext. intros ex. f_equal. by apply filter_bool_weaker.
  - unfold cleanedLog. simpl. change (map ?f ?l) with (f <$> l).
    rewrite <- list_fmap_compose. reflexivity.
  - intros exerciseId. apply entriesOfLog_cleaned.
  - intros te. apply countedFor_cleaned.
  - intros Hdistinct le Hle. unfold cleanedLog in Hle. simpl in Hle.
    change (map ?f ?l) with (f <$> l) in Hle.
    apply list_elem_of_fmap in Hle as (ex & -> & Hex). simpl.
    destruct (Hdistinct ex Hex) as [Hnodup Hfrom1]. split.
    + eapply sublist_NoDup; [exact Hnodup | apply fmap_sublist, filter_bool_sublist].
    + intros set Hset. apply Hfrom1.
      apply list_elem_of_In in Hset. apply filter_In in Hset as [Hset _].
      by apply list_elem_of_In.
Qed.

Lemma getDayStatus_of_log (isoDate : string) (dayOfWeek : nat)
    (logs logs' : list DailyLog.t) (template : list WeeklyTemplateDay.t)
    (log log' : DailyLog.t) :
  find (λ l, String.eqb (DailyLog.date l) isoDate) logs = Some log →
  find (λ l, String.eqb (DailyLog.date l) isoDate) logs' = Some log' →
  length (DailyLog.exercises log) = length (DailyLog.exercises log') →
  (∀ te, countedFor log te = countedFor log' te) →
  getDayStatus isoDate dayOfWeek logs template
  = getDayStatus isoDate dayOfWeek logs' template.
Proof.
  intros Hlog Hlog' Hlen Hcount. unfold getDayStatus. rewrite Hlog, Hlog', Hlen.
  destruct (find _ template) as [templateDay|]; [|reflexivity].
  rewrite !fold_stepStatus.
  replace (foldr (λ te total, countedFor log te + total) 0
                 (WeeklyTemplateDay.exercises templateDay))
    with (foldr (λ te total, countedFor log' te + total) 0
                (WeeklyTemplateDay.exercises templateDay)); [reflexivity|].
  induction (WeeklyTemplateDay.exercises templateDay) as [|te tes IH]; [reflexivity|].
  simpl. by rewrite IH, Hcount.
Qed.

(** X24. With at most one log per date, after saveDayLog the log found for
    the date of the saved log is the cleaned log and the logs found for the
    other dates are as before; the history of every exercise is, up to
    order, the entries of the saved log followed by those of the logs of the
    other dates; and the calendar status of that date is the status computed
    from the saved log alone. *)
Theorem saveDayLog_spec (Date_getTime : string → option Z)
    (data : AppData.t) (logToSave : DailyLog.t) :
  NoDup (DailyLog.date <$> AppData.dailyLogs data) →
  let data' := saveDayLog Date_getTime data logToSave in
  getDailyLog data' (DailyLog.date logToSave) = Some (cleanedLog logToSave) ∧
  (∀ date, date ≠ DailyLog.date logToSave → getDailyLog data' date = getDailyLog data date) ∧
  (∀ exerciseId,
     getExerciseSetHistory Date_getTime data' exerciseId
     ≡ₚ entriesOfLog exerciseId logToSave
        ++ (filter (λ l, DailyLog.date l ≠ DailyLog.date logToSave) (AppData.dailyLogs data)
            ≫= entriesOfLog exerciseId)) ∧
  (∀ dayOfWeek,
     getDayStatus (DailyLog.date logToSave) dayOfWeek (AppData.dailyLogs data')
                  (AppData.weeklyTemplate data')
     = getDayStatus (DailyLog.date logToSave) dayOfWeek [logToSave]
                    (AppData.weeklyTemplate data)).
Proof.
  intros Hnd data'.
  assert (Hfind : ∀ date,
            find (λ l, String.eqb (DailyLog.date l) date) (AppData.dailyLogs data')
            = if decide (date = DailyLog.date logToSave) then Some (cleanedLog logToSave)
              else find (λ l, String.eqb (DailyLog.date l) date) (AppData.dailyLogs data)).
  { intros date. unfold data', saveDayLog.
    by rewrite (upsert_find Date_getTime data (cleanedLog logToSave) date Hnd). }
  split; [|split; [|split]].
  - unfold getDailyLog. rewrite Hfind. by rewrite decide_True.
  - intros date Hdate. unfold getDailyLog. rewrite Hfind. by rewrite decide_False.
  - intros exerciseId. unfold getExerciseSetHistory.
    rewrite sort_Permutation, fold_stepHistory. simpl.
    rewrite sort_Permutation.
    rewrite sort_Permutation, (upsert_Permutation (cleanedLog logToSave) _ Hnd).
    simpl. by rewrite entriesOfLog_cleaned.
  - intros dayOfWeek.
    apply (getDayStatus_of_log _ _ _ _ _ (cleanedLog logToSave) logToSave).
    + rewrite Hfind. by rewrite decide_True.
    + simpl. by rewrite String.eqb_refl.
    + unfold cleanedLog. simpl. by rewrite length_map.
    + intros te. apply countedFor_cleaned.
Qed.

(** ** Editing an exercise of the template *)

Lemma findIndex_lookup {A} (p : A → bool) (l : list A) :
  findIndex p l ≫= (λ i, l !! i) = find p l.
Proof.
  induction l as [|a l IH]; [reflexivity|]. simpl.
  destruct (p a); [reflexivity|]. rewrite <- IH.
  by destruct (findIndex p l).
Qed.

Lemma find_alter_first {A} (p : A → bool) (f : A → A) (l : list A) (i : nat) :
  (∀ x, p (f x) = p x) → findIndex p l = Some i →
  find p (alter f i l) = f <$> find p l.
Proof.
  intros Hf. revert i. induction l as [|a l IH]; intros i Hi; [discriminate|].
  simpl in Hi. destruct (p a) eqn:Ea.
  - inversion Hi; subst. simpl. by rewrite Hf, Ea.
  - destruct (findIndex p l) as [j|]; [|discriminate]. inversion Hi; subst.
    simpl. rewrite Ea. by apply IH.
Qed.

Lemma find_alter_other {A} (q : A → bool) (f : A → A) (l : list A) (i : nat) :
  (∀ x, l !! i = Some x → q x = false ∧ q (f x) = false) →
  find q (alter f i l) = find q l.
Proof.
  revert i. induction l as [|a l IH]; intros i Hi; [reflexivity|].
  destruct i as [|i]; simpl.
  - destruct (Hi a eq_refl) as [-> ->]. reflexivity.
  - destruct (q a); [reflexivity|]. apply IH. intros x Hx. by apply Hi.
Qed.

Lemma find_insert_first {A} (p : A → bool) (l : list A) (i : nat) (u : A) :
  findIndex p l = Some i → p u = true → find p (<[i := u]> l) = Some u.
Proof.
  intros Hi Hu. revert i Hi. induction l as [|a l IH]; intros i Hi; [discriminate|].
  simpl in Hi. destruct (p a) eqn:Ea.
  - inversion Hi; subst. simpl. by rewrite Hu.
  - destruct (findIndex p l) as [j|]; [|discriminate]. inversion Hi; subst.
    simpl. rewrite Ea. by apply IH.
Qed.

Lemma find_insert_other {A} (q : A → bool) (l : list A) (i : nat) (u : A) :
  (∀ x, l !! i = Some x → q x = false) → q u = false →
  find q (<[i := u]> l) = find q l.
Proof.
  intros Hi Hu. revert i Hi. induction l as [|a l IH]; intros i Hi; [reflexivity|].
  destruct i as [|i]; simpl.
  - by rewrite Hu, (Hi a eq_refl).
  - destruct (q a); [reflexivity|]. apply IH. intros x Hx. by apply Hi.
Qed.

Lemma find_snoc {A} (q : A → bool) (l : list A) (u : A) :
  find q (l ++ [u]) = match find q l with
                      | Some x => Some x
                      | None => if q u then Some u else None
                      end.
Proof.
  induction l as [|a l IH]; [reflexivity|]. simpl. by destruct (q a).
Qed.

Lemma find_delete_other {A} (q : A → bool) (l : list A) (i : nat) :
  (∀ x, l !! i = Some x → q x = false) → find q (delete i l) = find q l.
Proof.
  revert i. induction l as [|a l IH]; intros i Hi; [reflexivity|].
  destruct i as [|i]; simpl.
  - by rewrite (Hi a eq_refl).
  - destruct (q a); [reflexivity|]. apply IH. intros x Hx. by apply Hi.
Qed.

Lemma find_delete_unique {A} (key : A → string) (v : string) (l : list A) (i : nat) :
  NoDup (key <$> l) →
  findIndex (λ x, String.eqb (key x) v) l = Some i →
  find (λ x, String.eqb (key x) v) (delete i l) = None.
Proof.
  intros Hnd Hi. apply findIndex_Some in Hi as (x & Hx & Hkey & _).
  apply String.eqb_eq in Hkey. apply find_none. intros y Hy.
  apply String.eqb_neq. intros Hkey'.
  apply list_elem_of_lookup in Hy as [j Hj].
  rewrite list_lookup_delete in Hj.
  assert (Hxi : (key <$> l) !! i = Some v) by (by rewrite list_lookup_fmap, Hx, <- Hkey).
  destruct (decide (j < i)) as [Hlt|Hge].
  - assert (Hyj : (key <$> l) !! j = Some v) by (by rewrite list_lookup_fmap, Hj, <- Hkey').
    pose proof (NoDup_lookup _ _ _ _ Hnd Hxi Hyj). lia.
  - assert (Hyj : (key <$> l) !! S j = Some v)
      by (by rewrite list_lookup_fmap, Hj, <- Hkey').
    pose proof (NoDup_lookup _ _ _ _ Hnd Hxi Hyj). lia.
Qed.

Lemma findIndex_exerciseId (exerciseId : string)
    (dayExercises : list WeeklyTemplateExercise.t) (i : nat) (x : WeeklyTemplateExercise.t) :
  findIndex (λ ex, String.eqb (WeeklyTemplateExercise.exerciseId ex) exerciseId)
            dayExercises = Some i →
  dayExercises !! i = Some x → WeeklyTemplateExercise.exerciseId x = exerciseId.
Proof.
  intros Hi Hx. apply findIndex_Some in Hi as (y & Hy & Hid & _).
  rewrite Hx in Hy. inversion Hy; subst. by apply String.eqb_eq.
Qed.

Lemma changeDayExercises_other (dayExercises : list WeeklyTemplateExercise.t)
    (exerciseId other : string) (targetSets : option Z) (targetReps : option string) :
  other ≠ exerciseId →
  find (λ te, String.eqb (WeeklyTemplateExercise.exerciseId te) other)
       (changeDayExercises dayExercises exerciseId targetSets targetReps)
  = find (λ te, String.eqb (WeeklyTemplateExercise.exerciseId te) other) dayExercises.
Proof.
  intros Hother. unfold changeDayExercises.
  assert (Hne : String.eqb exerciseId other = false) by (apply String.eqb_neq; congruence).
  assert (Hat : ∀ i x,
            findIndex (λ ex, String.eqb (WeeklyTemplateExercise.exerciseId ex) exerciseId)
                      dayExercises = Some i →
            dayExercises !! i = Some x →
            String.eqb (WeeklyTemplateExercise.exerciseId x) other = false).
  { intros i x Hi Hx. by rewrite (findIndex_exerciseId _ _ _ _ Hi Hx). }
  destruct (findIndex _ dayExercises) as [i|] eqn:Hi.
  - assert (Hsplice : find (λ te, String.eqb (WeeklyTemplateExercise.exerciseId te) other)
                           (delete i dayExercises)
                      = find (λ te, String.eqb (WeeklyTemplateExercise.exerciseId te) other)
                             dayExercises).
    { apply find_delete_other. intros x Hx. by apply (Hat i). }
    destruct targetSets as [n|]; [|exact Hsplice].
    destruct (0 <? n)%Z; [|exact Hsplice].
    apply find_insert_other; [|exact Hne]. intros x Hx. by apply (Hat i).
  - destruct targetSets as [n|]; [|reflexivity].
    destruct (0 <? n)%Z; [|reflexivity].
    rewrite find_snoc. simpl. rewrite Hne. by destruct (find _ dayExercises).
Qed.

Lemma changeDayExercises_set (dayExercises : list WeeklyTemplateExercise.t)
    (exerciseId : string) (n : Z) (targetReps : option string) :
  (0 < n)%Z →
  let old := find (λ te, String.eqb (WeeklyTemplateExercise.exerciseId te) exerciseId)
                  dayExercises in
  find (λ te, String.eqb (WeeklyTemplateExercise.exerciseId te) exerciseId)
       (changeDayExercises dayExercises exerciseId (Some n) targetReps)
  = Some (WeeklyTemplateExercise.mk exerciseId n
            (match targetReps with
             | None => old ≫= WeeklyTemplateExercise.targetReps
             | Some r => Some r
             end)
            (old ≫= WeeklyTemplateExercise.originalIndex)).
Proof.
  intros Hn old. unfold changeDayExercises.
  rewrite (proj2 (Z.ltb_lt 0 n) Hn). rewrite findIndex_lookup. fold old.
  destruct (findIndex _ dayExercises) as [i|] eqn:Hi.
  - apply find_insert_first; [exact Hi|]. simpl. apply String.eqb_refl.
  - rewrite find_snoc. simpl. rewrite String.eqb_refl.
    unfold old. rewrite find_none; [reflexivity|].
    apply findIndex_None in Hi. rewrite Forall_forall in Hi. exact Hi.
Qed.

Lemma changeDayExercises_unset (dayExercises : list WeeklyTemplateExercise.t)
    (exerciseId : string) (targetSets : option Z) (targetReps : option string) :
  match targetSets with Some n => (0 <? n)%Z | None => false end = false →
  NoDup (WeeklyTemplateExercise.exerciseId <$> dayExercises) →
  find (λ te, String.eqb (WeeklyTemplateExercise.exerciseId te) exerciseId)
       (changeDayExercises dayExercises exerciseId targetSets targetReps) = None.
Proof.
  intros Hnot Hnd. unfold changeDayExercises.
  assert (Hsplice :
            find (λ te, String.eqb (WeeklyTemplateExercise.exerciseId te) exerciseId)
                 match findIndex (λ ex, String.eqb (WeeklyTemplateExercise.exerciseId ex)
                                                    exerciseId) dayExercises with
                 | Some i => delete i dayExercises
                 | None => dayExercises
                 end = None).
  { destruct (findIndex _ dayExercises) as [i|] eqn:Hi.
    - by apply (find_delete_unique WeeklyTemplateExercise.exerciseId).
    - apply find_none. apply findIndex_None in Hi.
      rewrite Forall_forall in Hi. exact Hi. }
  destruct targetSets as [n|]; [|exact Hsplice]. by rewrite Hnot.
Qed.

Lemma changeDayExercises_NoDup (dayExercises : list WeeklyTemplateExercise.t)
    (exerciseId : string) (targetSets : option Z) (targetReps : option string) :
  NoDup (WeeklyTemplateExercise.exerciseId <$> dayExercises) →
  NoDup (WeeklyTemplateExercise.exerciseId
           <$> changeDayExercises dayExercises exerciseId targetSets targetReps).
Proof.
  intros Hnd. unfold changeDayExercises.
  assert (Hsplice :
            NoDup (WeeklyTemplateExercise.exerciseId <$>
                 match findIndex (λ ex, String.eqb (WeeklyTemplateExercise.exerciseId ex)
                                                    exerciseId) dayExercises with
                 | Some i => delete i dayExercises
                 | None => dayExercises
                 end)).
  { destruct (findIndex _ dayExercises) as [i|]; [|exact Hnd].
    eapply sublist_NoDup; [exact Hnd | apply fmap_sublist, sublist_delete]. }
  destruct targetSets as [n|]; [|exact Hsplice].
  destruct (0 <? n)%Z; [|exact Hsplice].
  destruct (findIndex _ dayExercises) as [i|] eqn:Hi.
  - rewrite list_fmap_insert. simpl.
    apply findIndex_Some in Hi as (x & Hx & Hid & _). apply String.eqb_eq in Hid.
    rewrite list_insert_id; [exact Hnd|]. by rewrite list_lookup_fmap, Hx, <- Hid.
  - rewrite fmap_app. simpl. apply NoDup_app. split; [exact Hnd|]. split.
    + intros id Hin Hlast. apply list_elem_of_singleton in Hlast. subst id.
      apply list_elem_of_fmap in Hin as (x & Hid & Hx).
      apply findIndex_None in Hi. rewrite Forall_forall in Hi.
      specialize (Hi x Hx). apply String.eqb_neq in Hi. congruence.
    + apply NoDup_singleton.
Qed.

Lemma findIndex_find_Some {A} (p : A → bool) (l : list A) (x : A) :
  find p l = Some x → ∃ i, findIndex p l = Some i ∧ l !! i = Some x.
Proof.
  intros Hfind. rewrite <- findIndex_lookup in Hfind.
  destruct (findIndex p l) as [i|]; [|discriminate]. by exists i.
Qed.

(** X25. handleTemplateExerciseChange keeps the weekdays of the template
    under edit and every lookup of an exercise in a day other than the
    edited one; without a day of the given number nothing changes and
    onDataChange is not called; with such a day and a positive target, the
    exercise is afterwards found in the day with that target, the given
    repetitions (the former ones when none are given) and the former
    original index, and initializeSetsForExercise then makes that many sets
    for it; with a target that is not positive or NaN, and distinct exercise
    ids in each day, the exercise is no longer found in the day;
    onDataChange receives the desynced data exactly when an active synced
    group id was set; exercise ids that were distinct in each day stay so. *)
Theorem handleTemplateExerciseChange_spec (data : AppData.t)
    (editingTemplate : list WeeklyTemplateDay.t) (dayIndex : nat)
    (exerciseId : string) (targetSets : option Z) (targetReps : option string) :
  let result :=
    handleTemplateExerciseChange data editingTemplate dayIndex exerciseId
                                 targetSets targetReps in
  let old := templateExerciseOf editingTemplate dayIndex exerciseId in
  WeeklyTemplateDay.dayOfWeek <$> result.1 = WeeklyTemplateDay.dayOfWeek <$> editingTemplate ∧
  (∀ day other, day ≠ dayIndex ∨ other ≠ exerciseId →
                templateExerciseOf result.1 day other
                = templateExerciseOf editingTemplate day other) ∧
  (find (λ d, WeeklyTemplateDay.dayOfWeek d =? dayIndex) editingTemplate = None →
   result = (editingTemplate, None)) ∧
  (is_Some (find (λ d, WeeklyTemplateDay.dayOfWeek d =? dayIndex) editingTemplate) →
   (∀ n, targetSets = Some n → (0 < n)%Z →
         templateExerciseOf result.1 dayIndex exerciseId
         = Some (WeeklyTemplateExercise.mk exerciseId n
                   (match targetReps with
                    | None => old ≫= WeeklyTemplateExercise.targetReps
                    | Some r => Some r
                    end)
                   (old ≫= WeeklyTemplateExercise.originalIndex)) ∧
         length (initializeSetsForExercise result.1 exerciseId dayIndex) = Z.to_nat n) ∧
   (match targetSets with Some n => (0 <? n)%Z | None => false end = false →
    distinctExercises editingTemplate →
    templateExerciseOf result.1 dayIndex exerciseId = None) ∧
   result.2 = if truthy (AppData.activeSyncedGroupId data)
              then Some (desyncActiveGroup data) else None) ∧
  (distinctExercises editingTemplate → distinctExercises result.1).
Proof.
  intros result old. unfold result, handleTemplateExerciseChange.
  rewrite deepCopyTemplate_id.
  set (change := λ dayObject,
         WeeklyTemplateDay.mk (WeeklyTemplateDay.dayOfWeek dayObject)
           (changeDayExercises (WeeklyTemplateDay.exercises dayObject)
              exerciseId targetSets targetReps)).
  assert (Hday : ∀ day d, (WeeklyTemplateDay.dayOfWeek (change d) =? day)
                          = (WeeklyTemplateDay.dayOfWeek d =? day)) by reflexivity.
  destruct (findIndex (λ d, WeeklyTemplateDay.dayOfWeek d =? dayIndex) editingTemplate)
    as [dayAt|] eqn:Hat.
  - destruct (findIndex_Some _ _ _ Hat) as (dayObject & HdayObject & Hnum & Hfirst).
    apply Nat.eqb_eq in Hnum.
    assert (Hfound : find (λ d, WeeklyTemplateDay.dayOfWeek d =? dayIndex)
                          (alter change dayAt editingTemplate)
                     = change <$> find (λ d, WeeklyTemplateDay.dayOfWeek d =? dayIndex)
                                       editingTemplate)
      by (by apply find_alter_first).
    cbn [fst snd].
    split; [|split; [|split; [|split]]].
    + apply list_eq. intros j. rewrite !list_lookup_fmap.
      destruct (decide (j = dayAt)) as [->|Hj].
      * rewrite list_lookup_alter_eq. by destruct (editingTemplate !! dayAt).
      * by rewrite list_lookup_alter_ne.
    + intros day other Hother. unfold templateExerciseOf.
      destruct (decide (day = dayIndex)) as [->|Hne].
      * rewrite Hfound. destruct (find _ editingTemplate) as [d|]; [|reflexivity].
        simpl. apply changeDayExercises_other. by destruct Hother.
      * rewrite find_alter_other; [reflexivity|].
        intros x Hx. rewrite HdayObject in Hx. inversion Hx; subst x.
        rewrite Hday. split; apply Nat.eqb_neq; lia.
    + intros Hnone. rewrite <- findIndex_lookup, Hat in Hnone. simpl in Hnone.
      rewrite HdayObject in Hnone. discriminate Hnone.
    + intros _. split; [|split; [|reflexivity]].
      * intros n -> Hn.
        assert (Hset : templateExerciseOf (alter change dayAt editingTemplate)
                         dayIndex exerciseId
                       = Some (WeeklyTemplateExercise.mk exerciseId n
                                 (match targetReps with
                                  | None => old ≫= WeeklyTemplateExercise.targetReps
                                  | Some r => Some r
                                  end)
                                 (old ≫= WeeklyTemplateExercise.originalIndex))).
        { unfold old, templateExerciseOf. rewrite Hfound.
          destruct (find _ editingTemplate) as [d|] eqn:Hd.
          - simpl. by apply changeDayExercises_set.
          - rewrite <- findIndex_lookup, Hat in Hd. simpl in Hd.
            rewrite HdayObject in Hd. discriminate Hd. }
        split; [exact Hset|].
        unfold initializeSetsForExercise. rewrite length_map, length_seq, Hset.
        simpl. destruct (n =? 0)%Z eqn:E0; [apply Z.eqb_eq in E0|]; lia.
      * intros Hnot Hdistinct. unfold templateExerciseOf. rewrite Hfound.
        destruct (find _ editingTemplate) as [d|] eqn:Hd; [|reflexivity].
        simpl. apply changeDayExercises_unset; [exact Hnot|].
        apply Hdistinct. apply find_some in Hd as [Hin _]. by apply list_elem_of_In.
    + intros Hdistinct day Hin. apply list_elem_of_lookup in Hin as [j Hj].
      destruct (decide (j = dayAt)) as [->|Hne].
      * rewrite list_lookup_alter_eq, HdayObject in Hj. inversion Hj; subst day.
        simpl. apply changeDayExercises_NoDup, Hdistinct.
        by apply list_elem_of_lookup_2 in HdayObject.
      * rewrite list_lookup_alter_ne in Hj by done.
        apply Hdistinct. by apply list_elem_of_lookup_2 in Hj.
  - assert (Hnone : find (λ d, WeeklyTemplateDay.dayOfWeek d =? dayIndex) editingTemplate
                    = None).
    { apply find_none. apply findIndex_None in Hat.
      rewrite Forall_forall in Hat. exact Hat. }
    cbn [fst snd]. split; [reflexivity|]. split; [reflexivity|]. split; [reflexivity|].
    split; [|done]. rewrite Hnone. intros [x Hx]. discriminate Hx.
Qed.

(** ** The progress chart *)






(** ** The theorems on concrete inputs *)

Lemma Sample_collation_consistent : consistent_collation Sample.localeCompare.
Proof.
  unfold consistent_collation, Sample.localeCompare. split.
  - intros a b. rewrite (String.compare_antisym b a).
    destruct (String.compare a b); simpl; lia.
  - intros a b c Hab Hbc.
    destruct (String.compare a b) eqn:Eab; [| |lia].
    + apply String.compare_eq_iff in Eab. by subst.
    + destruct (String.compare b c) eqn:Ebc; [| |lia].
      * apply String.compare_eq_iff in Ebc. subst. by rewrite Eab.
      * apply OrderedTypeEx.String_as_OT.cmp_lt in Eab, Ebc.
        pose proof (OrderedTypeEx.String_as_OT.lt_trans _ _ _ Eab Ebc) as Hac.
        apply OrderedTypeEx.String_as_OT.cmp_lt in Hac.
        unfold OrderedTypeEx.String_as_OT.cmp in Hac. by rewrite Hac.
Qed.

(** C2: an empty [activeSyncedGroupId] is not cleared. *)
Lemma desyncActiveGroup_empty_id :
  let data := AppData.mk "u1" [] Sample.week [] [] (Some "") in
  desyncActiveGroup data = data ∧
  AppData.activeSyncedGroupId (desyncActiveGroup data) ≠ None.
Proof. split; [reflexivity | discriminate]. Qed.

Lemma desync_on_edit_witness :
  updateWeeklyTemplate (AppData.mk "u1" [] Sample.week [] [] (Some "")) Sample.pushDay
  = AppData.mk "u1" [] Sample.pushDay [] [] None ∧
  AppData.weeklyTemplate (updateWeeklyTemplate Sample.data Sample.pushDay)
  = Sample.pushDay ∧
  AppData.activeSyncedGroupId (updateWeeklyTemplate Sample.data Sample.pushDay) = None ∧
  AppData.activeSyncedGroupId (desyncActiveGroup Sample.data) = None.
Proof.
  destruct (desync_on_edit (AppData.mk "u1" [] Sample.week [] [] (Some ""))
              Sample.pushDay) as [Hempty _]; [reflexivity|].
  destruct (desync_on_edit Sample.data Sample.pushDay) as [Hu Hd]; [reflexivity|].
  split; [exact Hempty|]. rewrite Hu, Hd by discriminate. repeat split.
Defined.

(** C3: a weekday named on the sixth line is not detected; the plan goes
    to Monday, the weekday of the first column. *)
Lemma parse_day_on_sixth_line :
  let rawText :=
    Sample.plan ["Week 3"; "Block A"; "Upper"; "Heavy"; "Notes"; "Tuesday";
                 "Movement Sets Reps"; "Back Squat 3 10"] in
  linesOf rawText !! 5 = Some "Tuesday" ∧
  isDayName "Tuesday" 2 ∧
  linesOf rawText !! 6 = Some "Movement Sets Reps" ∧
  isHeaderRow "Movement Sets Reps" ∧
  parseFullWorkoutPlanFromText rawText !! 2 = None ∧
  parseFullWorkoutPlanFromText rawText !! 1
  = Some [ParsedCSVExercisePlanItem.mk "Back Squat" 3 (Some "10") (Some 0)].
Proof.
  repeat split; try reflexivity.
  exists "Tuesday". split; reflexivity.
Qed.

Lemma parse_detected_day_witness :
  let rawText :=
    Sample.plan ["Week 3"; "tuesday  "; ""; "Movement   Sets  Reps"; "Back Squat 3 10";
                 ""; "Plank 3 30s ea"; "rest"] in
  ∃ h header,
    headerRowAt (linesOf rawText) 2 h header ∧
    parseFullWorkoutPlanFromText rawText
    = {[ 2 := itemsOfLines (λ l, l) (drop (h + 1) (linesOf rawText)) ]}.
Proof.
  intros rawText.
  apply (parse_detected_day rawText 1 2 3 "tuesday" "Movement   Sets  Reps").
  - lia.
  - reflexivity.
  - exists "Tuesday". split; reflexivity.
  - intros k l d' Hk Hl (day & Hday & Heq).
    destruct k as [|k]; [|lia]. vm_compute in Hl. inversion Hl; subst.
    do 7 (destruct d' as [|d']; [inversion Hday; subst; discriminate|]). discriminate.
  - lia.
  - reflexivity.
  - split; reflexivity.
Defined.

(** C4: a stored week that starts on Monday stays as stored. *)
Lemma loadData_keeps_stored_days :
  (λ app, WeeklyTemplateDay.dayOfWeek <$> AppData.weeklyTemplate app)
    <$> loadData Sample.localeCompare Sample.parseDocument (Some "monday-first") "fresh"
  = Some [1; 2; 3; 4; 5; 6; 0].
Proof. reflexivity. Qed.

Lemma loadData_shape_witness :
  ∃ app,
    loadData Sample.localeCompare Sample.parseDocument (Some "{}") "fresh" = Some app ∧
    length (AppData.weeklyTemplate app) = 7 ∧
    AppData.exercises app = [] ∧ AppData.dailyLogs app = [] ∧ AppData.groups app = [].
Proof.
  destruct (loadData_shape Sample.localeCompare Sample.parseDocument
              (Some "{}") "fresh" StoredData.empty)
    as (app & Hload & Hlen & _ & _ & Hex & Hlogs & Hgroups).
  - reflexivity.
  - exists app. repeat split; assumption.
Defined.



(** C6: with a date that is not a date the series is not put in order.
    Every comparison with that date is [NaN], so neither greater nor less
    than 0, and the sort moves nothing. *)
Lemma calculate1RMData_invalid_date :
  let day := λ date, DailyLog.mk date [Sample.squat [Sample.set 1 "100" "1"]] in
  let data :=
    AppData.mk "u1" [] Sample.week [day "2024-01-03"; day "bad"; day "2024-01-01"]
      [] None in
  Sample.getTime "bad" = None ∧
  OneRepMaxDataPoint.date <$> calculate1RMData Sample.getTime Sample.parseFloat data
  = ["2024-01-03"; "bad"; "2024-01-01"] ∧
  ¬ StronglySorted
      (λ a b, time_le Sample.getTime (OneRepMaxDataPoint.date a)
                      (OneRepMaxDataPoint.date b))
      (calculate1RMData Sample.getTime Sample.parseFloat data).
Proof.
  split; [reflexivity|]. split; [by vm_compute|].
  intros Hsorted. apply StronglySorted_inv in Hsorted as [_ Hall].
  apply Forall_inv in Hall. vm_compute in Hall. exact Hall.
Qed.

Lemma calculate1RMData_spec_witness :
  StronglySorted
    (λ a b, time_le Sample.getTime (OneRepMaxDataPoint.date a) (OneRepMaxDataPoint.date b))
    (calculate1RMData Sample.getTime Sample.parseFloat Sample.data).
Proof.
  destruct (calculate1RMData_spec Sample.getTime Sample.parseFloat Sample.data)
    as (ptss & _ & _ & Hsorted).
  apply Hsorted. repeat constructor; vm_compute; eauto.
Defined.

Lemma applyGroupTemplateToUser_spec_witness :
  applyGroupTemplateToUser Sample.data "g1"
  = AppData.mk "u1" (AppData.exercises Sample.data) Sample.pushDay
      (AppData.dailyLogs Sample.data) (AppData.groups Sample.data) (Some "g1") ∧
  applyGroupTemplateToUser Sample.data "g7" = Sample.data.
Proof.
  split.
  - apply (proj1 (applyGroupTemplateToUser_spec Sample.data "g1") 0
             (Sample.group "g1" "u2" "2024-02-01")).
    + reflexivity.
    + reflexivity.
    + intros j g Hj. lia.
  - apply (proj2 (applyGroupTemplateToUser_spec Sample.data "g7")).
    intros g Hg. vm_compute in Hg.
    repeat (apply elem_of_cons in Hg as [->|Hg]; [discriminate|]).
    by apply elem_of_nil in Hg.
Defined.

Lemma addGroupFromImport_spec_witness :
  refused Sample.data (addGroupFromImport Sample.getTime Sample.parseGroup Sample.data "{") ∧
  refused Sample.data
    (addGroupFromImport Sample.getTime Sample.parseGroup Sample.data "no-name") ∧
  accepted Sample.data [Sample.group "g1" "u2" "2024-03-01"]
    (addGroupFromImport Sample.getTime Sample.parseGroup Sample.data "g1-new").
Proof.
  split; [|split].
  - destruct (addGroupFromImport_spec Sample.getTime Sample.parseGroup Sample.data "{")
      as (_ & Hnone & _).
    by apply Hnone.
  - destruct (addGroupFromImport_spec Sample.getTime Sample.parseGroup Sample.data "no-name")
      as (_ & _ & Hmissing & _).
    eapply Hmissing; [reflexivity|]. right; left. reflexivity.
  - destruct (addGroupFromImport_spec Sample.getTime Sample.parseGroup Sample.data "g1-new")
      as (_ & _ & _ & Hvalid).
    destruct (Hvalid _ (Sample.group "g1" "u2" "2024-03-01") eq_refl eq_refl) as [_ Hsame].
    + unfold missingField; simpl. intros H. repeat destruct H as [H|H]; discriminate.
    + destruct (Hsame 0 (Sample.group "g1" "u2" "2024-02-01")) as [Hreplace _].
      * reflexivity.
      * reflexivity.
      * intros j o Hj. lia.
      * apply Hreplace. split; [vm_compute; reflexivity | discriminate].
Defined.

(** C9: with a stored date that is not a date the logs are not put in
    order, although no two logs share a date.  Every comparison with that
    date is [NaN], so neither greater nor less than 0, and the sort moves
    nothing. *)
Lemma upsertDailyLog_invalid_date :
  let data :=
    AppData.mk "u1" [] Sample.week [DailyLog.mk "2024-01-03" []; DailyLog.mk "bad" []]
      [] None in
  let log := DailyLog.mk "2024-01-01" [] in
  NoDup (DailyLog.date <$> AppData.dailyLogs data) ∧
  Sample.getTime "bad" = None ∧
  DailyLog.date <$> AppData.dailyLogs (upsertDailyLog Sample.getTime data log)
  = ["2024-01-03"; "bad"; "2024-01-01"] ∧
  ¬ StronglySorted (λ a b, time_le Sample.getTime (DailyLog.date a) (DailyLog.date b))
      (AppData.dailyLogs (upsertDailyLog Sample.getTime data log)).
Proof.
  split; [by apply (bool_decide_unpack _)|].
  split; [reflexivity|]. split; [by vm_compute|].
  intros Hsorted. apply StronglySorted_inv in Hsorted as [_ Hall].
  apply Forall_inv in Hall. vm_compute in Hall. exact Hall.
Qed.

Lemma upsertDailyLog_spec_witness :
  let log := DailyLog.mk "2024-01-08" [] in
  AppData.dailyLogs (upsertDailyLog Sample.getTime Sample.data log)
  ≡ₚ log :: filter (λ l, DailyLog.date l ≠ DailyLog.date log) (AppData.dailyLogs Sample.data) ∧
  StronglySorted (λ a b, time_le Sample.getTime (DailyLog.date a) (DailyLog.date b))
    (AppData.dailyLogs (upsertDailyLog Sample.getTime Sample.data log)).
Proof.
  intros log.
  destruct (upsertDailyLog_spec Sample.getTime Sample.data log)
    as (_ & _ & _ & Hperm & Hsorted & _).
  - by apply (bool_decide_unpack _).
  - split; [exact Hperm|]. apply Hsorted. repeat constructor; vm_compute; eauto.
Defined.

Lemma parse_columns_witness :
  let rawText :=
    Sample.plan ["Movement  Sets Reps     Movement  Sets Reps";
                 "Back Squat 3 10         Bench Press 4 8";
                 "";
                 "Plank 3 30s ea"] in
  ∃ h header,
    headerRowAt (linesOf rawText) 0 h header ∧
    parseFullWorkoutPlanFromText rawText !! 1
    = k ← columnOfDay 1;
      col ← columnAt (String.length header)
                     (occurrences "movement" (Js.toLowerCase header)) 1 k;
      match itemsOfLines (λ line, charsAt line (ColDef.start col) (ColDef.end_ col))
                         (drop (h + 1) (linesOf rawText)) with
      | [] => None
      | items => Some items
      end.
Proof.
  intros rawText.
  destruct (parse_columns rawText) as (h & header & Hat & Hplan).
  - intros line d Hin (day & Hday & Heq). vm_compute in Hin.
    repeat (apply elem_of_cons in Hin as [->|Hin];
            [do 7 (destruct d as [|d]; [inversion Hday; subst; discriminate|]);
             discriminate|]).
    by apply elem_of_nil in Hin.
  - exists "Movement  Sets Reps     Movement  Sets Reps".
    split; [left | split; reflexivity].
  - exists h, header. split; [exact Hat | apply Hplan].
Defined.

(** The parser of one cell on cells of the usual shapes. *)
Example extract_name_sets_reps :
  extractWorkoutFromTextBlock "  Back Squat   3  10 "
  = Some (ParsedCSVExercisePlanItem.mk "Back Squat" 3 (Some "10") None).
Proof. reflexivity. Qed.

Example extract_reps_with_units :
  extractWorkoutFromTextBlock "Side Plank 3 30 s ea"
  = Some (ParsedCSVExercisePlanItem.mk "Side Plank" 3 (Some "30 s ea") None).
Proof. reflexivity. Qed.

Example extract_reps_not_a_number :
  extractWorkoutFromTextBlock "Pull Up 4 AMRAP"
  = Some (ParsedCSVExercisePlanItem.mk "Pull Up" 4 None None).
Proof. reflexivity. Qed.

Example extract_no_name : extractWorkoutFromTextBlock "3 10" = None.
Proof. reflexivity. Qed.

Example extract_too_many_sets : extractWorkoutFromTextBlock "Row 100 10" = None.
Proof. reflexivity. Qed.

Example parse_two_columns :
  map_to_list
    (parseFullWorkoutPlanFromText
       (Sample.plan ["Movement  Sets Reps     Movement  Sets Reps";
                     "Back Squat 3 10         Bench Press 4 8";
                     "";
                     "Plank 3 30s ea"]))
  ≡ₚ [(1, [ParsedCSVExercisePlanItem.mk "Back Squat" 3 (Some "10") (Some 0);
           ParsedCSVExercisePlanItem.mk "Plank" 3 (Some "30s ea") (Some 1)]);
      (2, [ParsedCSVExercisePlanItem.mk "Bench Press" 4 (Some "8") (Some 0)])].
Proof. vm_compute. apply Permutation_swap. Qed.

Example series_of_the_sample :
  calculate1RMData Sample.getTime Sample.parseFloat Sample.data
  = [OneRepMaxDataPoint.mk "2024-01-01" "Squat" (Sample.decimal 10000 2);
     OneRepMaxDataPoint.mk "2024-01-08" "Squat" (Sample.decimal 12100 2)].
Proof. by vm_compute. Qed.

(** The estimate is rounded as the double that it is: 20.25 at 9
    repetitions is the double 26.324999999999996, shown as 26.32, where the
    formula over the rationals gives 26.325. *)
Example estimate_of_a_double :
  toFixed2 (Double.calculateEpley1RM (Sample.parseFloat "20.25") (Double.of_N 9))
  = Sample.decimal 2632 2 ∧
  (calculateEpley1RM (2025 # 100) 9 == 26325 # 1000)%Q.
Proof. split; by vm_compute. Qed.

(** [parseInt] reads long digits as the nearest double: [2^53 + 1] as
    [2^53], in a row of a CSV plan too. *)
Example digits_beyond_the_doubles :
  Double.of_N 9007199254740993 = Double.of_N 9007199254740992 ∧
  Double.of_Z (10 ^ 400) = S754_infinity false ∧
  Js.toDouble 9007199254740993 = 9007199254740992%N ∧
  Js.toDouble 9007199254740995 = 9007199254740996%N ∧
  Double.of_N (Js.toDouble 123456789012345678901234567890)
  = Double.of_N 123456789012345678901234567890 ∧
  parseCSVExercisePlan "Squat,9007199254740993,5"
  = [ParsedCSVExercisePlanItem.mk "Squat" 9007199254740992 (Some "5") None].
Proof. repeat split; by vm_compute. Qed.

Lemma Sample_synced : syncedGroupExists Sample.data.
Proof.
  intros id Hid. exists (Sample.group "g1" "u2" "2024-02-01").
  split; [by left | by inversion Hid].
Qed.


Lemma Sample_no_group (id : string) :
  id ≠ "g1" → ∀ g, g ∈ AppData.groups Sample.data → Group.id g ≠ id.
Proof.
  intros Hid g Hg. apply list_elem_of_singleton in Hg. subst g. simpl. congruence.
Qed.

Lemma getDailyLog_upsertDailyLog_witness :
  let log := DailyLog.mk "2024-01-08" [] in
  getDailyLog (upsertDailyLog Sample.getTime Sample.data log) "2024-01-08" = Some log ∧
  getDailyLog (upsertDailyLog Sample.getTime Sample.data log) "2024-01-01"
  = getDailyLog Sample.data "2024-01-01".
Proof.
  intros log. split.
  - apply (getDailyLog_upsertDailyLog Sample.getTime Sample.data log "2024-01-08").
    by apply (bool_decide_unpack _).
  - apply (getDailyLog_upsertDailyLog Sample.getTime Sample.data log "2024-01-01").
    by apply (bool_decide_unpack _).
Defined.

Lemma syncedGroupExists_preserved_witness :
  syncedGroupExists (removeGroup Sample.data "g1") ∧
  syncedGroupExists (updateWeeklyTemplate Sample.data Sample.pushDay) ∧
  syncedGroupExists (applyGroupTemplateToUser Sample.data "g1").
Proof.
  destruct (syncedGroupExists_preserved Sample.getTime Sample.localeCompare
              Sample.parseGroup Sample.stringify Sample.data Sample_synced)
    as (_ & _ & Hremove & _ & Happly & Htemplate & _).
  split; [apply Hremove | split; [apply Htemplate | apply Happly]].
Defined.

Lemma uniqueGroupIds_preserved_witness :
  uniqueGroupIds (removeGroup Sample.data "g1") ∧
  uniqueGroupIds (createGroup Sample.data "Team" "g2" "XYZ234" "2024-03-02").
Proof.
  destruct (uniqueGroupIds_preserved Sample.getTime Sample.parseGroup Sample.data)
    as (_ & _ & Hremove & _ & Hcreate).
  - by apply (bool_decide_unpack _).
  - split; [apply Hremove|]. apply Hcreate. by apply Sample_no_group.
Defined.

Lemma applyGroupTemplateToUser_createGroup_witness :
  let created := createGroup Sample.data " Team " "g2" "XYZ234" "2024-03-02" in
  let synced := applyGroupTemplateToUser created "g2" in
  AppData.weeklyTemplate synced = AppData.weeklyTemplate Sample.data ∧
  AppData.activeSyncedGroupId synced = Some "g2" ∧
  AppData.groups synced = AppData.groups created ∧
  AppData.groups created
  = AppData.groups Sample.data ++
      [Group.mk "g2" "Team" "u1" "XYZ234" Sample.week "2024-03-02"].
Proof.
  apply (applyGroupTemplateToUser_createGroup Sample.data " Team " "g2" "XYZ234"
           "2024-03-02").
  - discriminate.
  - by apply Sample_no_group.
Defined.

Lemma applyGroupTemplateToUser_addGroupFromImport_witness :
  let r := addGroupFromImport Sample.getTime Sample.parseGroup Sample.data "g1-new" in
  ∃ g, ImportResult.importedGroup r = Some g ∧
       g ∈ AppData.groups (ImportResult.newData r) ∧
       let synced := applyGroupTemplateToUser (ImportResult.newData r) (Group.id g) in
       AppData.weeklyTemplate synced = Group.sharedTemplate g ∧
       AppData.activeSyncedGroupId synced = Some (Group.id g) ∧
       AppData.groups synced = AppData.groups (ImportResult.newData r).
Proof.
  apply (applyGroupTemplateToUser_addGroupFromImport Sample.getTime Sample.parseGroup
           Sample.data "g1-new").
  reflexivity.
Defined.

Lemma updateGroupSharedTemplate_spec_witness :
  updateGroupSharedTemplate Sample.owned "g1" "2024-03-02"
  = AppData.mk "u1" [Exercise.mk "e1" "Squat"] Sample.week Sample.logs
      [Group.mk "g1" "Lifters" "u1" "ABC234" Sample.week "2024-03-02"] None ∧
  updateGroupSharedTemplate Sample.data "g1" "2024-03-02" = Sample.data.
Proof.
  split.
  - destruct (updateGroupSharedTemplate_spec Sample.owned "g1" "2024-03-02")
      as [_ Hupdate].
    apply (Hupdate 0 (Sample.group "g1" "u1" "2024-02-01")).
    + reflexivity.
    + by split.
    + intros j o Hj. lia.
  - destruct (updateGroupSharedTemplate_spec Sample.data "g1" "2024-03-02")
      as [Hsame _].
    apply Hsame. intros g Hg [_ Hown]. apply list_elem_of_singleton in Hg. subst g.
    discriminate Hown.
Defined.

Lemma applyGroupTemplateToUser_updateGroupSharedTemplate_witness :
  let synced :=
    applyGroupTemplateToUser (updateGroupSharedTemplate Sample.owned "g1" "2024-03-02")
                             "g1" in
  AppData.weeklyTemplate synced = AppData.weeklyTemplate Sample.owned ∧
  AppData.activeSyncedGroupId synced = Some "g1".
Proof.
  apply (applyGroupTemplateToUser_updateGroupSharedTemplate Sample.owned "g1"
           "2024-03-02" (Sample.group "g1" "u1" "2024-02-01")).
  - by apply (bool_decide_unpack _).
  - by left.
  - reflexivity.
  - reflexivity.
Defined.

Lemma removeGroup_spec_witness :
  AppData.activeSyncedGroupId (removeGroup Sample.data "g9") = Some "g1" ∧
  AppData.activeSyncedGroupId (removeGroup Sample.data "g1") ≠ Some "g1".
Proof.
  split.
  - destruct (removeGroup_spec Sample.data "g9") as (_ & _ & Hkeep & _).
    apply Hkeep. discriminate.
  - by destruct (removeGroup_spec Sample.data "g1") as (_ & Hgone & _).
Defined.

Lemma loadData_saveData_witness :
  let saved := saveData Sample.localeCompare Sample.stringify Sample.data in
  loadData Sample.localeCompare Sample.parseSaved (Some saved.2) "fresh" = Some saved.1 ∧
  saveData Sample.localeCompare Sample.stringify saved.1 = saved.
Proof.
  apply (loadData_saveData Sample.localeCompare Sample.parseSaved Sample.stringify
           Sample.data "fresh").
  - apply Sample_collation_consistent.
  - reflexivity.
  - discriminate.
  - discriminate.
  - discriminate.
  - reflexivity.
Defined.

Lemma addExercise_again_witness :
  let first := addExercise Sample.localeCompare Sample.data "Deadlift" "e2" in
  ∃ ex, first.2 = Some ex ∧
        lowerName ex = "deadlift" ∧
        addExercise Sample.localeCompare first.1 " deadlift " "e3" = (first.1, Some ex).
Proof.
  apply (addExercise_again Sample.localeCompare Sample.data "Deadlift" " deadlift "
           "e2" "e3").
  - by apply (bool_decide_unpack _).
  - discriminate.
  - reflexivity.
Defined.

Lemma extractWorkoutFromTextBlock_sound_witness :
  wellFormedItem (ParsedCSVExercisePlanItem.mk "Back Squat" 3 (Some "10") None) ∧
  extractWorkoutFromTextBlock "Rest" = None.
Proof.
  split.
  - destruct (extractWorkoutFromTextBlock_sound "Back Squat 3 10") as [Hitem _].
    by apply Hitem.
  - destruct (extractWorkoutFromTextBlock_sound "Rest") as [_ Hword].
    by apply Hword.
Defined.

Lemma parseFullWorkoutPlanFromText_sound_witness :
  let items :=
    [ParsedCSVExercisePlanItem.mk "Back Squat" 3 (Some "10") (Some 0);
     ParsedCSVExercisePlanItem.mk "Plank" 3 (Some "30s ea") (Some 1)] in
  2 < 7 ∧
  ∀ i item, items !! i = Some item →
            ParsedCSVExercisePlanItem.originalIndex item = Some i ∧ wellFormedItem item.
Proof.
  apply (parseFullWorkoutPlanFromText_sound
           (Sample.plan ["Week 3"; "tuesday  "; ""; "Movement   Sets  Reps";
                         "Back Squat 3 10"; ""; "Plank 3 30s ea"; "rest"])).
  reflexivity.
Defined.

Lemma parseFullWorkoutPlanFromText_no_header_witness :
  parseFullWorkoutPlanFromText (Sample.plan ["Tuesday"; "Back Squat 3 10"]) = ∅.
Proof.
  apply parseFullWorkoutPlanFromText_no_header.
  intros line Hline [Hmovement _]. vm_compute in Hline.
  repeat (apply elem_of_cons in Hline as [->|Hline]; [discriminate Hmovement|]).
  by apply elem_of_nil in Hline.
Defined.

Lemma parseCSVExercisePlan_sound_witness :
  let csvText := Sample.plan ["Squat,3,10"; ""; "Bench, 4"; "rest day"] in
  (∀ item, item ∈ [ParsedCSVExercisePlanItem.mk "Squat" 3 (Some "10") None;
                   ParsedCSVExercisePlanItem.mk "Bench" 4 None None] →
           ParsedCSVExercisePlanItem.name item ≠ "" ∧
           (0 < ParsedCSVExercisePlanItem.targetSets item)%N ∧
           ParsedCSVExercisePlanItem.targetReps item ≠ Some "" ∧
           ParsedCSVExercisePlanItem.originalIndex item = None) ∧
  parseCSVExercisePlan "  " = [].
Proof.
  intros csvText. split.
  - by destruct (parseCSVExercisePlan_sound csvText) as [Hitems _].
  - destruct (parseCSVExercisePlan_sound "  ") as (_ & _ & Hblank). by apply Hblank.
Defined.

Lemma parseCSVExercisePlan_row_witness :
  parseCSVExercisePlan "Back Squat,3,8-10"
  = [ParsedCSVExercisePlanItem.mk "Back Squat" 3 (Some "8-10") None].
Proof.
  apply (parseCSVExercisePlan_row "Back Squat" "3" (Some "8-10")).
  - by repeat split.
  - reflexivity.
  - by vm_compute.
  - intros r [= <-]. by repeat split.
Defined.

Lemma getExerciseSetHistory_spec_witness :
  StronglySorted (history_le Sample.getTime)
                 (getExerciseSetHistory Sample.getTime Sample.data "e1").
Proof.
  destruct (getExerciseSetHistory_spec Sample.getTime Sample.data "e1")
    as (_ & _ & Hsorted).
  apply Hsorted. repeat constructor; vm_compute; eauto.
Defined.

Lemma saveTemplate_spec_witness :
  AppData.weeklyTemplate (saveTemplate Sample.data Sample.pushDay) = Sample.pushDay ∧
  WeeklyTemplateDay.dayOfWeek
    <$> AppData.weeklyTemplate (saveTemplate Sample.data [WeeklyTemplateDay.mk 3 []])
  = seq 0 7.
Proof.
  split.
  - destruct (saveTemplate_spec Sample.data Sample.pushDay) as (_ & _ & Hsame & _).
    by apply Hsame.
  - by destruct (saveTemplate_spec Sample.data [WeeklyTemplateDay.mk 3 []]) as (Hweek & _).
Defined.

Lemma sets_numbered_witness :
  let fresh := initializeSetsForExercise Sample.pushDay "e1" 1 in
  numberedSets fresh ∧
  length fresh = 3 ∧
  numberedSets (addSet Sample.pushDay 1 "e1" fresh) ∧
  length (removeSet fresh 1) = 2 ∧
  initializeSetsForExercise
    [WeeklyTemplateDay.mk 1 [WeeklyTemplateExercise.mk "e1" (-1)%Z None None]] "e1" 1
  = [].
Proof.
  intros fresh.
  destruct (sets_numbered Sample.pushDay 1 "e1")
    as ((Hfresh & _ & Htarget & _) & Hadd & Hremove).
  destruct (Htarget (WeeklyTemplateExercise.mk "e1" 3%Z (Some "10") None) eq_refl)
    as (Hlength & _).
  split; [exact Hfresh|]. split; [by apply Hlength|]. split; [|split].
  - destruct (Hadd fresh) as (Hkeep & _). by apply Hkeep.
  - destruct (Hremove fresh 1) as (_ & Hlen & _). apply Hlen. vm_compute. lia.
  - destruct (sets_numbered
                [WeeklyTemplateDay.mk 1
                   [WeeklyTemplateExercise.mk "e1" (-1)%Z None None]] 1 "e1")
      as ((_ & _ & Hnegative & _) & _).
    by apply (Hnegative (WeeklyTemplateExercise.mk "e1" (-1)%Z None None) eq_refl).
Defined.

Lemma generateInviteCode_spec_witness :
  let code := generateInviteCode (λ i, 5 * i) in
  String.length code = 6 ∧
  (∀ i, i < 6 → String.get i code = String.get (5 * i) inviteChars) ∧
  (∀ c, hasChar c code = true → hasChar c inviteChars = true).
Proof.
  apply (generateInviteCode_spec (λ i, 5 * i)).
  intros i Hi. change (String.length inviteChars) with 32. lia.
Defined.

Lemma Sample_distinct_sets :
  distinctSetNumbers
    (DailyLog.mk "2024-01-08"
       [Sample.squat [Sample.set 1 "100" "5"; Sample.set 2 "110" "3";
                      Sample.set 3 "" "x"]]).
Proof.
  intros le Hle. apply list_elem_of_singleton in Hle. subst le. split.
  - by apply (bool_decide_unpack _).
  - intros set Hset. simpl in Hset.
    repeat (apply elem_of_cons in Hset as [->|Hset]; [simpl; lia|]).
    by apply elem_of_nil in Hset.
Qed.

Lemma Sample_naturalTargets : naturalTargets 1 Sample.pushDay.
Proof.
  intros templateDay te [= <-] Hte. simpl in Hte.
  apply list_elem_of_singleton in Hte. subst te. simpl. lia.
Qed.

Lemma getDayStatus_rest_witness :
  getDayStatus "2024-01-08" 1 Sample.logs Sample.pushDay = StatusRest
  ↔ plannedSets 1 Sample.pushDay = 0%Z.
Proof.
  apply (getDayStatus_rest "2024-01-08" 1 Sample.logs Sample.pushDay).
  apply Sample_naturalTargets.
Defined.

Lemma getDayStatus_completed_witness :
  getDayStatus "2024-01-08" 1 Sample.logs Sample.pushDay = StatusCompleted
  ↔ plannedSets 1 Sample.pushDay ≠ 0%Z ∧
    ∀ te k, te ∈ [WeeklyTemplateExercise.mk "e1" 3%Z (Some "10") None] →
            1 ≤ k → (Z.of_nat k ≤ WeeklyTemplateExercise.targetSets te)%Z →
            setDone (DailyLog.mk "2024-01-08"
                       [Sample.squat [Sample.set 1 "100" "5"; Sample.set 2 "110" "3";
                                      Sample.set 3 "" "x"]]) te k.
Proof.
  destruct (getDayStatus_completed "2024-01-08" 1 Sample.logs Sample.pushDay)
    as [_ Hlogged].
  apply (Hlogged _ (WeeklyTemplateDay.mk 1
                      [WeeklyTemplateExercise.mk "e1" 3%Z (Some "10") None])).
  - reflexivity.
  - reflexivity.
  - apply Sample_distinct_sets.
  - apply Sample_naturalTargets.
Defined.

(** With a negative target in the template the planned sets no longer
    tell the status: targets 2 and -2 add up to 0 and the day without a log
    is 'empty'; targets 3 and -1 plan 2 sets, and a log with sets 1 and 2
    of the first exercise completed is 'completed' although set 3 is not
    done. *)
Example getDayStatus_negative_target :
  let cancelling :=
    [WeeklyTemplateDay.mk 1 [WeeklyTemplateExercise.mk "e1" 2%Z None None;
                             WeeklyTemplateExercise.mk "e2" (-2)%Z None None]] in
  let short :=
    [WeeklyTemplateDay.mk 1 [WeeklyTemplateExercise.mk "e1" 3%Z None None;
                             WeeklyTemplateExercise.mk "e2" (-1)%Z None None]] in
  let log :=
    DailyLog.mk "2024-01-08"
      [Sample.squat [ExerciseSet.mk 1 "100" "5" true; ExerciseSet.mk 2 "100" "5" true;
                     ExerciseSet.mk 3 "" "" false]] in
  plannedSets 1 cancelling = 0%Z ∧
  getDayStatus "2024-01-08" 1 [] cancelling = StatusEmpty ∧
  plannedSets 1 short = 2%Z ∧
  getDayStatus "2024-01-08" 1 [log] short = StatusCompleted.
Proof. by vm_compute. Qed.

Lemma cleanedLog_spec_witness :
  let log :=
    DailyLog.mk "2024-01-08"
      [Sample.squat [Sample.set 1 "100" "5"; Sample.set 2 "110" "3";
                     Sample.set 3 "" "x"]] in
  distinctSetNumbers (cleanedLog log).
Proof.
  intros log. destruct (cleanedLog_spec log) as (_ & _ & _ & _ & _ & Hdistinct).
  apply Hdistinct, Sample_distinct_sets.
Defined.

Lemma saveDayLog_spec_witness :
  let log :=
    DailyLog.mk "2024-01-08"
      [Sample.squat [ExerciseSet.mk 1 "120" "5" true; ExerciseSet.mk 2 "" "" false]] in
  let data' := saveDayLog Sample.getTime Sample.data log in
  getDailyLog data' "2024-01-08"
  = Some (DailyLog.mk "2024-01-08" [Sample.squat [ExerciseSet.mk 1 "120" "5" true]]) ∧
  (∀ dayOfWeek,
     getDayStatus "2024-01-08" dayOfWeek (AppData.dailyLogs data')
                  (AppData.weeklyTemplate data')
     = getDayStatus "2024-01-08" dayOfWeek [log] (AppData.weeklyTemplate Sample.data)).
Proof.
  intros log data'.
  destruct (saveDayLog_spec Sample.getTime Sample.data log) as (Hget & _ & _ & Hstatus).
  - by apply (bool_decide_unpack _).
  - split; [exact Hget | exact Hstatus].
Defined.

Lemma handleTemplateExerciseChange_spec_witness :
  let result :=
    handleTemplateExerciseChange Sample.data Sample.pushDay 1 "e1" (Some 5%Z) None in
  templateExerciseOf result.1 1 "e1"
  = Some (WeeklyTemplateExercise.mk "e1" 5 (Some "10") None) ∧
  length (initializeSetsForExercise result.1 "e1" 1) = 5 ∧
  result.2 = Some (desyncActiveGroup Sample.data).
Proof.
  intros result.
  destruct (handleTemplateExerciseChange_spec Sample.data Sample.pushDay 1 "e1"
              (Some 5%Z) None) as (_ & _ & _ & Hday & _).
  destruct Hday as (Hset & _ & Hcall); [by eexists|].
  destruct (Hset 5%Z eq_refl) as [Hnew Hlen]; [lia|].
  split; [exact Hnew|]. split; [exact Hlen | exact Hcall].
Defined.

